(** * TruckScenes Foxglove relay: a shallow embedding and its properties

    The development follows [truckscenes/foxglove_streamer.py] (the
    streaming relay, class [FoxgloveStreamer]) and [truckscenes/__main__.py]
    (the command line).  Python integers are [Z], Python floats are read as
    exact rationals [Q], strings are [string], byte strings are
    [list byte], dict literals that are serialised with [json.dumps] are
    [json] trees, and every routine that prints, sends or raises lives in
    a small state-and-exception monad [M]. *)

From Stdlib Require Import ZArith QArith Lqa Lia String Ascii List DecimalString.
From Stdlib.Strings Require Import Byte.
From stdpp Require Import base option list gmap strings.

Set Warnings "-register-all".

Local Open Scope Z_scope.
Local Open Scope string_scope.

(** ** Python values *)

(** Exceptions of class [Exception]: the class name and [str(e)]. *)
Record exn := Exception { exn_class : string; exn_str : string }.

Inductive result (A : Type) : Type :=
| Ok (a : A)
| Raise (e : exn).
Arguments Ok {A} a.
Arguments Raise {A} e.

(** What [json.dumps] is given: dict literals keep their key order. *)
Inductive json : Type :=
| JInt (n : Z)
| JFloat (q : Q)
| JStr (s : string)
| JBool (b : bool)
| JArr (l : list json)
| JObj (fields : list (string * json)).

Fixpoint assoc_get {V : Type} (k : string) (d : list (string * V)) : option V :=
  match d with
  | [] => None
  | (k', v) :: d' => if String.eqb k k' then Some v else assoc_get k d'
  end.

Definition json_field (k : string) (j : json) : option json :=
  match j with
  | JObj fields => assoc_get k fields
  | _ => None
  end.

(** [str(n)] for an integer. *)
Definition str_int (n : Z) : string := NilZero.string_of_int (Z.to_int n).

(** f-strings *)
Definition fstr (parts : list string) : string := String.concat "" parts.

(** [pat in s] on strings. *)
Fixpoint has_prefix (p s : string) : bool :=
  match p, s with
  | EmptyString, _ => true
  | String a p', String b s' => if Ascii.eqb a b then has_prefix p' s' else false
  | String _ _, EmptyString => false
  end.

Fixpoint str_contains (pat s : string) : bool :=
  if has_prefix pat s then true
  else match s with
       | EmptyString => false
       | String _ s' => str_contains pat s'
       end.

(** Truth value of a string, and of what [dict.get] returns. *)
Definition truthy (s : string) : bool := negb (String.eqb s "").

Definition truthy_opt (o : option string) : bool :=
  match o with
  | Some s => truthy s
  | None => false
  end.

(** [a or b] *)
Definition py_or (a b : option string) : option string :=
  if truthy_opt a then a else b.

(** ** Timestamps *)

Module Timestamp.

(** [FoxgloveStreamer._ts] *)
Record t := mk { sec : Z; nsec : Z }.

Definition _ts (timestamp_us : Z) : t :=
  {| sec := timestamp_us / 1000000; nsec := (timestamp_us mod 1000000) * 1000 |}.

Definition to_json (x : t) : json :=
  JObj [("sec", JInt (sec x)); ("nsec", JInt (nsec x))].

End Timestamp.

(** [a < b] on floats. *)
Definition Qltb (a b : Q) : bool := negb (Qle_bool b a).

(** ** The radar colour ramp *)

Module Radar.

(** Python's two-argument [min] and [max]: the first argument is kept
    unless the second is strictly smaller (resp. larger). *)
Definition py_min (a b : Q) : Q := if Qltb b a then b else a.
Definition py_max (a b : Q) : Q := if Qltb a b then b else a.

Record color := rgba { red : Q; green : Q; blue : Q; alpha : Q }.

(** [rcs_norm = max(0.0, min(1.0, (rcs + 20) / 50))] *)
Definition rcs_norm (rcs : Q) : Q :=
  py_max 0 (py_min 1 ((rcs + 20) / 50)).

(** The branch of [_send_pointcloud] that colours one radar point. *)
Definition rcs_color (rcs : Q) : color :=
  let n := rcs_norm rcs in
  if Qltb n (1 # 2) then
    rgba (n * 2) (n * 2) (1 - n * 2) 1
  else
    rgba 1 (1 - (n - (1 # 2)) * 2) 0 1.

End Radar.

(** ** Base64 ([base64.b64encode], standard alphabet with padding) *)

Module Base64.

Local Open Scope N_scope.

Definition alphabet : string :=
  "ABCDEFGHIJKLMNOPQRSTUVWXYZabcdefghijklmnopqrstuvwxyz0123456789+/".

Definition char (n : N) : ascii :=
  match String.get (N.to_nat n) alphabet with
  | Some c => c
  | None => "="%char
  end.

Definition sextet (n : N) (k : N) : ascii := char ((n / 2 ^ k) mod 64).

Fixpoint b64encode (bs : list byte) : string :=
  match bs with
  | [] => EmptyString
  | [b0] =>
      let n := Byte.to_N b0 * 65536 in
      String (sextet n 18) (String (sextet n 12) "==")
  | [b0; b1] =>
      let n := Byte.to_N b0 * 65536 + Byte.to_N b1 * 256 in
      String (sextet n 18) (String (sextet n 12) (String (sextet n 6) "="))
  | b0 :: b1 :: b2 :: rest =>
      let n := Byte.to_N b0 * 65536 + Byte.to_N b1 * 256 + Byte.to_N b2 in
      String (sextet n 18) (String (sextet n 12)
        (String (sextet n 6) (String (sextet n 0) (b64encode rest))))
  end.

(** [base64.b64decode], for what [b64encode] produces. *)
Fixpoint index_from (c : ascii) (s : string) (n : N) : option N :=
  match s with
  | EmptyString => None
  | String d s' => if Ascii.eqb c d then Some n else index_from c s' (n + 1)
  end.

Definition index (c : ascii) : option N := index_from c alphabet 0.

Definition is_pad (c : ascii) : bool := Ascii.eqb c "="%char.

(** The first [count] bytes of a 24-bit group. *)
Definition bytes_of (n : N) (count : nat) : option (list byte) :=
  match Byte.of_N (n / 65536), Byte.of_N ((n / 256) mod 256), Byte.of_N (n mod 256) with
  | Some b0, Some b1, Some b2 => Some (firstn count [b0; b1; b2])
  | _, _, _ => None
  end.

Fixpoint b64decode (s : string) : option (list byte) :=
  match s with
  | EmptyString => Some []
  | String c0 (String c1 (String c2 (String c3 rest))) =>
      match index c0, index c1 with
      | Some i0, Some i1 =>
          if is_pad c3 then
            match rest with
            | EmptyString =>
                if is_pad c2 then bytes_of (i0 * 262144 + i1 * 4096) 1
                else
                  match index c2 with
                  | Some i2 => bytes_of (i0 * 262144 + i1 * 4096 + i2 * 64) 2
                  | None => None
                  end
            | String _ _ => None
            end
          else
            match index c2, index c3, b64decode rest with
            | Some i2, Some i3, Some tail =>
                match bytes_of (i0 * 262144 + i1 * 4096 + i2 * 64 + i3) 3 with
                | Some group => Some (group ++ tail)%list
                | None => None
                end
            | _, _, _ => None
            end
      | _, _ => None
      end
  | _ => None
  end.

End Base64.

(** ** Quaternions and 3-vectors

    [pyquaternion.Quaternion] and the three-element [numpy] arrays of the
    annotation code, in exact rational arithmetic. *)

Record vec3 := Vec3 { v0 : Q; v1 : Q; v2 : Q }.

Definition vec3_sub (a b : vec3) : vec3 :=
  Vec3 (v0 a - v0 b) (v1 a - v1 b) (v2 a - v2 b).

Module Quaternion.

Local Open Scope Q_scope.

(** [Quaternion([w, x, y, z])] *)
Record t := mk { w : Q; x : Q; y : Q; z : Q }.

Definition sum_of_squares (q : t) : Q :=
  w q * w q + x q * x q + y q * y q + z q * z q.

Definition conjugate (q : t) : t := mk (w q) (- x q) (- y q) (- z q).

(** [p * q], the Hamilton product. *)
Definition mul (p q : t) : t :=
  mk (w p * w q - x p * x q - y p * y q - z p * z q)
     (w p * x q + x p * w q + y p * z q - z p * y q)
     (w p * y q - x p * z q + y p * w q + z p * x q)
     (w p * z q + x p * y q - y p * x q + z p * w q).

(** [q.inverse]: the conjugate over the sum of squares; the zero
    quaternion has none. *)
Definition inverse (q : t) : result t :=
  let ss := sum_of_squares q in
  if Qltb 0 ss then
    Ok (mk (w q / ss) (- x q / ss) (- y q / ss) (- z q / ss))
  else
    Raise (Exception "ZeroDivisionError"
             "a zero quaternion (0 + 0i + 0j + 0k) cannot be inverted").

(** [q.rotate(v)] for a 3-vector [v]: [q] is normalised first, then
    [q * (0, v) * q.conjugate] is taken.  With [n = q / |q|] that is
    [q * (0, v) * q.conjugate / |q|^2], which needs no square root. *)
Definition rotate (q : t) (v : vec3) : vec3 :=
  let ss := sum_of_squares q in
  let p := mul (mul q (mk 0 (v0 v) (v1 v) (v2 v))) (conjugate q) in
  if Qltb 0 ss then Vec3 (x p / ss) (y p / ss) (z p / ss)
  else Vec3 (x p) (y p) (z p).

End Quaternion.

(** ** The dataset tables *)

(** [numpy] point arrays of shape [(shape0, shape1)]: one row per
    channel, one column per point. *)
Record ndarray := { shape0 : nat; shape1 : nat; item : nat -> nat -> Q }.

Definition getitem (a : ndarray) (r i : nat) : result Q :=
  if (r <? shape0 a)%nat && (i <? shape1 a)%nat then Ok (item a r i)
  else Raise (Exception "IndexError" "index out of bounds").

Module Rec.

Record scene := { scene_token : string; first_sample_token : string }.

Record sensor := { channel : string }.

(** A [sample] record with the [data] and [anns] keys the loader's
    reverse index adds; [data] keeps the dict's insertion order. *)
Record sample := {
  timestamp : Z;
  next : string;
  data : list (string * string);
  anns : list string
}.

Record sample_data := { ego_pose_token : string }.

Record ego_pose := { ego_translation : vec3; ego_rotation : Quaternion.t }.

Record sample_annotation := {
  instance_token : string;
  translation : vec3;
  rotation : Quaternion.t;
  size : vec3
}.

Record instance := { category_token : string }.

Record category := { name : string }.

End Rec.

(** Modelled from the spec: the dataset query facade [TruckScenes]
    ([truckscenes/truckscenes.py] is not part of the sources at hand).
    Its ordered collections are lists, its token index is one finite map
    per table, and [get_sample_data_path] is a function that may raise. *)
Record TruckScenes := {
  scene : list Rec.scene;
  sensor : list Rec.sensor;
  sample : gmap string Rec.sample;
  sample_data : gmap string Rec.sample_data;
  ego_pose : gmap string Rec.ego_pose;
  sample_annotation : gmap string Rec.sample_annotation;
  instance : gmap string Rec.instance;
  category : gmap string Rec.category;
  get_sample_data_path : string -> result string
}.

(** Modelled from the spec: [get(table, token) -> record]; an unknown
    token raises [KeyError]. *)
Definition get {R : Type} (table : gmap string R) (token : string) : result R :=
  match table !! token with
  | Some r => Ok r
  | None => Raise (Exception "KeyError" (fstr ["'"; token; "'"]))
  end.

(** ** The relay's monad: a trace, a clock, and exceptions *)

(** What the relay does to the outside: lines on standard output,
    messages handed to the Foxglove server, and the pacing sleep. *)
Inductive event : Type :=
| Print (line : string)
| Send (chan : nat) (log_time : Z) (msg : json)
| Sleep (seconds : Q).

(** [clock] counts the [await] points passed so far: between two of them
    nothing else runs, at each of them anything else may. *)
Record state := { clock : nat; trace : list event }.

Definition emit (e : event) (st : state) : state :=
  {| clock := clock st; trace := trace st ++ [e] |}.

Definition tick (st : state) : state :=
  {| clock := S (clock st); trace := trace st |}.

Definition M (A : Type) : Type := state -> result A * state.

Definition ret {A : Type} (a : A) : M A := fun st => (Ok a, st).

Definition bind {A B : Type} (m : M A) (k : A -> M B) : M B :=
  fun st =>
    match m st with
    | (Ok a, st') => k a st'
    | (Raise e, st') => (Raise e, st')
    end.

Definition lift {A : Type} (r : result A) : M A := fun st => (r, st).

(** [try: body  except Exception as e: handler(e)] *)
Definition try_except (body : M unit) (handler : exn -> M unit) : M unit :=
  fun st =>
    match body st with
    | (Ok a, st') => (Ok a, st')
    | (Raise e, st') => handler e st'
    end.

Declare Scope relay_scope.
Delimit Scope relay_scope with relay.
Notation "x <- c ;; k" := (bind c (fun x => k))
  (at level 100, c at next level, right associativity) : relay_scope.
Notation "c ;; k" := (bind c (fun _ => k))
  (at level 100, k at level 200, right associativity) : relay_scope.
Local Open Scope relay_scope.

Definition print (line : string) : M unit :=
  fun st => (Ok tt, emit (Print line) st).

Fixpoint for_each {A : Type} (l : list A) (body : A -> M unit) : M unit :=
  match l with
  | [] => ret tt
  | a :: l' => body a ;; for_each l' body
  end.

(** A [for] loop that appends one value per element and may raise. *)
Fixpoint collect {A B : Type} (f : A -> result B) (l : list A) : result (list B) :=
  match l with
  | [] => Ok []
  | a :: l' =>
      match f a with
      | Raise e => Raise e
      | Ok b =>
          match collect f l' with
          | Raise e => Raise e
          | Ok bs => Ok (b :: bs)
          end
      end
  end.

(** What a [try]/[except] routine leaves behind: the body's state, plus
    the handler's print when the body raised. *)
Definition caught (body : M unit) (line : exn -> string) (st : state) : state :=
  match body st with
  | (Ok _, st') => st'
  | (Raise e, st') => emit (Print (line e)) st'
  end.

(** ** The world around the streamer *)

(** The file system, the point-cloud decoders of
    [truckscenes.utils.data_classes] (not among the sources at hand, taken
    as they are described: [from_file(path) -> points[N_channels, N_points]]),
    the Foxglove server, and whoever else may write [self.running]. *)
Record world := {
  (** [open(path, 'rb').read()] *)
  read_file : string -> result (list byte);
  (** [LidarPointCloud.from_file(path).points] *)
  lidar_from_file : string -> result ndarray;
  (** [RadarPointCloud.from_file(path).points] *)
  radar_from_file : string -> result ndarray;
  (** whether [server.send_message] raises at a given await point *)
  send_fault : nat -> option exn;
  (** the value of [self.running] at a given await point *)
  running_at : nat -> bool
}.

(** The fields of [FoxgloveStreamer] once the channels are registered. *)
Record FoxgloveStreamer := {
  ts : TruckScenes;
  port : Z;
  channels : gmap string nat;
  tf_channel : nat;
  annotations_channel : nat
}.

(** Category colors (RGBA) *)
Definition CATEGORY_COLORS : list (string * Radar.color) :=
  [ ("vehicle.car", Radar.rgba 0 (1 # 2) 1 (7 # 10));
    ("vehicle.truck", Radar.rgba 1 0 0 (7 # 10));
    ("vehicle.bus", Radar.rgba 1 (1 # 2) 0 (7 # 10));
    ("vehicle.bicycle", Radar.rgba 0 1 0 (7 # 10));
    ("vehicle.motorcycle", Radar.rgba (1 # 2) 0 1 (7 # 10));
    ("vehicle.trailer", Radar.rgba (8 # 10) (4 # 10) 0 (7 # 10));
    ("human.pedestrian.adult", Radar.rgba 1 1 0 (7 # 10));
    ("human.pedestrian.child", Radar.rgba 1 (8 # 10) 0 (7 # 10));
    ("movable_object", Radar.rgba (1 # 2) (1 # 2) (1 # 2) (7 # 10)) ].

Definition color_json (c : Radar.color) : json :=
  JObj [("r", JFloat (Radar.red c)); ("g", JFloat (Radar.green c));
        ("b", JFloat (Radar.blue c)); ("a", JFloat (Radar.alpha c))].

(** [s.split('.')[-1]] *)
Fixpoint last_segment_from (acc s : string) : string :=
  match s with
  | EmptyString => acc
  | String c s' =>
      if Ascii.eqb c "."%char then last_segment_from EmptyString s'
      else last_segment_from (String.append acc (String c EmptyString)) s'
  end.

Definition last_segment (s : string) : string := last_segment_from EmptyString s.

Definition xyz_float (a b c : Q) : json :=
  JObj [("x", JFloat a); ("y", JFloat b); ("z", JFloat c)].

Definition identity_orientation : json :=
  JObj [("x", JInt 0); ("y", JInt 0); ("z", JInt 0); ("w", JInt 1)].

Definition lifetime : json := JObj [("sec", JInt 0); ("nsec", JInt 500000000)].

(** The [SceneUpdate] both the point-cloud and the annotation routine
    build: one entity with the given cubes, spheres and texts. *)
Definition scene_update (stamp : json) (id : string)
    (cubes spheres texts : list json) : json :=
  JObj [("entities",
         JArr [JObj [("timestamp", stamp);
                     ("frame_id", JStr "base_link");
                     ("id", JStr id);
                     ("lifetime", lifetime);
                     ("frame_locked", JBool true);
                     ("metadata", JArr []);
                     ("arrows", JArr []);
                     ("cubes", JArr cubes);
                     ("spheres", JArr spheres);
                     ("cylinders", JArr []);
                     ("lines", JArr []);
                     ("triangles", JArr []);
                     ("texts", JArr texts);
                     ("models", JArr [])]]);
        ("deletions", JArr [])].

(** ** The streaming relay *)

Section Relay.

Variable W : world.
Variable self : FoxgloveStreamer.

(** [await server.send_message(chan, log_time, msg)] *)
Definition send_message (chan : nat) (log_time : Z) (msg : json) : M unit :=
  fun st =>
    match send_fault W (clock st) with
    | Some e => (Raise e, tick st)
    | None => (Ok tt, tick (emit (Send chan log_time msg) st))
    end.

(** [await asyncio.sleep(0.1)] *)
Definition sleep (seconds : Q) : M unit :=
  fun st => (Ok tt, tick (emit (Sleep seconds) st)).

(** [self.channels[key]] *)
Definition channel_id (key : string) : result nat :=
  match channels self !! key with
  | Some c => Ok c
  | None => Raise (Exception "KeyError" (fstr ["'"; key; "'"]))
  end.

Definition stamp (timestamp : Z) : json :=
  Timestamp.to_json (Timestamp._ts timestamp).

(** [_send_transforms] *)
Definition send_transforms (timestamp : Z) : M unit :=
  let transforms :=
    [JObj [("timestamp", stamp timestamp);
           ("parent_frame_id", JStr "world");
           ("child_frame_id", JStr "base_link");
           ("translation", JObj [("x", JInt 0); ("y", JInt 0); ("z", JInt 0)]);
           ("rotation", identity_orientation)]] in
  send_message (tf_channel self) (timestamp * 1000)
    (JObj [("transforms", JArr transforms)]).

(** [_send_camera]: the image message and the fixed calibration. *)
Definition image_message (timestamp : Z) (data : string) : json :=
  JObj [("timestamp", stamp timestamp);
        ("frame_id", JStr "base_link");
        ("format", JStr "jpeg");
        ("data", JStr data)].

Definition camera_info (timestamp : Z) : json :=
  let fx := JFloat 1000 in
  let fy := JFloat 1000 in
  let cx := JFloat 960 in
  let cy := JFloat 540 in
  JObj [("timestamp", stamp timestamp);
        ("frame_id", JStr "base_link");
        ("width", JInt 1920);
        ("height", JInt 1080);
        ("distortion_model", JStr "plumb_bob");
        ("D", JArr [JFloat 0; JFloat 0; JFloat 0; JFloat 0; JFloat 0]);
        ("K", JArr [fx; JInt 0; cx; JInt 0; fy; cy; JInt 0; JInt 0; JInt 1]);
        ("R", JArr [JInt 1; JInt 0; JInt 0; JInt 0; JInt 1; JInt 0;
                    JInt 0; JInt 0; JInt 1]);
        ("P", JArr [fx; JInt 0; cx; JInt 0; JInt 0; fy; cy; JInt 0;
                    JInt 0; JInt 0; JInt 1; JInt 0])].

Definition send_camera_body (channel sd_token : string) (timestamp : Z) : M unit :=
  path <- lift (get_sample_data_path (ts self) sd_token) ;;
  bytes <- lift (read_file W path) ;;
  let data := Base64.b64encode bytes in
  let msg := image_message timestamp data in
  chan <- lift (channel_id channel) ;;
  send_message chan (timestamp * 1000) msg ;;
  let info_key := fstr [channel; "_info"] in
  match channels self !! info_key with
  | Some info_chan =>
      send_message info_chan (timestamp * 1000) (camera_info timestamp)
  | None => ret tt
  end.

Definition send_camera (channel sd_token : string) (timestamp : Z) : M unit :=
  try_except (send_camera_body channel sd_token timestamp)
    (fun e => print (fstr ["Camera error "; channel; ": "; exn_str e])).

(** [_send_pointcloud]: one sphere per point. *)
Definition sphere (px py pz size : Q) (c : Radar.color) : json :=
  JObj [("pose", JObj [("position", xyz_float px py pz);
                       ("orientation", identity_orientation)]);
        ("size", xyz_float size size size);
        ("color", color_json c)].

Definition lidar_sphere (pc : ndarray) (i : nat) : result json :=
  match getitem pc 0 i with Raise e => Raise e | Ok px =>
  match getitem pc 1 i with Raise e => Raise e | Ok py =>
  match getitem pc 2 i with Raise e => Raise e | Ok pz =>
    Ok (sphere px py pz (1 # 10) (Radar.rgba 0 1 0 1))
  end end end.

Definition radar_sphere (pc : ndarray) (i : nat) : result json :=
  match getitem pc 6 i with Raise e => Raise e | Ok rcs =>
  match getitem pc 0 i with Raise e => Raise e | Ok px =>
  match getitem pc 1 i with Raise e => Raise e | Ok py =>
  match getitem pc 2 i with Raise e => Raise e | Ok pz =>
    Ok (sphere px py pz (3 # 10) (Radar.rcs_color rcs))
  end end end end.

Definition pointcloud_spheres (path : string) (is_lidar : bool) : result (list json) :=
  if is_lidar then
    match lidar_from_file W path with
    | Raise e => Raise e
    | Ok pc =>
        let max_pts := 3000%nat in
        let n_pts := Nat.min (shape1 pc) max_pts in
        collect (lidar_sphere pc) (seq 0 n_pts)
    end
  else
    match radar_from_file W path with
    | Raise e => Raise e
    | Ok pc =>
        let max_pts := 800%nat in
        let n_pts := Nat.min (shape1 pc) max_pts in
        collect (radar_sphere pc) (seq 0 n_pts)
    end.

Definition send_pointcloud_body (channel sd_token : string) (timestamp : Z)
    (is_lidar : bool) : M unit :=
  path <- lift (get_sample_data_path (ts self) sd_token) ;;
  spheres <- lift (pointcloud_spheres path is_lidar) ;;
  match spheres with
  | [] => ret tt
  | _ :: _ =>
      let msg := scene_update (stamp timestamp) channel [] spheres [] in
      chan <- lift (channel_id channel) ;;
      send_message chan (timestamp * 1000) msg
  end.

Definition send_pointcloud (channel sd_token : string) (timestamp : Z)
    (is_lidar : bool) : M unit :=
  try_except (send_pointcloud_body channel sd_token timestamp is_lidar)
    (fun e => print (fstr ["Pointcloud error "; channel; ": "; exn_str e])).

(** [_send_annotations]: one cube and one text label per annotation. *)
Definition cube (pos : vec3) (rot : Quaternion.t) (size : vec3)
    (c : Radar.color) : json :=
  JObj [("pose",
         JObj [("position", xyz_float (v0 pos) (v1 pos) (v2 pos));
               ("orientation",
                JObj [("x", JFloat (Quaternion.x rot));
                      ("y", JFloat (Quaternion.y rot));
                      ("z", JFloat (Quaternion.z rot));
                      ("w", JFloat (Quaternion.w rot))])]);
        ("size", xyz_float (v1 size) (v0 size) (v2 size));
        ("color", color_json c)].

Definition label (pos : vec3) (size : vec3) (category_name : string) : json :=
  JObj [("pose",
         JObj [("position",
                xyz_float (v0 pos) (v1 pos) (v2 pos + v2 size / 2 + (1 # 2)));
               ("orientation", identity_orientation)]);
        ("billboard", JBool true);
        ("font_size", JFloat 12);
        ("scale_invariant", JBool true);
        ("color", color_json (Radar.rgba 1 1 1 1));
        ("text", JStr (last_segment category_name))].

Definition category_color (category_name : string) : Radar.color :=
  match assoc_get category_name CATEGORY_COLORS with
  | Some c => c
  | None => Radar.rgba (1 # 2) (1 # 2) (1 # 2) (7 # 10)
  end.

(** The body of the loop over [sample['anns']]: the cube and the text. *)
Definition annotation_box (ego : Rec.ego_pose) (ann_token : string)
    : result (json * json) :=
  match get (sample_annotation (ts self)) ann_token with Raise e => Raise e | Ok ann =>
  match get (instance (ts self)) (Rec.instance_token ann) with Raise e => Raise e | Ok inst =>
  match get (category (ts self)) (Rec.category_token inst) with Raise e => Raise e | Ok cat =>
    let category_name := Rec.name cat in
    let relative_pos := vec3_sub (Rec.translation ann) (Rec.ego_translation ego) in
    match Quaternion.inverse (Rec.ego_rotation ego) with Raise e => Raise e | Ok inv =>
      let relative_pos := Quaternion.rotate inv relative_pos in
      match Quaternion.inverse (Rec.ego_rotation ego) with Raise e => Raise e | Ok inv' =>
        let relative_rot := Quaternion.mul inv' (Rec.rotation ann) in
        let size := Rec.size ann in
        let color := category_color category_name in
        Ok (cube relative_pos relative_rot size color,
            label relative_pos size category_name)
      end
    end
  end end end.

Definition send_annotations_body (sample : Rec.sample) (timestamp : Z) : M unit :=
  let lidar_token :=
    py_or (assoc_get "LIDAR_LEFT" (Rec.data sample))
          (assoc_get "LIDAR_TOP_FRONT" (Rec.data sample)) in
  match lidar_token with
  | Some tok =>
      if truthy tok then
        sd <- lift (get (sample_data (ts self)) tok) ;;
        ego <- lift (get (ego_pose (ts self)) (Rec.ego_pose_token sd)) ;;
        boxes <- lift (collect (annotation_box ego) (Rec.anns sample)) ;;
        let cubes := map fst boxes in
        let texts := map snd boxes in
        match cubes with
        | [] => ret tt
        | _ :: _ =>
            let msg := scene_update (stamp timestamp) "annotations" cubes [] texts in
            send_message (annotations_channel self) (timestamp * 1000) msg
        end
      else ret tt
  | None => ret tt
  end.

Definition send_annotations (sample : Rec.sample) (timestamp : Z) : M unit :=
  try_except (send_annotations_body sample timestamp)
    (fun e => print (fstr ["Annotations error: "; exn_str e])).

(** The [for channel, sd_token in sample['data'].items()] loop body. *)
Definition send_sensor (timestamp : Z) (entry : string * string) : M unit :=
  let '(channel, sd_token) := entry in
  match channels self !! channel with
  | Some _ =>
      if str_contains "CAMERA" channel then
        send_camera channel sd_token timestamp
      else if str_contains "LIDAR" channel then
        send_pointcloud channel sd_token timestamp true
      else if str_contains "RADAR" channel then
        send_pointcloud channel sd_token timestamp false
      else ret tt
  | None => ret tt
  end.

(** Everything one frame sends: transforms, sensors, annotations. *)
Definition send_frame (sample : Rec.sample) : M unit :=
  let timestamp := Rec.timestamp sample in
  send_transforms timestamp ;;
  for_each (Rec.data sample) (send_sensor timestamp) ;;
  send_annotations sample timestamp.

(** One pass through the body of the [while] loop of [_stream_data];
    returns the new [current_token] and [frame_count]. *)
Definition frame_step (current_token : string) (frame_count : Z)
    : M (string * Z) :=
  sample <- lift (get (sample (ts self)) current_token) ;;
  send_frame sample ;;
  let frame_count := frame_count + 1 in
  (if Z.eqb (frame_count mod 10) 0
   then print (fstr ["  Frame "; str_int frame_count])
   else ret tt) ;;
  sleep (1 # 10) ;;
  ret (Rec.next sample, frame_count).

(** [while current_token and self.running: ...]; [None] when the fuel
    runs out before the loop ends. *)
Fixpoint sample_loop (fuel : nat) (current_token : string) (frame_count : Z)
    (st : state) : option (result unit * state) :=
  match fuel with
  | O => None
  | S fuel' =>
      if truthy current_token && running_at W (clock st) then
        match frame_step current_token frame_count st with
        | (Ok (next_token, frame_count'), st') =>
            sample_loop fuel' next_token frame_count' st'
        | (Raise e, st') => Some (Raise e, st')
        end
      else Some (Ok tt, st)
  end.

(** [for scene_idx, scene in enumerate(self.ts.scene): ...] from
    [scene_idx] on, with the [break] on [not self.running]. *)
Fixpoint scene_loop (fuel : nat) (scene_idx : Z) (scenes : list Rec.scene)
    (st : state) : option (result unit * state) :=
  match scenes with
  | [] => Some (Ok tt, st)
  | sc :: rest =>
      let st1 :=
        emit (Print (fstr ["Streaming scene "; str_int (scene_idx + 1); "/";
                           str_int (Z.of_nat (length (scene (ts self))))])) st in
      match sample_loop fuel (Rec.first_sample_token sc) 0 st1 with
      | None => None
      | Some (Raise e, st2) => Some (Raise e, st2)
      | Some (Ok _, st2) =>
          if negb (running_at W (clock st2)) then Some (Ok tt, st2)
          else scene_loop fuel (scene_idx + 1) rest st2
      end
  end.

(** [_stream_data] *)
Definition stream_data (fuel : nat) (st : state) : option (result unit * state) :=
  match scene_loop fuel 0 (scene (ts self)) st with
  | None => None
  | Some (Raise e, st') => Some (Raise e, st')
  | Some (Ok _, st') => Some (print "Streaming complete." st')
  end.

End Relay.

(** ** The command line ([truckscenes/__main__.py]) *)

(** [ts.scene], under a name the argument [args.scene] does not hide. *)
Definition scene_table (ts : TruckScenes) : list Rec.scene := scene ts.

Module CLI.

(** The [argparse] namespace. *)
Record args := {
  foxglove : bool;
  port : Z;
  scene : option Z;
  sample : option string;
  dataroot : string;
  version : string
}.

(** What the process does to the outside. *)
Inductive action : Type :=
| Print (line : string)
| RenderSample (token : string)
| RenderScene (token : string)
| RunStreamer (port : Z).

Inductive outcome : Type :=
| Returned
| Exit (code : Z)
| Uncaught (e : exn).

Record os := {
  (** [os.path.exists] *)
  path_exists : string -> bool;
  (** [TruckScenes(version=..., dataroot=..., verbose=True)] *)
  load : string -> string -> result TruckScenes;
  (** whether [from truckscenes.foxglove_streamer import FoxgloveStreamer]
      finds [foxglove-websocket] *)
  foxglove_installed : bool;
  (** [FoxgloveStreamer(ts, port=...).run()]: [None] when the call
      returns, [Some e] when the exception [e] comes out of it *)
  streamer_run : TruckScenes -> Z -> option exn
}.

(** [l[i]] for a Python list and a Python integer. *)
Definition list_index {A : Type} (l : list A) (i : Z) : result A :=
  let n := Z.of_nat (length l) in
  let j := if Z.ltb i 0 then i + n else i in
  match (if Z.leb 0 j && Z.ltb j n then l !! Z.to_nat j else None) with
  | Some a => Ok a
  | None => Raise (Exception "IndexError" "list index out of range")
  end.

(** [run_visualization] *)
Definition run_visualization (ts : TruckScenes) (a : args) : list action * outcome :=
  if truthy_opt (sample a) then
    match sample a with
    | Some tok => ([Print (fstr ["Rendering sample: "; tok]); RenderSample tok], Returned)
    | None => ([], Returned)
    end
  else
    match scene a with
    | Some idx =>
        if Z.ltb idx (Z.of_nat (length (scene_table ts))) then
          match list_index (scene_table ts) idx with
          | Ok sc =>
              let scene_token := Rec.scene_token sc in
              ([Print (fstr ["Rendering scene "; str_int idx; ": "; scene_token]);
                RenderScene scene_token], Returned)
          | Raise e => ([], Uncaught e)
          end
        else
          ([Print (fstr ["Error: Scene index "; str_int idx; " out of range (0-";
                         str_int (Z.of_nat (length (scene_table ts)) - 1); ")"])],
           Exit 1)
    | None =>
        match scene_table ts with
        | sc :: _ =>
            let scene_token := Rec.scene_token sc in
            ([Print (fstr ["Rendering first scene: "; scene_token]);
              RenderScene scene_token], Returned)
        | [] => ([Print "No scenes available!"], Exit 1)
        end
    end.

(** [run_foxglove]: [streamer.run()] is called outside every [try], so
    what it raises leaves [run_foxglove] as well. *)
Definition run_foxglove (o : os) (ts : TruckScenes) (a : args) : list action * outcome :=
  if foxglove_installed o then
    ([Print (fstr ["Starting Foxglove WebSocket server on port "; str_int (port a); "..."]);
      Print (fstr ["Connect Foxglove Studio to ws://localhost:"; str_int (port a)]);
      RunStreamer (port a)],
     match streamer_run o ts (port a) with
     | None => Returned
     | Some e => Uncaught e
     end)
  else
    ([Print "Error: foxglove-websocket not installed.";
      Print "Install with: pip install foxglove-websocket"], Exit 1).

(** [main], after [parser.parse_args()]. *)
Definition main (o : os) (a : args) : list action * outcome :=
  if negb (path_exists o (dataroot a)) then
    ([Print (fstr ["Error: Data directory not found: "; dataroot a]);
      Print "";
      Print "Please specify the correct path using one of:";
      Print "  1. --dataroot /path/to/man-truckscenes";
      Print "  2. export TRUCKSCENES_DATAROOT=/path/to/man-truckscenes"],
     Exit 1)
  else
    let loading :=
      Print (fstr ["Loading TruckScenes "; version a; " from "; dataroot a; "..."]) in
    match load o (version a) (dataroot a) with
    | Raise e => ([loading], Uncaught e)
    | Ok ts =>
        let '(acts, out) :=
          if foxglove a then run_foxglove o ts a else run_visualization ts a in
        (loading :: acts, out)
    end.

(** An action that renders or streams. *)
Definition shows (x : action) : bool :=
  match x with
  | Print _ => false
  | RenderSample _ | RenderScene _ | RunStreamer _ => true
  end.

End CLI.

(** ** The walk the relay is meant to make *)

Section Walk.

Variable W : world.
Variable self : FoxgloveStreamer.

(** [chain tok toks]: following [sample['next']] from [tok] visits the
    tokens [toks], in that order, and then reaches an empty token. *)
Inductive chain : string -> list string -> Prop :=
| chain_end tok :
    truthy tok = false -> chain tok []
| chain_next tok smp toks :
    truthy tok = true ->
    sample (ts self) !! tok = Some smp ->
    chain (Rec.next smp) toks ->
    chain tok (tok :: toks).

(** The body of the [while] loop, once per token of a list. *)
Fixpoint run_frames (toks : list string) (frame_count : Z) : M unit :=
  match toks with
  | [] => ret tt
  | tok :: toks' =>
      r <- frame_step W self tok frame_count ;;
      run_frames toks' (snd r)
  end.

(** The scene header and the frames of each scene, in turn. *)
Fixpoint run_scenes (scene_idx : Z) (chains : list (list string)) : M unit :=
  match chains with
  | [] => ret tt
  | toks :: rest =>
      print (fstr ["Streaming scene "; str_int (scene_idx + 1); "/";
                   str_int (Z.of_nat (length (scene (ts self))))]) ;;
      run_frames toks 0 ;;
      run_scenes (scene_idx + 1) rest
  end.

End Walk.

(** The same world with another history of [self.running]. *)
Definition set_running (r : nat -> bool) (W : world) : world :=
  {| read_file := read_file W;
     lidar_from_file := lidar_from_file W;
     radar_from_file := radar_from_file W;
     send_fault := send_fault W;
     running_at := r |}.

(** The events a routine adds to the trace. *)
Definition emitted (st st' : state) : list event :=
  drop (length (trace st)) (trace st').

(** [j[k1][k2]...] *)
Fixpoint json_at (path : list string) (j : json) : option json :=
  match path with
  | [] => Some j
  | k :: path' =>
      match json_field k j with
      | Some j' => json_at path' j'
      | None => None
      end
  end.

(** The sphere of column [i] of a point array whose rows are all there:
    green and of size 0.1 for lidar, coloured by the RCS of row 6 and of
    size 0.3 for radar. *)
Definition point_sphere (is_lidar : bool) (pc : ndarray) (i : nat) : json :=
  if is_lidar then
    sphere (item pc 0 i) (item pc 1 i) (item pc 2 i) (1 # 10) (Radar.rgba 0 1 0 1)
  else
    sphere (item pc 0 i) (item pc 1 i) (item pc 2 i) (3 # 10)
      (Radar.rcs_color (item pc 6 i)).

(** The decoder and the cap [max_pts] of either branch of
    [_send_pointcloud]. *)
Definition from_file (W : world) (is_lidar : bool) : string -> result ndarray :=
  if is_lidar then lidar_from_file W else radar_from_file W.

Definition max_points (is_lidar : bool) : nat :=
  if is_lidar then 3000%nat else 800%nat.

(** ** A small dataset to run the relay on *)

Module Demo.

Definition sample1 : Rec.sample :=
  {| Rec.timestamp := 1700000000000000; Rec.next := "s2";
     Rec.data := [("CAMERA_LEFT_FRONT", "cam1"); ("LIDAR_LEFT", "lid1");
                  ("RADAR_LEFT_FRONT", "rad1")];
     Rec.anns := ["a1"] |}.

Definition samples : gmap string Rec.sample :=
  list_to_map
    [ ("s1", sample1);
      ("s2", {| Rec.timestamp := 1700000000100000; Rec.next := "";
                Rec.data := [("CAMERA_LEFT_FRONT", "cam2")];
                Rec.anns := ["a1"] |});
      ("s3", {| Rec.timestamp := 1700000000200000; Rec.next := "";
                Rec.data := [("LIDAR_LEFT", "lid3")];
                Rec.anns := [] |}) ].

Definition dataset : TruckScenes :=
  {| scene := [ {| Rec.scene_token := "scene-a"; Rec.first_sample_token := "s1" |};
                {| Rec.scene_token := "scene-b"; Rec.first_sample_token := "s3" |} ];
     sensor := [ {| Rec.channel := "CAMERA_LEFT_FRONT" |};
                 {| Rec.channel := "LIDAR_LEFT" |};
                 {| Rec.channel := "RADAR_LEFT_FRONT" |} ];
     sample := samples;
     sample_data := list_to_map [("lid1", {| Rec.ego_pose_token := "e1" |})];
     ego_pose :=
       list_to_map
         [("e1", {| Rec.ego_translation := Vec3 1 2 0;
                    Rec.ego_rotation := Quaternion.mk 0 0 0 2 |})];
     sample_annotation :=
       list_to_map
         [("a1", {| Rec.instance_token := "i1";
                    Rec.translation := Vec3 3 2 0;
                    Rec.rotation := Quaternion.mk 1 0 0 0;
                    Rec.size := Vec3 2 4 (3 # 2) |})];
     instance := list_to_map [("i1", {| Rec.category_token := "c1" |})];
     category := list_to_map [("c1", {| Rec.name := "vehicle.car" |})];
     get_sample_data_path := fun token => Ok (fstr ["/data/"; token]) |}.

Definition streamer : FoxgloveStreamer :=
  {| ts := dataset;
     port := 8765;
     channels := list_to_map [("CAMERA_LEFT_FRONT", 0%nat);
                              ("CAMERA_LEFT_FRONT_info", 1%nat);
                              ("LIDAR_LEFT", 2%nat);
                              ("RADAR_LEFT_FRONT", 3%nat)];
     tf_channel := 4%nat;
     annotations_channel := 5%nat |}.

(** Two lidar points and one radar point; the file of [cam1] holds the
    three bytes [Man], the file of [cam2] is missing. *)
Definition lidar_points : ndarray :=
  {| shape0 := 4; shape1 := 2;
     item := fun r i => inject_Z (Z.of_nat (10 * i + r)) |}.

Definition radar_points : ndarray :=
  {| shape0 := 7; shape1 := 1;
     item := fun r i => if (r =? 6)%nat then 30%Q else inject_Z (Z.of_nat r) |}.

Definition many_points : ndarray :=
  {| shape0 := 4; shape1 := 5000;
     item := fun r i => inject_Z (Z.of_nat (i + r)) |}.

Definition empty_points : ndarray :=
  {| shape0 := 4; shape1 := 0; item := fun _ _ => 0%Q |}.

Definition world0 : world :=
  {| read_file := fun path =>
       if String.eqb path "/data/cam1" then Ok [x4d; x61; x6e]
       else Raise (Exception "FileNotFoundError" path);
     lidar_from_file := fun path =>
       if String.eqb path "/data/lid1" then Ok lidar_points
       else if String.eqb path "/data/lid9" then Ok many_points
       else Ok empty_points;
     radar_from_file := fun _ => Ok radar_points;
     send_fault := fun _ => None;
     running_at := fun _ => true |}.

(** The same world, except that the send at await point [n] raises. *)
Definition world_fault (n : nat) : world :=
  {| read_file := read_file world0;
     lidar_from_file := lidar_from_file world0;
     radar_from_file := radar_from_file world0;
     send_fault := fun c =>
       if (c =? n)%nat then Some (Exception "ConnectionClosed" "connection closed")
       else None;
     running_at := fun _ => true |}.

Definition start : state := {| clock := 0; trace := [] |}.

(** Whether a line was printed, and whether a channel got a message. *)
Definition printed (line : string) (st : state) : bool :=
  existsb (fun e => match e with
                    | Print l => String.eqb l line
                    | _ => false
                    end) (trace st).

Definition sent_on (chan : nat) (st : state) : bool :=
  existsb (fun e => match e with
                    | Send c _ _ => (c =? chan)%nat
                    | _ => false
                    end) (trace st).

(** A sample without any lidar entry. *)
Definition camera_only : Rec.sample :=
  {| Rec.timestamp := 1700000000000000; Rec.next := "";
     Rec.data := [("CAMERA_LEFT_FRONT", "cam1")];
     Rec.anns := ["a1"] |}.

End Demo.

(** ** A machine to run the command line on *)

Module DemoCLI.

Definition machine : CLI.os :=
  {| CLI.path_exists := fun path => String.eqb path "/data/man-truckscenes";
     CLI.load := fun _ _ => Ok Demo.dataset;
     CLI.foxglove_installed := true;
     CLI.streamer_run := fun _ _ => None |}.

(** [python -m truckscenes --scene N] *)
Definition with_scene (n : Z) : CLI.args :=
  {| CLI.foxglove := false; CLI.port := 8765; CLI.scene := Some n; CLI.sample := None;
     CLI.dataroot := "/data/man-truckscenes"; CLI.version := "v1.1-mini" |}.

(** [python -m truckscenes --foxglove --scene N] *)
Definition streaming_with_scene (n : Z) : CLI.args :=
  {| CLI.foxglove := true; CLI.port := 8765; CLI.scene := Some n; CLI.sample := None;
     CLI.dataroot := "/data/man-truckscenes"; CLI.version := "v1.1-mini" |}.

(** [python -m truckscenes --dataroot /nowhere] *)
Definition elsewhere : CLI.args :=
  {| CLI.foxglove := false; CLI.port := 8765; CLI.scene := None; CLI.sample := None;
     CLI.dataroot := "/nowhere"; CLI.version := "v1.1-mini" |}.

End DemoCLI.

(** ** Channel registration ([_register_channels], [_run_server]) *)

Module Server.

(** What [server.add_channel] is given.  [schema = Some j] stands for the
    text [json.dumps(j)], [schema = None] for the empty string. *)
Record channel_spec := {
  topic : string;
  encoding : string;
  schemaName : string;
  schemaEncoding : option string;
  schema : option json
}.

(** The part of [FoxgloveServer] the relay relies on: channels are
    numbered in the order they are added. *)
Record t := { next_channel_id : nat; advertised : list (nat * channel_spec) }.

Definition fresh : t := {| next_channel_id := 0; advertised := [] |}.

(** [await server.add_channel(spec)] *)
Definition add_channel (spec : channel_spec) (srv : t) : nat * t :=
  (next_channel_id srv,
   {| next_channel_id := S (next_channel_id srv);
      advertised := advertised srv ++ [(next_channel_id srv, spec)] |}).

End Server.

(** The schema that tells Foxglove the data field is base64 encoded. *)
Definition camera_schema : json :=
  JObj [("type", JStr "object");
        ("properties",
         JObj [("timestamp", JObj [("type", JStr "object")]);
               ("frame_id", JObj [("type", JStr "string")]);
               ("format", JObj [("type", JStr "string")]);
               ("data", JObj [("type", JStr "string");
                              ("contentEncoding", JStr "base64")])])].

Definition scene_update_spec (topic : string) : Server.channel_spec :=
  {| Server.topic := topic; Server.encoding := "json";
     Server.schemaName := "foxglove.SceneUpdate";
     Server.schemaEncoding := None; Server.schema := None |}.

(** One turn of [for sensor in self.ts.sensor]. *)
Definition register_sensor (acc : gmap string nat * Server.t) (s : Rec.sensor)
    : gmap string nat * Server.t :=
  let channel := Rec.channel s in
  if str_contains "CAMERA" channel then
    let image := Server.add_channel
      {| Server.topic := fstr ["/camera/"; channel]; Server.encoding := "json";
         Server.schemaName := "foxglove.CompressedImage";
         Server.schemaEncoding := Some "jsonschema";
         Server.schema := Some camera_schema |} (snd acc) in
    let info := Server.add_channel
      {| Server.topic := fstr ["/camera/"; channel; "/camera_info"];
         Server.encoding := "json";
         Server.schemaName := "foxglove.CameraCalibration";
         Server.schemaEncoding := None; Server.schema := None |} (snd image) in
    (<[fstr [channel; "_info"] := fst info]> (<[channel := fst image]> (fst acc)),
     snd info)
  else if str_contains "LIDAR" channel then
    let added := Server.add_channel (scene_update_spec (fstr ["/lidar/"; channel]))
                   (snd acc) in
    (<[channel := fst added]> (fst acc), snd added)
  else if str_contains "RADAR" channel then
    let added := Server.add_channel (scene_update_spec (fstr ["/radar/"; channel]))
                   (snd acc) in
    (<[channel := fst added]> (fst acc), snd added)
  else acc.

(** [sum(1 for ch in self.channels if pat in ch)] *)
Definition count_keys (pat : string) (chans : gmap string nat) : nat :=
  length (List.filter (fun kv => str_contains pat (fst kv)) (map_to_list chans)).

(** [_register_channels] on a streamer fresh from [__init__]: the
    streamer with its channels, the server, and the line printed. *)
Definition register_channels (dataset : TruckScenes) (port : Z) (srv : Server.t)
    : FoxgloveStreamer * Server.t * string :=
  let sensors := fold_left register_sensor (sensor dataset) (∅, srv) in
  let tf := Server.add_channel
    {| Server.topic := "/tf"; Server.encoding := "json";
       Server.schemaName := "foxglove.FrameTransforms";
       Server.schemaEncoding := None; Server.schema := None |} (snd sensors) in
  let annotations := Server.add_channel (scene_update_spec "/annotations") (snd tf) in
  let lidar_count := count_keys "LIDAR" (fst sensors) in
  let radar_count := count_keys "RADAR" (fst sensors) in
  let camera_count := count_keys "CAMERA" (fst sensors) in
  ({| ts := dataset; port := port; channels := fst sensors;
      tf_channel := fst tf; annotations_channel := fst annotations |},
   snd annotations,
   fstr ["Registered "; str_int (Z.of_nat camera_count); " cameras, ";
         str_int (Z.of_nat lidar_count); " lidars, ";
         str_int (Z.of_nat radar_count); " radars + /annotations + /tf"]).

(** [self.running = True]: at this point of the clock the flag is up,
    whatever the others wrote before. *)
Definition raise_flag (now : nat) (W : world) : world :=
  set_running (fun c => if (c =? now)%nat then true else running_at W c) W.

(** [_run_server], from the moment the server is up: the two greeting
    lines, the registration (one await per channel added), the flag, the
    stream. *)
Definition run_server (W : world) (dataset : TruckScenes) (port : Z) (fuel : nat)
    : option (result unit * state) :=
  let registered := register_channels dataset port Server.fresh in
  let self := fst (fst registered) in
  let st :=
    {| clock := Server.next_channel_id (snd (fst registered));
       trace := [Print (fstr ["Foxglove server started on ws://localhost:"; str_int port]);
                 Print "Connect Foxglove Studio to this address.";
                 Print (snd registered)] |} in
  stream_data (raise_flag (clock st) W) self fuel st.

(** ** What a trace holds *)


Definition is_send (e : event) : bool :=
  match e with
  | Send _ _ _ => true
  | _ => false
  end.

(** The channel ids a streamer may send on. *)
Definition registered (self : FoxgloveStreamer) (chan : nat) : Prop :=
  chan = tf_channel self \/ chan = annotations_channel self \/
  exists key, channels self !! key = Some chan.

(** [grows P m]: whatever the state, [m] only appends to the trace, and
    every event it appends satisfies [P]. *)
Definition grows {A : Type} (P : event -> Prop) (m : M A) : Prop :=
  forall st, exists new,
    trace (snd (m st)) = (trace st ++ new)%list /\ Forall P new.

(** What one frame of a sample may append: prints, and messages on a
    registered channel stamped with the sample's time in nanoseconds. *)
Definition frame_event (self : FoxgloveStreamer) (timestamp : Z) (e : event) : Prop :=
  match e with
  | Print _ => True
  | Send chan log_time _ => registered self chan /\ log_time = timestamp * 1000
  | Sleep _ => False
  end.


(** What the whole stream may append: prints, messages on a registered
    channel, and sleeps of a tenth of a second. *)
Definition stream_event (self : FoxgloveStreamer) (e : event) : Prop :=
  match e with
  | Print _ => True
  | Send chan _ _ => registered self chan
  | Sleep seconds => seconds = (1 # 10)%Q
  end.

(** The channel map and the server agree: every id in the map was handed
    out by the server, and no id is under two keys. *)
Definition ids_fresh (chans : gmap string nat) (srv : Server.t) : Prop :=
  (forall key c, chans !! key = Some c -> (c < Server.next_channel_id srv)%nat) /\
  (forall k1 k2 c, chans !! k1 = Some c -> chans !! k2 = Some c -> k1 = k2).


(** The channel names [_register_channels] gives a channel to. *)
Definition is_sensor_channel (channel : string) : bool :=
  str_contains "CAMERA" channel || str_contains "LIDAR" channel
  || str_contains "RADAR" channel.

(** [appended P st st']: [st'] has the trace of [st] and, after it, only
    events that satisfy [P]. *)
Definition appended (P : event -> Prop) (st st' : state) : Prop :=
  exists new, trace st' = (trace st ++ new)%list /\ Forall P new.

(** Where a key of the channel map comes from: a sensor of the table
    that is given a channel, or a camera (for its [_info] key). *)
Definition key_of (s : Rec.sensor) (key : string) : Prop :=
  (key = Rec.channel s /\ is_sensor_channel (Rec.channel s) = true) \/
  (key = fstr [Rec.channel s; "_info"] /\ str_contains "CAMERA" (Rec.channel s) = true).


(** ** More of the demo *)

Module Demo2.

(** A radar file decoded to six rows only: the RCS row is missing. *)
Definition short_radar : ndarray :=
  {| shape0 := 6; shape1 := 3; item := fun r i => inject_Z (Z.of_nat (r + i)) |}.

Definition world_short_radar : world :=
  {| read_file := read_file Demo.world0;
     lidar_from_file := lidar_from_file Demo.world0;
     radar_from_file := fun _ => Ok short_radar;
     send_fault := send_fault Demo.world0;
     running_at := running_at Demo.world0 |}.

End Demo2.

Module Demo3.

(** The first demo sample with a second annotation token that is in no
    table. *)
Definition sample_bad_annotation : Rec.sample :=
  {| Rec.timestamp := Rec.timestamp Demo.sample1; Rec.next := "";
     Rec.data := Rec.data Demo.sample1;
     Rec.anns := ["a1"; "a-lost"] |}.

(** The demo dataset with an ego pose whose rotation is all zeros. *)
Definition dataset_zero_rotation : TruckScenes :=
  {| scene := scene Demo.dataset;
     sensor := sensor Demo.dataset;
     sample := sample Demo.dataset;
     sample_data := sample_data Demo.dataset;
     ego_pose :=
       list_to_map
         [("e1", {| Rec.ego_translation := Vec3 1 2 0;
                    Rec.ego_rotation := Quaternion.mk 0 0 0 0 |})];
     sample_annotation := sample_annotation Demo.dataset;
     instance := instance Demo.dataset;
     category := category Demo.dataset;
     get_sample_data_path := get_sample_data_path Demo.dataset |}.

Definition streamer_zero_rotation : FoxgloveStreamer :=
  {| ts := dataset_zero_rotation;
     port := port Demo.streamer;
     channels := channels Demo.streamer;
     tf_channel := tf_channel Demo.streamer;
     annotations_channel := annotations_channel Demo.streamer |}.

Definition ego1 : Rec.ego_pose :=
  {| Rec.ego_translation := Vec3 1 2 0; Rec.ego_rotation := Quaternion.mk 0 0 0 2 |}.

End Demo3.

Module Demo4.

(** A dataset whose only sample names itself as its successor. *)
Definition looping_sample : Rec.sample :=
  {| Rec.timestamp := 1700000000000000; Rec.next := "s1";
     Rec.data := []; Rec.anns := [] |}.

Definition dataset_loop : TruckScenes :=
  {| scene := scene Demo.dataset;
     sensor := sensor Demo.dataset;
     sample := list_to_map [("s1", looping_sample)];
     sample_data := sample_data Demo.dataset;
     ego_pose := ego_pose Demo.dataset;
     sample_annotation := sample_annotation Demo.dataset;
     instance := instance Demo.dataset;
     category := category Demo.dataset;
     get_sample_data_path := get_sample_data_path Demo.dataset |}.

Definition streamer_loop : FoxgloveStreamer :=
  {| ts := dataset_loop;
     port := port Demo.streamer;
     channels := channels Demo.streamer;
     tf_channel := tf_channel Demo.streamer;
     annotations_channel := annotations_channel Demo.streamer |}.

End Demo4.



(** A string without a dot. *)
Fixpoint no_dot (s : string) : bool :=
  match s with
  | EmptyString => true
  | String c s' => negb (Ascii.eqb c "."%char) && no_dot s'
  end.

(** The arguments with another scene index and sample token. *)
Definition with_selection (scene : option Z) (sample : option string)
    (a : CLI.args) : CLI.args :=
  {| CLI.foxglove := CLI.foxglove a; CLI.port := CLI.port a;
     CLI.scene := scene; CLI.sample := sample;
     CLI.dataroot := CLI.dataroot a; CLI.version := CLI.version a |}.

Module Demo5.

(** The demo dataset with its scene table emptied. *)
Definition dataset_no_scenes : TruckScenes :=
  {| scene := [];
     sensor := sensor Demo.dataset;
     sample := sample Demo.dataset;
     sample_data := sample_data Demo.dataset;
     ego_pose := ego_pose Demo.dataset;
     sample_annotation := sample_annotation Demo.dataset;
     instance := instance Demo.dataset;
     category := category Demo.dataset;
     get_sample_data_path := get_sample_data_path Demo.dataset |}.

End Demo5.

Definition is_print (e : event) : bool :=
  match e with
  | Print _ => true
  | _ => false
  end.

Module Demo6.

(** The demo streamer over a dataset whose two scenes have no samples. *)
Definition dataset_bare : TruckScenes :=
  {| scene := [ {| Rec.scene_token := "scene-a"; Rec.first_sample_token := "" |};
                {| Rec.scene_token := "scene-b"; Rec.first_sample_token := "" |} ];
     sensor := sensor Demo.dataset;
     sample := sample Demo.dataset;
     sample_data := sample_data Demo.dataset;
     ego_pose := ego_pose Demo.dataset;
     sample_annotation := sample_annotation Demo.dataset;
     instance := instance Demo.dataset;
     category := category Demo.dataset;
     get_sample_data_path := get_sample_data_path Demo.dataset |}.

Definition streamer_bare : FoxgloveStreamer :=
  {| ts := dataset_bare;
     port := port Demo.streamer;
     channels := channels Demo.streamer;
     tf_channel := tf_channel Demo.streamer;
     annotations_channel := annotations_channel Demo.streamer |}.

End Demo6.

(** The progress lines [  Frame N] among some events. *)
Definition is_progress (e : event) : bool :=
  match e with
  | Print line => has_prefix "  Frame " line
  | _ => false
  end.

Definition count_progress (events : list event) : nat :=
  length (List.filter is_progress events).

(** [progressed st st' n]: from [st] to [st'] the trace was extended, by
    events among which exactly [n] are progress lines. *)
Definition progressed (st st' : state) (n : nat) : Prop :=
  exists new, trace st' = (trace st ++ new)%list /\ count_progress new = n.

Module Demo7.

(** A scene of ten frames without sensors. *)
Definition bare (timestamp : Z) (next : string) : Rec.sample :=
  {| Rec.timestamp := timestamp; Rec.next := next; Rec.data := []; Rec.anns := [] |}.

Definition dataset_ten : TruckScenes :=
  {| scene := [ {| Rec.scene_token := "scene-ten"; Rec.first_sample_token := "f1" |} ];
     sensor := sensor Demo.dataset;
     sample :=
       list_to_map
         [ ("f1", bare 100000 "f2"); ("f2", bare 200000 "f3"); ("f3", bare 300000 "f4");
           ("f4", bare 400000 "f5"); ("f5", bare 500000 "f6"); ("f6", bare 600000 "f7");
           ("f7", bare 700000 "f8"); ("f8", bare 800000 "f9"); ("f9", bare 900000 "f10");
           ("f10", bare 1000000 "") ];
     sample_data := sample_data Demo.dataset;
     ego_pose := ego_pose Demo.dataset;
     sample_annotation := sample_annotation Demo.dataset;
     instance := instance Demo.dataset;
     category := category Demo.dataset;
     get_sample_data_path := get_sample_data_path Demo.dataset |}.

Definition streamer_ten : FoxgloveStreamer :=
  {| ts := dataset_ten;
     port := port Demo.streamer;
     channels := channels Demo.streamer;
     tf_channel := tf_channel Demo.streamer;
     annotations_channel := annotations_channel Demo.streamer |}.

Definition tokens : list string :=
  ["f1"; "f2"; "f3"; "f4"; "f5"; "f6"; "f7"; "f8"; "f9"; "f10"].

End Demo7.

(** An event that is no progress line. *)
Definition quiet (e : event) : Prop := is_progress e = false.


(** ** Reading a message *)

(** One step into a message: a key of an object or an index of an array. *)
Inductive step : Type :=
| Key (k : string)
| Index (i : nat).

(** [j[s1][s2]...], [None] where a key or an index is not there. *)
Fixpoint json_get (path : list step) (j : json) : option json :=
  match path with
  | [] => Some j
  | Key k :: path' =>
      match json_field k j with
      | Some j' => json_get path' j'
      | None => None
      end
  | Index i :: path' =>
      match j with
      | JArr l =>
          match l !! i with
          | Some j' => json_get path' j'
          | None => None
          end
      | _ => None
      end
  end.

(** Where a message keeps its [timestamp]: at the top (images and
    calibrations), in its first transform, or in its first entity. *)
Definition stamp_paths : list (list step) :=
  [ [Key "timestamp"];
    [Key "transforms"; Index 0%nat; Key "timestamp"];
    [Key "entities"; Index 0%nat; Key "timestamp"] ].

(** The message holds the stamp [{"sec": sec, "nsec": nsec}]. *)
Definition carries_stamp (sec nsec : Z) (msg : json) : Prop :=
  exists path,
    path ∈ stamp_paths /\
    json_get path msg = Some (JObj [("sec", JInt sec); ("nsec", JInt nsec)]).

(** What one frame of a sample may append, the stamp inside the message
    included. *)
Definition stamped_event (self : FoxgloveStreamer) (timestamp : Z) (e : event) : Prop :=
  match e with
  | Print _ => True
  | Send chan log_time msg =>
      registered self chan /\
      log_time = timestamp * 1000 /\
      carries_stamp (timestamp / 1000000) ((timestamp mod 1000000) * 1000) msg
  | Sleep _ => False
  end.

(** A transform message from [world] to [base_link]. *)
Definition world_to_base_link (msg : json) : Prop :=
  json_get [Key "transforms"; Index 0%nat; Key "parent_frame_id"] msg = Some (JStr "world") /\
  json_get [Key "transforms"; Index 0%nat; Key "child_frame_id"] msg
  = Some (JStr "base_link").

(** ** The ego frame, coordinate by coordinate

    What the specification says of the published cube, written out as
    plain arithmetic on the coordinates; none of [Quaternion.inverse],
    [Quaternion.rotate] and [Quaternion.mul] is used here. *)

Module EgoFrame.

Local Open Scope Q_scope.

(** The inverse of the rotation of [q = w + xi + yj + zk] applied to
    [d]: the transposed rotation matrix of [q], over the squared norm of
    [q] (which is 1 for a unit quaternion). *)
Definition position (q : Quaternion.t) (d : vec3) : vec3 :=
  let w := Quaternion.w q in
  let x := Quaternion.x q in
  let y := Quaternion.y q in
  let z := Quaternion.z q in
  let n := w * w + x * x + y * y + z * z in
  Vec3
    (((w * w + x * x - y * y - z * z) * v0 d
      + 2 * (x * y + w * z) * v1 d
      + 2 * (x * z - w * y) * v2 d) / n)
    ((2 * (x * y - w * z) * v0 d
      + (w * w - x * x + y * y - z * z) * v1 d
      + 2 * (y * z + w * x) * v2 d) / n)
    ((2 * (x * z + w * y) * v0 d
      + 2 * (y * z - w * x) * v1 d
      + (w * w - x * x - y * y + z * z) * v2 d) / n).

(** The inverse of [q] composed with [r]: the conjugate of [q] times
    [r], over the squared norm of [q]. *)
Definition orientation (q r : Quaternion.t) : Quaternion.t :=
  let w := Quaternion.w q in
  let x := Quaternion.x q in
  let y := Quaternion.y q in
  let z := Quaternion.z q in
  let rw := Quaternion.w r in
  let rx := Quaternion.x r in
  let ry := Quaternion.y r in
  let rz := Quaternion.z r in
  let n := w * w + x * x + y * y + z * z in
  Quaternion.mk
    ((w * rw + x * rx + y * ry + z * rz) / n)
    ((w * rx - x * rw - y * rz + z * ry) / n)
    ((w * ry + x * rz - y * rw - z * rx) / n)
    ((w * rz - x * ry + y * rx - z * rw) / n).

End EgoFrame.

(** ** Runs that are cut off

    [sample_loop] and the loops around it give [None] when the fuel runs
    out.  The functions here walk the same loops and give the state the
    run is in at that moment (or at its end, when it ends earlier), so
    that what a run has sent can be stated of runs that never end as
    well. *)

Fixpoint sample_loop_reached (W : world) (self : FoxgloveStreamer) (fuel : nat)
    (current_token : string) (frame_count : Z) (st : state) : state :=
  match fuel with
  | O => st
  | S fuel' =>
      if truthy current_token && running_at W (clock st) then
        match frame_step W self current_token frame_count st with
        | (Ok (next_token, frame_count'), st') =>
            sample_loop_reached W self fuel' next_token frame_count' st'
        | (Raise e, st') => st'
        end
      else st
  end.

Fixpoint scene_loop_reached (W : world) (self : FoxgloveStreamer) (fuel : nat)
    (scene_idx : Z) (scenes : list Rec.scene) (st : state) : state :=
  match scenes with
  | [] => st
  | sc :: rest =>
      let st1 :=
        emit (Print (fstr ["Streaming scene "; str_int (scene_idx + 1); "/";
                           str_int (Z.of_nat (length (scene (ts self))))])) st in
      match sample_loop W self fuel (Rec.first_sample_token sc) 0 st1 with
      | None => sample_loop_reached W self fuel (Rec.first_sample_token sc) 0 st1
      | Some (Raise e, st2) => st2
      | Some (Ok _, st2) =>
          if negb (running_at W (clock st2)) then st2
          else scene_loop_reached W self fuel (scene_idx + 1) rest st2
      end
  end.

Definition stream_data_reached (W : world) (self : FoxgloveStreamer) (fuel : nat)
    (st : state) : state :=
  match stream_data W self fuel st with
  | Some (_, st') => st'
  | None => scene_loop_reached W self fuel 0 (scene (ts self)) st
  end.

(** [_run_server], cut off: the state after the greeting, the
    registration and a stream of at most [fuel] frames per scene. *)
Definition run_server_reached (W : world) (dataset : TruckScenes) (port : Z)
    (fuel : nat) : state :=
  let registered := register_channels dataset port Server.fresh in
  let self := fst (fst registered) in
  let st :=
    {| clock := Server.next_channel_id (snd (fst registered));
       trace := [Print (fstr ["Foxglove server started on ws://localhost:"; str_int port]);
                 Print "Connect Foxglove Studio to this address.";
                 Print (snd registered)] |} in
  stream_data_reached (raise_flag (clock st) W) self fuel st.

(** ** A streamer that fails *)

Module DemoCLI2.

(** The demo machine with a streamer that raises once it is running. *)
Definition machine_failing_streamer : CLI.os :=
  {| CLI.path_exists := CLI.path_exists DemoCLI.machine;
     CLI.load := CLI.load DemoCLI.machine;
     CLI.foxglove_installed := true;
     CLI.streamer_run := fun _ _ => Some (Exception "KeyError" "'s9'") |}.

End DemoCLI2.


(** * Properties *)

(** ** Timestamps *)

(** C3 -- [_ts] splits a non-negative microsecond timestamp [t] into
    [sec = t // 1000000] and [nsec = (t % 1000000) * 1000], the
    nanosecond part lies in [0, 10^9), it is a whole number of
    microseconds, and [sec * 1000000 + nsec / 1000] gives [t] back. *)
Theorem ts_round_trip (t : Z) (Ht : 0 <= t) :
  Timestamp._ts t = Timestamp.mk (t / 1000000) ((t mod 1000000) * 1000) /\
  0 <= Timestamp.nsec (Timestamp._ts t) < 1000000000 /\
  Timestamp.nsec (Timestamp._ts t) mod 1000 = 0 /\
  Timestamp.sec (Timestamp._ts t) * 1000000 + Timestamp.nsec (Timestamp._ts t) / 1000 = t.
Proof.
  unfold Timestamp._ts; simpl.
  pose proof (Z.mod_pos_bound t 1000000 ltac:(lia)) as Hm.
  repeat split; try lia.
  - apply Z.mod_mul; lia.
  - rewrite Z.div_mul by lia.
    pose proof (Z.div_mod t 1000000 ltac:(lia)); lia.
Qed.

Lemma ts_round_trip_witness :
  0 <= 1700000000123456 /\
  Timestamp._ts 1700000000123456 = Timestamp.mk 1700000000 123456000.
Proof.
  split; [lia |].
  destruct (ts_round_trip 1700000000123456 ltac:(lia)) as [H _].
  exact H.
Defined.

(** ** The colour ramp *)

Lemma Qltb_true (a b : Q) : Qltb a b = true <-> (a < b)%Q.
Proof.
  unfold Qltb. rewrite negb_true_iff.
  split; intros H.
  - apply Qnot_le_lt. intros Hle. apply Qle_bool_iff in Hle. congruence.
  - destruct (Qle_bool b a) eqn:E; [| reflexivity].
    apply Qle_bool_iff in E. exfalso. eapply Qlt_not_le; eauto.
Qed.

Lemma Qltb_false (a b : Q) : Qltb a b = false <-> (b <= a)%Q.
Proof.
  unfold Qltb. rewrite negb_false_iff. apply Qle_bool_iff.
Qed.

Ltac case_Qltb :=
  repeat match goal with
  | |- context [Qltb ?a ?b] =>
      let E := fresh "E" in
      destruct (Qltb a b) eqn:E;
      [apply Qltb_true in E | apply Qltb_false in E]
  | H : context [Qltb ?a ?b] |- _ =>
      let E := fresh "E" in
      destruct (Qltb a b) eqn:E;
      [apply Qltb_true in E | apply Qltb_false in E]
  end.

Lemma rcs_norm_range (rcs : Q) : (0 <= Radar.rcs_norm rcs <= 1)%Q.
Proof.
  unfold Radar.rcs_norm, Radar.py_max, Radar.py_min.
  case_Qltb; lra.
Qed.

Lemma rcs_norm_mono (rcs1 rcs2 : Q) :
  (rcs1 <= rcs2)%Q -> (Radar.rcs_norm rcs1 <= Radar.rcs_norm rcs2)%Q.
Proof.
  intros H.
  assert (Hd : ((rcs1 + 20) / 50 <= (rcs2 + 20) / 50)%Q).
  { unfold Qdiv. apply Qmult_le_compat_r; [lra | discriminate]. }
  unfold Radar.rcs_norm, Radar.py_max, Radar.py_min.
  case_Qltb; lra.
Qed.

Lemma rcs_norm_low (rcs : Q) : (rcs <= 5)%Q -> (Radar.rcs_norm rcs <= 1 # 2)%Q.
Proof.
  intros H.
  assert (Hd : ((rcs + 20) / 50 <= 1 # 2)%Q).
  { apply Qle_shift_div_r; [reflexivity | lra]. }
  unfold Radar.rcs_norm, Radar.py_max, Radar.py_min.
  case_Qltb; lra.
Qed.

Lemma rcs_norm_high (rcs : Q) : (5 <= rcs)%Q -> (1 # 2 <= Radar.rcs_norm rcs)%Q.
Proof.
  intros H.
  assert (Hd : (1 # 2 <= (rcs + 20) / 50)%Q).
  { apply Qle_shift_div_l; [reflexivity | lra]. }
  unfold Radar.rcs_norm, Radar.py_max, Radar.py_min.
  case_Qltb; lra.
Qed.

(** C4, as the code has it -- for [rcs1 <= rcs2] the red component is
    nondecreasing and the blue component is nonincreasing; the green
    component is nondecreasing while [rcs2 <= 5] (the blue-to-yellow half
    of the ramp) and nonincreasing once [5 <= rcs1] (the yellow-to-red
    half). *)
Theorem rcs_color_ramp (rcs1 rcs2 : Q) (H : (rcs1 <= rcs2)%Q) :
  (Radar.red (Radar.rcs_color rcs1) <= Radar.red (Radar.rcs_color rcs2))%Q /\
  (Radar.blue (Radar.rcs_color rcs2) <= Radar.blue (Radar.rcs_color rcs1))%Q /\
  ((rcs2 <= 5)%Q ->
   (Radar.green (Radar.rcs_color rcs1) <= Radar.green (Radar.rcs_color rcs2))%Q) /\
  ((5 <= rcs1)%Q ->
   (Radar.green (Radar.rcs_color rcs2) <= Radar.green (Radar.rcs_color rcs1))%Q).
Proof.
  pose proof (rcs_norm_mono rcs1 rcs2 H) as Hm.
  pose proof (rcs_norm_range rcs1) as [Hl1 Hu1].
  pose proof (rcs_norm_range rcs2) as [Hl2 Hu2].
  unfold Radar.rcs_color.
  repeat split.
  - case_Qltb; simpl; lra.
  - case_Qltb; simpl; lra.
  - intros H5. pose proof (rcs_norm_low rcs2 H5).
    case_Qltb; simpl; lra.
  - intros H5. pose proof (rcs_norm_high rcs1 H5).
    case_Qltb; simpl; lra.
Qed.

Lemma rcs_color_ramp_witness :
  (-20 <= 5)%Q /\
  (Radar.red (Radar.rcs_color (-20)) <= Radar.red (Radar.rcs_color 5))%Q /\
  (Radar.blue (Radar.rcs_color 5) <= Radar.blue (Radar.rcs_color (-20)))%Q.
Proof.
  assert (H : (-20 <= 5)%Q) by (vm_compute; discriminate).
  split; [exact H |].
  destruct (rcs_color_ramp (-20) 5 H) as (Hr & Hb & _).
  split; [exact Hr | exact Hb].
Defined.

(** C4, as the spec words it, fails on green: from yellow ([rcs = 5]) to
    red ([rcs = 30]) the green component drops from 1 to 0. *)
Lemma rcs_green_not_monotone :
  ~ (forall rcs1 rcs2 : Q, (rcs1 <= rcs2)%Q ->
       (Radar.red (Radar.rcs_color rcs1) <= Radar.red (Radar.rcs_color rcs2))%Q /\
       (Radar.green (Radar.rcs_color rcs1) <= Radar.green (Radar.rcs_color rcs2))%Q /\
       (Radar.blue (Radar.rcs_color rcs2) <= Radar.blue (Radar.rcs_color rcs1))%Q).
Proof.
  intros Hall.
  destruct (Hall 5%Q 30%Q ltac:(vm_compute; discriminate)) as (_ & Hg & _).
  vm_compute in Hg. apply Hg. reflexivity.
Qed.


(** ** Errors inside one sensor's routine *)

Local Open Scope relay_scope.

Lemma try_except_print (body : M unit) (line : exn -> string) (st : state) :
  try_except body (fun e => print (line e)) st = (Ok tt, caught body line st).
Proof.
  unfold try_except, caught, print.
  destruct (body st) as [[[] | e] st']; reflexivity.
Qed.

Lemma send_camera_total W self channel sd_token timestamp st :
  send_camera W self channel sd_token timestamp st =
  (Ok tt, caught (send_camera_body W self channel sd_token timestamp)
            (fun e => fstr ["Camera error "; channel; ": "; exn_str e]) st).
Proof. apply try_except_print. Qed.

Lemma send_pointcloud_total W self channel sd_token timestamp is_lidar st :
  send_pointcloud W self channel sd_token timestamp is_lidar st =
  (Ok tt, caught (send_pointcloud_body W self channel sd_token timestamp is_lidar)
            (fun e => fstr ["Pointcloud error "; channel; ": "; exn_str e]) st).
Proof. apply try_except_print. Qed.

Lemma send_annotations_total W self sample timestamp st :
  send_annotations W self sample timestamp st =
  (Ok tt, caught (send_annotations_body W self sample timestamp)
            (fun e => fstr ["Annotations error: "; exn_str e]) st).
Proof. apply try_except_print. Qed.

Lemma send_sensor_total W self timestamp entry st :
  exists st', send_sensor W self timestamp entry st = (Ok tt, st').
Proof.
  destruct entry as [channel sd_token]. unfold send_sensor.
  destruct (channels self !! channel); [| eexists; reflexivity].
  destruct (str_contains "CAMERA" channel).
  { rewrite send_camera_total. eexists; reflexivity. }
  destruct (str_contains "LIDAR" channel).
  { rewrite send_pointcloud_total. eexists; reflexivity. }
  destruct (str_contains "RADAR" channel).
  { rewrite send_pointcloud_total. eexists; reflexivity. }
  eexists; reflexivity.
Qed.

Lemma for_each_app {A : Type} (f : A -> M unit) (l1 l2 : list A) (st st1 : state) :
  for_each l1 f st = (Ok tt, st1) ->
  for_each (l1 ++ l2) f st = for_each l2 f st1.
Proof.
  revert st. induction l1 as [| a l1 IH]; intros st H; simpl in *.
  - unfold ret in H. congruence.
  - unfold bind in *. destruct (f a st) as [[[] | e] st'].
    + apply IH. exact H.
    + discriminate.
Qed.

Lemma sensors_total W self timestamp (entries : list (string * string)) st :
  exists st', for_each entries (send_sensor W self timestamp) st = (Ok tt, st').
Proof.
  revert st. induction entries as [| e l IH]; intros st; simpl.
  - eexists; reflexivity.
  - unfold bind.
    destruct (send_sensor_total W self timestamp e st) as [st1 ->].
    apply IH.
Qed.

Lemma send_frame_result W self sample st :
  fst (send_frame W self sample st) =
  fst (send_transforms W self (Rec.timestamp sample) st).
Proof.
  unfold send_frame, bind.
  destruct (send_transforms W self (Rec.timestamp sample) st) as [[[] | e] st1];
    [| reflexivity].
  destruct (sensors_total W self (Rec.timestamp sample) (Rec.data sample) st1)
    as [st2 ->].
  rewrite send_annotations_total. reflexivity.
Qed.

Lemma frame_step_result W self current_token frame_count st :
  fst (frame_step W self current_token frame_count st) =
  match get (sample (ts self)) current_token with
  | Raise e => Raise e
  | Ok smp =>
      match fst (send_transforms W self (Rec.timestamp smp) st) with
      | Raise e => Raise e
      | Ok _ => Ok (Rec.next smp, frame_count + 1)
      end
  end.
Proof.
  unfold frame_step, bind, lift.
  destruct (get (sample (ts self)) current_token) as [smp | e]; [| reflexivity].
  pose proof (send_frame_result W self smp st) as Hf.
  destruct (send_frame W self smp st) as [[[] | e] st1]; simpl in Hf; rewrite <- Hf;
    [| reflexivity].
  destruct (Z.eqb ((frame_count + 1) mod 10) 0); reflexivity.
Qed.

(** C2 -- each of [_send_camera], [_send_pointcloud] and
    [_send_annotations] returns normally whatever its body does, and when
    the body raises the routine prints its error line; in the loop over
    [sample['data']] every entry before and after a given one is run to
    the end; and one pass of the [while] body raises only if the sample
    lookup or the transform send does, otherwise it hands the loop
    [sample['next']] and the incremented frame count. *)
Theorem sensor_errors_are_caught (W : world) (self : FoxgloveStreamer) :
  (forall channel sd_token timestamp st,
     send_camera W self channel sd_token timestamp st =
     (Ok tt, caught (send_camera_body W self channel sd_token timestamp)
               (fun e => fstr ["Camera error "; channel; ": "; exn_str e]) st)) /\
  (forall channel sd_token timestamp is_lidar st,
     send_pointcloud W self channel sd_token timestamp is_lidar st =
     (Ok tt, caught (send_pointcloud_body W self channel sd_token timestamp is_lidar)
               (fun e => fstr ["Pointcloud error "; channel; ": "; exn_str e]) st)) /\
  (forall sample timestamp st,
     send_annotations W self sample timestamp st =
     (Ok tt, caught (send_annotations_body W self sample timestamp)
               (fun e => fstr ["Annotations error: "; exn_str e]) st)) /\
  (forall timestamp before entry after st,
     exists st1 st2 st3,
       for_each before (send_sensor W self timestamp) st = (Ok tt, st1) /\
       send_sensor W self timestamp entry st1 = (Ok tt, st2) /\
       for_each after (send_sensor W self timestamp) st2 = (Ok tt, st3) /\
       for_each (before ++ entry :: after) (send_sensor W self timestamp) st
       = (Ok tt, st3)) /\
  (forall current_token frame_count st,
     fst (frame_step W self current_token frame_count st) =
     match get (sample (ts self)) current_token with
     | Raise e => Raise e
     | Ok sample =>
         match fst (send_transforms W self (Rec.timestamp sample) st) with
         | Raise e => Raise e
         | Ok _ => Ok (Rec.next sample, frame_count + 1)
         end
     end).
Proof.
  split; [intros; apply send_camera_total |].
  split; [intros; apply send_pointcloud_total |].
  split; [intros; apply send_annotations_total |].
  split.
  - intros timestamp before entry after st.
    destruct (sensors_total W self timestamp before st) as [st1 H1].
    destruct (send_sensor_total W self timestamp entry st1) as [st2 H2].
    destruct (sensors_total W self timestamp after st2) as [st3 H3].
    exists st1, st2, st3. repeat split; try assumption.
    rewrite (for_each_app _ _ _ _ _ H1). simpl. unfold bind.
    rewrite H2. exact H3.
  - intros current_token frame_count st. apply frame_step_result.
Qed.

(** ** The walk over the sample chains *)

Lemma frame_step_next W self tok frame_count st smp r st' :
  sample (ts self) !! tok = Some smp ->
  frame_step W self tok frame_count st = (Ok r, st') ->
  r = (Rec.next smp, frame_count + 1).
Proof.
  intros Hs Hf.
  pose proof (frame_step_result W self tok frame_count st) as Hr.
  rewrite Hf in Hr. unfold get in Hr. rewrite Hs in Hr. simpl in Hr.
  destruct (fst (send_transforms W self (Rec.timestamp smp) st)); congruence.
Qed.

Lemma sample_loop_chain W self tok toks :
  chain self tok toks ->
  (forall c, running_at W c = true) ->
  forall fuel frame_count st,
    (length toks < fuel)%nat ->
    sample_loop W self fuel tok frame_count st
    = Some (run_frames W self toks frame_count st).
Proof.
  intros Hc Hrun. induction Hc as [tok Hf | tok smp toks Ht Hs Hc IH];
    intros fuel frame_count st Hfuel.
  - destruct fuel as [| fuel]; [simpl in Hfuel; lia |].
    simpl. rewrite Hf. reflexivity.
  - destruct fuel as [| fuel]; [simpl in Hfuel; lia |].
    simpl in *. rewrite Ht, Hrun. simpl. unfold bind.
    destruct (frame_step W self tok frame_count st) as [[r | e] st'] eqn:Hstep;
      [| reflexivity].
    rewrite (frame_step_next _ _ _ _ _ _ _ _ Hs Hstep). simpl.
    apply IH. lia.
Qed.

Lemma scene_loop_chains W self fuel :
  (forall c, running_at W c = true) ->
  forall scenes chains,
    Forall2 (fun sc toks => chain self (Rec.first_sample_token sc) toks) scenes chains ->
    Forall (fun toks => (length toks < fuel)%nat) chains ->
    forall scene_idx st,
      scene_loop W self fuel scene_idx scenes st
      = Some (run_scenes W self scene_idx chains st).
Proof.
  intros Hrun scenes chains H2.
  induction H2 as [| sc toks scenes chains Hc H2 IH]; intros Hfuel scene_idx st.
  - reflexivity.
  - apply Forall_cons in Hfuel as [Hlen Hfuel]. simpl.
    rewrite (sample_loop_chain W self _ _ Hc Hrun) by exact Hlen.
    unfold bind at 1. unfold print at 1. unfold bind at 1.
    destruct (run_frames W self toks 0 _) as [[[] | e] st2]; [| reflexivity].
    rewrite Hrun. simpl. apply IH. exact Hfuel.
Qed.

Lemma chain_functional self tok l1 :
  chain self tok l1 -> forall l2, chain self tok l2 -> l1 = l2.
Proof.
  induction 1 as [tok Hf | tok smp toks Ht Hs Hc IH]; intros l2 H2.
  - inversion H2; subst; [reflexivity | congruence].
  - inversion H2 as [? Hf | ? smp' toks' Ht' Hs' Hc']; subst; [congruence |].
    rewrite Hs in Hs'. injection Hs' as <-.
    f_equal. apply IH. exact Hc'.
Qed.

Lemma chain_from_member self tok l :
  chain self tok l ->
  forall t, t ∈ l ->
    exists l', chain self t (t :: l') /\ (length (t :: l') <= length l)%nat.
Proof.
  induction 1 as [tok Hf | tok smp toks Ht Hs Hc IH]; intros t Hin.
  - apply elem_of_nil in Hin. destruct Hin.
  - apply elem_of_cons in Hin as [-> | Hin].
    + exists toks. split; [econstructor; eassumption | reflexivity].
    + destruct (IH t Hin) as (l' & Hl' & Hlen).
      exists l'. split; [exact Hl' | simpl in *; lia].
Qed.

Lemma chain_NoDup self tok l : chain self tok l -> NoDup l.
Proof.
  induction 1 as [tok Hf | tok smp toks Ht Hs Hc IH].
  - constructor.
  - constructor; [| exact IH].
    intros Hin.
    destruct (chain_from_member self _ _ Hc tok Hin) as (l' & Hl' & Hlen).
    assert (Hfull : chain self tok (tok :: toks)) by (econstructor; eassumption).
    pose proof (chain_functional self _ _ Hl' _ Hfull) as Heq.
    injection Heq as ->. simpl in Hlen. lia.
Qed.

(** C1 -- when [self.running] stays set and every scene's
    [first_sample_token] heads a chain of [next] links that ends in an
    empty token, [_stream_data] takes the scenes in table order and runs
    the loop body once for each token of the scene's chain, in chain
    order, then prints its last line; no token occurs twice in a chain,
    and the loop needs no more turns than the chain is long. *)
Theorem stream_walks_chains W self (chains : list (list string)) fuel st :
  Forall2 (fun sc toks => chain self (Rec.first_sample_token sc) toks)
          (scene (ts self)) chains ->
  (forall c, running_at W c = true) ->
  Forall (fun toks => (length toks < fuel)%nat) chains ->
  stream_data W self fuel st
  = Some ((run_scenes W self 0 chains ;; print "Streaming complete.") st) /\
  Forall (fun toks => NoDup toks) chains.
Proof.
  intros H2 Hrun Hfuel. split.
  - unfold stream_data.
    rewrite (scene_loop_chains W self fuel Hrun _ _ H2 Hfuel).
    unfold bind.
    destruct (run_scenes W self 0 chains st) as [[[] | e] st']; reflexivity.
  - clear Hfuel. induction H2 as [| sc toks scenes chains Hc H2 IH];
      constructor; [eapply chain_NoDup; exact Hc | exact IH].
Qed.

Lemma demo_chain_s1 : chain Demo.streamer "s1" ["s1"; "s2"].
Proof.
  eapply chain_next; [reflexivity | vm_compute; reflexivity |].
  eapply chain_next; [reflexivity | vm_compute; reflexivity |].
  apply chain_end. reflexivity.
Defined.

Lemma demo_chain_s3 : chain Demo.streamer "s3" ["s3"].
Proof.
  eapply chain_next; [reflexivity | vm_compute; reflexivity |].
  apply chain_end. reflexivity.
Defined.

Lemma stream_walks_chains_witness :
  stream_data Demo.world0 Demo.streamer 3 Demo.start
  = Some ((run_scenes Demo.world0 Demo.streamer 0 [["s1"; "s2"]; ["s3"]] ;;
           print "Streaming complete.") Demo.start) /\
  Forall (fun toks => NoDup toks) [["s1"; "s2"]; ["s3"]].
Proof.
  apply (stream_walks_chains Demo.world0 Demo.streamer [["s1"; "s2"]; ["s3"]] 3 Demo.start).
  - constructor; [exact demo_chain_s1 |].
    constructor; [exact demo_chain_s3 | constructor].
  - intros c. reflexivity.
  - repeat constructor.
Defined.

(** ** Cancellation *)

Lemma sample_loop_stopped W self fuel tok frame_count st :
  running_at W (clock st) = false ->
  sample_loop W self (S fuel) tok frame_count st = Some (Ok tt, st).
Proof.
  intros H. simpl. rewrite H, andb_false_r. reflexivity.
Qed.

Lemma scene_loop_break W self fuel scene_idx sc rest st st2 :
  sample_loop W self fuel (Rec.first_sample_token sc) 0
    (emit (Print (fstr ["Streaming scene "; str_int (scene_idx + 1); "/";
                        str_int (Z.of_nat (length (scene (ts self))))])) st)
  = Some (Ok tt, st2) ->
  running_at W (clock st2) = false ->
  scene_loop W self fuel scene_idx (sc :: rest) st = Some (Ok tt, st2).
Proof.
  intros Hloop Hstop. simpl. rewrite Hloop, Hstop. reflexivity.
Qed.

Lemma frame_step_ignores_running (r : nat -> bool) W self tok frame_count st :
  frame_step (set_running r W) self tok frame_count st
  = frame_step W self tok frame_count st.
Proof. reflexivity. Qed.

(** C8 -- [self.running] is read at the head of the [while] loop and
    right after it, nowhere else: with the flag down the [while] loop
    returns without touching the state, whatever token is current; a
    scene whose sample loop has ended with the flag down is the last one
    visited; from a state with the flag down [_stream_data] only prints
    the scene header and its closing line; and one pass of the loop body
    is the same under every history of the flag. *)
Theorem running_checked_between_frames W self :
  (forall fuel tok frame_count st,
     running_at W (clock st) = false ->
     sample_loop W self (S fuel) tok frame_count st = Some (Ok tt, st)) /\
  (forall fuel scene_idx sc rest st st2,
     sample_loop W self fuel (Rec.first_sample_token sc) 0
       (emit (Print (fstr ["Streaming scene "; str_int (scene_idx + 1); "/";
                           str_int (Z.of_nat (length (scene (ts self))))])) st)
     = Some (Ok tt, st2) ->
     running_at W (clock st2) = false ->
     scene_loop W self fuel scene_idx (sc :: rest) st = Some (Ok tt, st2)) /\
  (forall fuel st,
     running_at W (clock st) = false ->
     stream_data W self (S fuel) st
     = Some (Ok tt,
             emit (Print "Streaming complete.")
               (match scene (ts self) with
                | [] => st
                | _ :: _ =>
                    emit (Print (fstr ["Streaming scene "; str_int 1; "/";
                                       str_int (Z.of_nat (length (scene (ts self))))])) st
                end))) /\
  (forall r tok frame_count st,
     frame_step (set_running r W) self tok frame_count st
     = frame_step W self tok frame_count st).
Proof.
  split; [intros; apply sample_loop_stopped; assumption |].
  split; [intros; eapply scene_loop_break; eassumption |].
  split; [| intros; apply frame_step_ignores_running].
  intros fuel st Hstop. unfold stream_data.
  assert (Hgen : forall scenes,
    scene_loop W self (S fuel) 0 scenes st
    = Some (Ok tt,
            match scenes with
            | [] => st
            | _ :: _ =>
                emit (Print (fstr ["Streaming scene "; str_int 1; "/";
                                   str_int (Z.of_nat (length (scene (ts self))))])) st
            end)).
  { intros [| sc rest]; [reflexivity |].
    apply scene_loop_break; [| exact Hstop].
    apply sample_loop_stopped. exact Hstop. }
  rewrite Hgen. reflexivity.
Qed.

Lemma running_checked_between_frames_witness :
  running_at (set_running (fun _ => false) Demo.world0) (clock Demo.start) = false /\
  stream_data (set_running (fun _ => false) Demo.world0) Demo.streamer 1 Demo.start
  = Some (Ok tt, {| clock := 0;
                    trace := [Print "Streaming scene 1/2"; Print "Streaming complete."] |}).
Proof.
  split; [reflexivity |].
  destruct (running_checked_between_frames
              (set_running (fun _ => false) Demo.world0) Demo.streamer)
    as (_ & _ & H & _).
  exact (H 0%nat Demo.start eq_refl).
Defined.

(** ** Annotations *)

(** C10 -- for a sample whose [data] has neither a [LIDAR_LEFT] nor a
    [LIDAR_TOP_FRONT] entry, [_send_annotations] returns at once: the
    trace and the clock are as before, whatever [sample['anns']] holds. *)
Theorem annotations_need_lidar W self (sample : Rec.sample) timestamp st :
  assoc_get "LIDAR_LEFT" (Rec.data sample) = None ->
  assoc_get "LIDAR_TOP_FRONT" (Rec.data sample) = None ->
  send_annotations W self sample timestamp st = (Ok tt, st).
Proof.
  intros Hleft Htop.
  rewrite send_annotations_total. unfold caught, send_annotations_body.
  rewrite Hleft, Htop. reflexivity.
Qed.

Lemma annotations_need_lidar_witness :
  Rec.anns Demo.camera_only = ["a1"] /\
  send_annotations Demo.world0 Demo.streamer Demo.camera_only
    (Rec.timestamp Demo.camera_only) Demo.start
  = (Ok tt, Demo.start).
Proof.
  split; [reflexivity |].
  apply (annotations_need_lidar Demo.world0 Demo.streamer Demo.camera_only
           (Rec.timestamp Demo.camera_only) Demo.start); reflexivity.
Defined.

(** ** Point clouds *)

Lemma trace_emit e st : trace (emit e st) = (trace st ++ [e])%list.
Proof. reflexivity. Qed.

Lemma emitted_same st : emitted st st = [].
Proof. unfold emitted. apply drop_all. Qed.

Lemma emitted_app st st' (new : list event) :
  trace st' = (trace st ++ new)%list -> emitted st st' = new.
Proof. intros H. unfold emitted. rewrite H. apply drop_app_length. Qed.

Lemma collect_Forall2 {A B : Type} (f : A -> result B) (l : list A) (bs : list B) :
  collect f l = Ok bs -> Forall2 (fun a b => f a = Ok b) l bs.
Proof.
  revert bs. induction l as [| a l IH]; intros bs H; simpl in H.
  - injection H as <-. constructor.
  - destruct (f a) as [b | e] eqn:Hfa; [| discriminate].
    destruct (collect f l) as [bs' | e]; [| discriminate].
    injection H as <-. constructor; [exact Hfa | apply IH; reflexivity].
Qed.

Lemma collect_all_ok {A B : Type} (f : A -> result B) (g : A -> B) (l : list A) :
  (forall a, a ∈ l -> f a = Ok (g a)) -> collect f l = Ok (map g l).
Proof.
  induction l as [| a l IH]; intros H; simpl; [reflexivity |].
  rewrite (H a) by (left; reflexivity).
  rewrite IH; [reflexivity |].
  intros a' Ha'. apply H. right. exact Ha'.
Qed.

Lemma getitem_inv pc r i q : getitem pc r i = Ok q -> q = item pc r i.
Proof.
  unfold getitem. destruct (_ && _); [| discriminate]. congruence.
Qed.

Lemma getitem_in_range pc r i :
  (r < shape0 pc)%nat -> (i < shape1 pc)%nat -> getitem pc r i = Ok (item pc r i).
Proof.
  intros Hr Hi. unfold getitem.
  apply Nat.ltb_lt in Hr, Hi. rewrite Hr, Hi. reflexivity.
Qed.

Lemma lidar_sphere_inv pc i s :
  lidar_sphere pc i = Ok s -> s = point_sphere true pc i.
Proof.
  unfold lidar_sphere, point_sphere. intros H.
  destruct (getitem pc 0 i) as [px |] eqn:Hx; [| discriminate].
  destruct (getitem pc 1 i) as [py |] eqn:Hy; [| discriminate].
  destruct (getitem pc 2 i) as [pz |] eqn:Hz; [| discriminate].
  apply getitem_inv in Hx, Hy, Hz. subst. congruence.
Qed.

Lemma radar_sphere_inv pc i s :
  radar_sphere pc i = Ok s -> s = point_sphere false pc i.
Proof.
  unfold radar_sphere, point_sphere. intros H.
  destruct (getitem pc 6 i) as [rcs |] eqn:Hr; [| discriminate].
  destruct (getitem pc 0 i) as [px |] eqn:Hx; [| discriminate].
  destruct (getitem pc 1 i) as [py |] eqn:Hy; [| discriminate].
  destruct (getitem pc 2 i) as [pz |] eqn:Hz; [| discriminate].
  apply getitem_inv in Hr, Hx, Hy, Hz. subst. congruence.
Qed.

Lemma collect_seq_inv (f : nat -> result json) (g : nat -> json) n spheres :
  (forall i s, f i = Ok s -> s = g i) ->
  collect f (seq 0 n) = Ok spheres ->
  length spheres = n /\
  forall i s, spheres !! i = Some s -> s = g i.
Proof.
  intros Hf Hc. apply collect_Forall2 in Hc.
  split.
  - rewrite <- (Forall2_length _ _ _ Hc). apply length_seq.
  - intros i s Hi.
    destruct (Forall2_lookup_r _ _ _ _ _ Hc Hi) as (a & Ha & Hfa).
    apply lookup_seq in Ha as [-> _]. apply Hf. exact Hfa.
Qed.

Lemma pointcloud_spheres_inv W path is_lidar spheres :
  pointcloud_spheres W path is_lidar = Ok spheres ->
  exists pc,
    from_file W is_lidar path = Ok pc /\
    length spheres = Nat.min (shape1 pc) (max_points is_lidar) /\
    forall i s, spheres !! i = Some s -> s = point_sphere is_lidar pc i.
Proof.
  unfold pointcloud_spheres, from_file, max_points.
  destruct is_lidar.
  - destruct (lidar_from_file W path) as [pc | e]; [| discriminate].
    intros H. exists pc. split; [reflexivity |].
    eapply collect_seq_inv; [| exact H].
    intros i s. apply lidar_sphere_inv.
  - destruct (radar_from_file W path) as [pc | e]; [| discriminate].
    intros H. exists pc. split; [reflexivity |].
    eapply collect_seq_inv; [| exact H].
    intros i s. apply radar_sphere_inv.
Qed.

Lemma pointcloud_spheres_ok W path is_lidar pc :
  from_file W is_lidar path = Ok pc ->
  ((if is_lidar then 3 else 7) <= shape0 pc)%nat ->
  pointcloud_spheres W path is_lidar
  = Ok (map (point_sphere is_lidar pc)
          (seq 0 (Nat.min (shape1 pc) (max_points is_lidar)))).
Proof.
  unfold pointcloud_spheres, from_file, max_points.
  destruct is_lidar; intros -> Hrows; apply collect_all_ok; intros i Hi;
    apply elem_of_seq in Hi as [_ Hi];
    assert (Hcol : (i < shape1 pc)%nat) by lia.
  - unfold lidar_sphere, point_sphere.
    rewrite !getitem_in_range by lia. reflexivity.
  - unfold radar_sphere, point_sphere.
    rewrite !getitem_in_range by lia. reflexivity.
Qed.

(** The position of the sphere of column [i], read out of the sphere. *)
Lemma point_sphere_position is_lidar pc i :
  json_get [Key "pose"; Key "position"] (point_sphere is_lidar pc i)
  = Some (JObj [("x", JFloat (item pc 0 i));
                ("y", JFloat (item pc 1 i));
                ("z", JFloat (item pc 2 i))]).
Proof. destruct is_lidar; reflexivity. Qed.

(** C9 -- every message [_send_pointcloud] publishes holds, at
    [entities[0].spheres], exactly [min(N_points, 3000)] spheres for
    lidar and [min(N_points, 800)] for radar, and no cube; the sphere at
    index [i] sits at the coordinates of column [i] of the decoded array
    (rows 0, 1, 2), so the spheres are the first columns of the array,
    in order; an array without points leaves the trace and the clock
    untouched; and an array with points and with the rows the routine
    reads (three for lidar, seven for radar) is published as one message
    on the sensor's channel, unless the send raises. *)
Theorem pointcloud_capped W self channel sd_token timestamp is_lidar st :
  (forall chan log_time msg,
     Send chan log_time msg
       ∈ emitted st (snd (send_pointcloud W self channel sd_token timestamp is_lidar st)) ->
     exists path pc spheres,
       get_sample_data_path (ts self) sd_token = Ok path /\
       (if is_lidar then lidar_from_file W path else radar_from_file W path) = Ok pc /\
       msg = scene_update (stamp timestamp) channel [] spheres [] /\
       json_get [Key "entities"; Index 0%nat; Key "spheres"] msg = Some (JArr spheres) /\
       json_get [Key "entities"; Index 0%nat; Key "cubes"] msg = Some (JArr []) /\
       length spheres
       = Nat.min (shape1 pc) (if is_lidar then 3000%nat else 800%nat) /\
       forall i s,
         spheres !! i = Some s ->
         s = point_sphere is_lidar pc i /\
         json_get [Key "pose"; Key "position"] s
         = Some (JObj [("x", JFloat (item pc 0 i));
                       ("y", JFloat (item pc 1 i));
                       ("z", JFloat (item pc 2 i))])) /\
  (forall path pc,
     get_sample_data_path (ts self) sd_token = Ok path ->
     from_file W is_lidar path = Ok pc ->
     shape1 pc = 0%nat ->
     send_pointcloud W self channel sd_token timestamp is_lidar st = (Ok tt, st)) /\
  (forall path pc chan,
     get_sample_data_path (ts self) sd_token = Ok path ->
     from_file W is_lidar path = Ok pc ->
     ((if is_lidar then 3 else 7) <= shape0 pc)%nat ->
     (0 < shape1 pc)%nat ->
     channels self !! channel = Some chan ->
     send_fault W (clock st) = None ->
     exists spheres,
       length spheres = Nat.min (shape1 pc) (max_points is_lidar) /\
       emitted st (snd (send_pointcloud W self channel sd_token timestamp is_lidar st))
       = [Send chan (timestamp * 1000)
            (scene_update (stamp timestamp) channel [] spheres [])]).
Proof.
  rewrite send_pointcloud_total.
  unfold caught, send_pointcloud_body, bind, lift. simpl.
  split; [| split].
  - intros chan log_time msg.
    destruct (get_sample_data_path (ts self) sd_token) as [path | e].
    2:{ rewrite (emitted_app st _ [Print _]) by reflexivity.
        intros Hin. apply list_elem_of_singleton in Hin. discriminate. }
    destruct (pointcloud_spheres W path is_lidar) as [spheres | e] eqn:Hsp.
    2:{ rewrite (emitted_app st _ [Print _]) by reflexivity.
        intros Hin. apply list_elem_of_singleton in Hin. discriminate. }
    destruct spheres as [| s spheres].
    { unfold ret. simpl. rewrite emitted_same. intros Hin.
      apply elem_of_nil in Hin. destruct Hin. }
    destruct (channel_id self channel) as [c | e].
    2:{ rewrite (emitted_app st _ [Print _]) by reflexivity.
        intros Hin. apply list_elem_of_singleton in Hin. discriminate. }
    unfold send_message.
    destruct (send_fault W (clock st)) as [e |].
    { rewrite (emitted_app st _ [Print _]) by reflexivity.
      intros Hin. apply list_elem_of_singleton in Hin. discriminate. }
    rewrite (emitted_app st _ [Send c (timestamp * 1000) _]) by reflexivity.
    intros Hin. apply list_elem_of_singleton in Hin. injection Hin as -> -> ->.
    destruct (pointcloud_spheres_inv W path is_lidar _ Hsp) as (pc & Hpc & Hlen & Hall).
    exists path, pc, (s :: spheres).
    split; [reflexivity |].
    split; [unfold from_file in Hpc; destruct is_lidar; exact Hpc |].
    split; [reflexivity |]. split; [reflexivity |]. split; [reflexivity |].
    split; [exact Hlen |].
    intros i s' Hs'. rewrite (Hall i s' Hs').
    split; [reflexivity | apply point_sphere_position].
  - intros path pc -> Hpc Hempty.
    destruct (pointcloud_spheres W path is_lidar) as [spheres | e] eqn:Hsp.
    + destruct (pointcloud_spheres_inv W path is_lidar _ Hsp) as (pc' & Hpc' & Hlen & _).
      rewrite Hpc in Hpc'. injection Hpc' as <-.
      rewrite Hempty in Hlen. destruct spheres; [reflexivity | discriminate].
    + exfalso. unfold pointcloud_spheres, from_file in *.
      destruct is_lidar; rewrite Hpc, Hempty in Hsp; discriminate.
  - intros path pc chan -> Hpc Hrows Hcols Hchan Hsend.
    rewrite (pointcloud_spheres_ok W path is_lidar pc Hpc Hrows).
    set (n := Nat.min (shape1 pc) (max_points is_lidar)).
    assert (Hn : (0 < n)%nat) by (unfold n, max_points; destruct is_lidar; lia).
    destruct n as [| n'] eqn:En; [lia |].
    rewrite <- cons_seq. simpl.
    unfold channel_id. rewrite Hchan. unfold send_message. rewrite Hsend.
    eexists. split; [| apply emitted_app; reflexivity].
    simpl. rewrite length_map, length_seq. reflexivity.
Qed.

Lemma pointcloud_capped_witness :
  exists msg spheres,
    emitted Demo.start
      (snd (send_pointcloud Demo.world0 Demo.streamer "LIDAR_LEFT" "lid9"
              1700000000000000 true Demo.start))
    = [Send 2 1700000000000000000 msg] /\
    json_get [Key "entities"; Index 0%nat; Key "spheres"] msg = Some (JArr spheres) /\
    length spheres = 3000%nat.
Proof.
  destruct (pointcloud_capped Demo.world0 Demo.streamer "LIDAR_LEFT" "lid9"
              1700000000000000 true Demo.start) as (Hevery & _ & Hone).
  destruct (Hone "/data/lid9" Demo.many_points 2%nat) as (sent & _ & Hemitted).
  - reflexivity.
  - reflexivity.
  - simpl. lia.
  - simpl. lia.
  - vm_compute. reflexivity.
  - reflexivity.
  - destruct (Hevery 2%nat 1700000000000000000
                (scene_update (stamp 1700000000000000) "LIDAR_LEFT" [] sent []))
      as (path & pc & spheres & Hpath & Hpc & _ & Hspheres & _ & Hlen & _).
    { rewrite Hemitted. left. }
    eexists. exists spheres. split; [exact Hemitted |]. split; [exact Hspheres |].
    vm_compute in Hpath. injection Hpath as <-.
    change (Ok Demo.many_points = Ok pc) in Hpc. injection Hpc as <-. exact Hlen.
Defined.

(** ** The command line *)

Lemma cli_missing_dataroot (o : CLI.os) (a : CLI.args) :
  CLI.path_exists o (CLI.dataroot a) = false ->
  CLI.main o a =
  ([CLI.Print (fstr ["Error: Data directory not found: "; CLI.dataroot a]);
    CLI.Print "";
    CLI.Print "Please specify the correct path using one of:";
    CLI.Print "  1. --dataroot /path/to/man-truckscenes";
    CLI.Print "  2. export TRUCKSCENES_DATAROOT=/path/to/man-truckscenes"],
   CLI.Exit 1).
Proof. intros H. unfold CLI.main. rewrite H. reflexivity. Qed.

Lemma cli_scene_too_large (o : CLI.os) (a : CLI.args) (ds : TruckScenes) (idx : Z) :
  CLI.path_exists o (CLI.dataroot a) = true ->
  CLI.load o (CLI.version a) (CLI.dataroot a) = Ok ds ->
  CLI.foxglove a = false ->
  truthy_opt (CLI.sample a) = false ->
  CLI.scene a = Some idx ->
  Z.of_nat (length (scene ds)) <= idx ->
  CLI.main o a =
  ([CLI.Print (fstr ["Loading TruckScenes "; CLI.version a; " from ";
                     CLI.dataroot a; "..."]);
    CLI.Print (fstr ["Error: Scene index "; str_int idx; " out of range (0-";
                     str_int (Z.of_nat (length (scene ds)) - 1); ")"])],
   CLI.Exit 1).
Proof.
  intros Hpath Hload Hfox Hsample Hscene Hrange.
  unfold CLI.main. rewrite Hpath, Hload, Hfox. simpl.
  unfold CLI.run_visualization. rewrite Hsample, Hscene.
  unfold scene_table.
  destruct (Z.ltb idx (Z.of_nat (length (scene ds)))) eqn:Hlt; [| reflexivity].
  apply Z.ltb_lt in Hlt. lia.
Qed.

(** C7, as the code has it -- with a data root that does not exist,
    [main] prints its error lines and exits with code 1 before anything
    is loaded; in visualization mode (no [--foxglove]) without a sample
    token, a scene index at or beyond the number of loaded scenes makes
    it print the out-of-range line and exit with code 1; in both cases
    nothing is rendered or streamed. *)
Theorem cli_exits_on_bad_input (o : CLI.os) (a : CLI.args) :
  (CLI.path_exists o (CLI.dataroot a) = false ->
   snd (CLI.main o a) = CLI.Exit 1 /\
   existsb CLI.shows (fst (CLI.main o a)) = false /\
   fst (CLI.main o a) <> []) /\
  (forall ds idx,
     CLI.path_exists o (CLI.dataroot a) = true ->
     CLI.load o (CLI.version a) (CLI.dataroot a) = Ok ds ->
     CLI.foxglove a = false ->
     truthy_opt (CLI.sample a) = false ->
     CLI.scene a = Some idx ->
     Z.of_nat (length (scene ds)) <= idx ->
     snd (CLI.main o a) = CLI.Exit 1 /\
     existsb CLI.shows (fst (CLI.main o a)) = false /\
     fst (CLI.main o a) =
     [CLI.Print (fstr ["Loading TruckScenes "; CLI.version a; " from ";
                       CLI.dataroot a; "..."]);
      CLI.Print (fstr ["Error: Scene index "; str_int idx; " out of range (0-";
                       str_int (Z.of_nat (length (scene ds)) - 1); ")"])]).
Proof.
  split.
  - intros H. rewrite (cli_missing_dataroot o a H). simpl.
    repeat split. discriminate.
  - intros ds idx Hpath Hload Hfox Hsample Hscene Hrange.
    rewrite (cli_scene_too_large o a ds idx Hpath Hload Hfox Hsample Hscene Hrange).
    simpl. repeat split.
Qed.

Lemma cli_exits_on_bad_input_witness :
  snd (CLI.main DemoCLI.machine DemoCLI.elsewhere) = CLI.Exit 1 /\
  CLI.main DemoCLI.machine (DemoCLI.with_scene 2) =
  ([CLI.Print "Loading TruckScenes v1.1-mini from /data/man-truckscenes...";
    CLI.Print "Error: Scene index 2 out of range (0-1)"],
   CLI.Exit 1).
Proof.
  split.
  - destruct (cli_exits_on_bad_input DemoCLI.machine DemoCLI.elsewhere) as [H _].
    destruct (H eq_refl) as [Hexit _]. exact Hexit.
  - destruct (cli_exits_on_bad_input DemoCLI.machine (DemoCLI.with_scene 2)) as [_ H].
    destruct (H Demo.dataset 2 eq_refl eq_refl eq_refl eq_refl eq_refl ltac:(simpl; lia))
      as (Hexit & _ & Hacts).
    rewrite (surjective_pairing (CLI.main _ _)), Hexit, Hacts. reflexivity.
Defined.

(** C7, as the spec words it, fails: with [--foxglove] the scene index is
    never looked at, so an index far out of range still streams and the
    process returns normally. *)
Lemma cli_streams_despite_scene_index :
  CLI.path_exists DemoCLI.machine (CLI.dataroot (DemoCLI.streaming_with_scene 99)) = true /\
  CLI.scene (DemoCLI.streaming_with_scene 99) = Some 99 /\
  Z.of_nat (length (scene Demo.dataset)) <= 99 /\
  CLI.main DemoCLI.machine (DemoCLI.streaming_with_scene 99) =
  ([CLI.Print "Loading TruckScenes v1.1-mini from /data/man-truckscenes...";
    CLI.Print "Starting Foxglove WebSocket server on port 8765...";
    CLI.Print "Connect Foxglove Studio to ws://localhost:8765";
    CLI.RunStreamer 8765],
   CLI.Returned) /\
  snd (CLI.main DemoCLI.machine (DemoCLI.streaming_with_scene 99)) <> CLI.Exit 1 /\
  existsb CLI.shows (fst (CLI.main DemoCLI.machine (DemoCLI.streaming_with_scene 99))) = true.
Proof.
  repeat split; try reflexivity.
  - simpl. lia.
  - discriminate.
Qed.

(** A negative index passes the guard [args.scene < len(ts.scene)] and
    indexes the scene list from its end. *)
Example cli_negative_scene_index :
  CLI.main DemoCLI.machine (DemoCLI.with_scene (-1)) =
  ([CLI.Print "Loading TruckScenes v1.1-mini from /data/man-truckscenes...";
    CLI.Print "Rendering scene -1: scene-b";
    CLI.RenderScene "scene-b"],
   CLI.Returned).
Proof. reflexivity. Qed.

(** ** Annotations in the ego frame *)

Lemma get_inv {R : Type} (table : gmap string R) token r :
  get table token = Ok r -> table !! token = Some r.
Proof. unfold get. destruct (table !! token); congruence. Qed.

Lemma annotation_box_inv self ego ann_token box :
  annotation_box self ego ann_token = Ok box ->
  exists ann inst cat inv,
    sample_annotation (ts self) !! ann_token = Some ann /\
    instance (ts self) !! Rec.instance_token ann = Some inst /\
    category (ts self) !! Rec.category_token inst = Some cat /\
    Quaternion.inverse (Rec.ego_rotation ego) = Ok inv /\
    let pos := Quaternion.rotate inv
                 (vec3_sub (Rec.translation ann) (Rec.ego_translation ego)) in
    box = (cube pos (Quaternion.mul inv (Rec.rotation ann)) (Rec.size ann)
             (category_color (Rec.name cat)),
           label pos (Rec.size ann) (Rec.name cat)).
Proof.
  unfold annotation_box. intros H.
  destruct (get (sample_annotation (ts self)) ann_token) as [ann |] eqn:Ha; [| discriminate].
  destruct (get (instance (ts self)) (Rec.instance_token ann)) as [inst |] eqn:Hi;
    [| discriminate].
  destruct (get (category (ts self)) (Rec.category_token inst)) as [cat |] eqn:Hc;
    [| discriminate].
  destruct (Quaternion.inverse (Rec.ego_rotation ego)) as [inv |] eqn:Hq; [| discriminate].
  apply get_inv in Ha, Hi, Hc. injection H as <-.
  exists ann, inst, cat, inv. repeat split; assumption.
Qed.

(** [q.inverse * q] is the unit quaternion, component by component. *)
Lemma inverse_mul_l (q inv : Quaternion.t) :
  Quaternion.inverse q = Ok inv ->
  let p := Quaternion.mul inv q in
  (Quaternion.w p == 1 /\ Quaternion.x p == 0 /\
   Quaternion.y p == 0 /\ Quaternion.z p == 0)%Q.
Proof.
  unfold Quaternion.inverse.
  destruct (Qltb 0 (Quaternion.sum_of_squares q)) eqn:Hss; [| discriminate].
  apply Qltb_true in Hss. intros H. injection H as <-.
  assert (Hnz : ~ (Quaternion.sum_of_squares q == 0)%Q) by lra.
  unfold Quaternion.sum_of_squares in *.
  destruct q as [a b c d]. simpl in *.
  repeat split; field; exact Hnz.
Qed.

Lemma sum_of_squares_inverse (q inv : Quaternion.t) :
  Quaternion.inverse q = Ok inv ->
  (0 < Quaternion.sum_of_squares q /\
   Quaternion.sum_of_squares inv == / Quaternion.sum_of_squares q)%Q.
Proof.
  unfold Quaternion.inverse.
  destruct (Qltb 0 (Quaternion.sum_of_squares q)) eqn:Hss; [| discriminate].
  apply Qltb_true in Hss. intros H. injection H as <-.
  split; [exact Hss |].
  assert (Hnz : ~ (Quaternion.sum_of_squares q == 0)%Q) by lra.
  unfold Quaternion.sum_of_squares in *.
  destruct q as [a b c d]. simpl in *.
  field. exact Hnz.
Qed.

(** Rotating by [q.inverse] and then by [q] gives the vector back: the
    inverse ego rotation takes a global offset into the ego frame. *)
Lemma rotate_inverse (q inv : Quaternion.t) (v : vec3) :
  Quaternion.inverse q = Ok inv ->
  let r := Quaternion.rotate q (Quaternion.rotate inv v) in
  (v0 r == v0 v /\ v1 r == v1 v /\ v2 r == v2 v)%Q.
Proof.
  intros Hinv.
  destruct (sum_of_squares_inverse q inv Hinv) as [Hpos Hss].
  assert (Hpos' : (0 < Quaternion.sum_of_squares inv)%Q).
  { rewrite Hss. apply Qinv_lt_0_compat. exact Hpos. }
  unfold Quaternion.rotate.
  apply Qltb_true in Hpos, Hpos'. rewrite Hpos, Hpos'.
  apply Qltb_true in Hpos, Hpos'.
  revert Hinv. unfold Quaternion.inverse.
  destruct (Qltb 0 (Quaternion.sum_of_squares q)); [| discriminate].
  intros H. injection H as <-.
  assert (Hnz : ~ (Quaternion.sum_of_squares q == 0)%Q) by lra.
  clear Hss Hpos'.
  unfold Quaternion.sum_of_squares in *.
  destruct q as [a b c d], v as [vx vy vz]. simpl in *.
  repeat split; field; repeat split; try exact Hnz.
Qed.

(** The demo box: the ego vehicle sits at (1, 2, 0) turned half a turn
    about the vertical axis, the annotation at (3, 2, 0); in the ego
    frame the box lies two metres behind. *)
Example demo_box_position :
  match Quaternion.inverse (Quaternion.mk 0 0 0 2) with
  | Ok inv =>
      let pos := Quaternion.rotate inv (vec3_sub (Vec3 3 2 0) (Vec3 1 2 0)) in
      (v0 pos == -2 /\ v1 pos == 0 /\ v2 pos == 0)%Q
  | Raise _ => False
  end.
Proof. vm_compute. repeat split. Qed.

(** [q.inverse.rotate(d)] is the transposed rotation matrix of [q]
    applied to [d]. *)
Lemma rotate_by_inverse (q inv : Quaternion.t) (d : vec3) :
  Quaternion.inverse q = Ok inv ->
  (v0 (Quaternion.rotate inv d) == v0 (EgoFrame.position q d) /\
   v1 (Quaternion.rotate inv d) == v1 (EgoFrame.position q d) /\
   v2 (Quaternion.rotate inv d) == v2 (EgoFrame.position q d))%Q.
Proof.
  intros Hinv.
  destruct (sum_of_squares_inverse q inv Hinv) as [Hpos Hss].
  assert (Hpos' : (0 < Quaternion.sum_of_squares inv)%Q).
  { rewrite Hss. apply Qinv_lt_0_compat. exact Hpos. }
  unfold Quaternion.rotate.
  apply Qltb_true in Hpos'. rewrite Hpos'. clear Hpos' Hss.
  revert Hinv. unfold Quaternion.inverse.
  destruct (Qltb 0 (Quaternion.sum_of_squares q)); [| discriminate].
  intros H. injection H as <-.
  assert (Hnz : ~ (Quaternion.sum_of_squares q == 0)%Q) by lra.
  unfold EgoFrame.position, Quaternion.sum_of_squares in *.
  destruct q as [a b c e], d as [dx dy dz]. simpl in *.
  repeat split; field; repeat split; try exact Hnz.
Qed.

(** [q.inverse * r] is the conjugate of [q] times [r] over the squared
    norm of [q]. *)
Lemma mul_by_inverse (q inv r : Quaternion.t) :
  Quaternion.inverse q = Ok inv ->
  (Quaternion.w (Quaternion.mul inv r) == Quaternion.w (EgoFrame.orientation q r) /\
   Quaternion.x (Quaternion.mul inv r) == Quaternion.x (EgoFrame.orientation q r) /\
   Quaternion.y (Quaternion.mul inv r) == Quaternion.y (EgoFrame.orientation q r) /\
   Quaternion.z (Quaternion.mul inv r) == Quaternion.z (EgoFrame.orientation q r))%Q.
Proof.
  unfold Quaternion.inverse.
  destruct (Qltb 0 (Quaternion.sum_of_squares q)) eqn:Hss; [| discriminate].
  apply Qltb_true in Hss. intros H. injection H as <-.
  assert (Hnz : ~ (Quaternion.sum_of_squares q == 0)%Q) by lra.
  unfold EgoFrame.orientation, Quaternion.sum_of_squares in *.
  destruct q as [a b c e], r as [rw rx ry rz]. simpl in *.
  repeat split; field; exact Hnz.
Qed.

(** The demo box once more, by the coordinate formulas. *)
Example demo_box_in_ego_frame :
  let pos := EgoFrame.position (Quaternion.mk 0 0 0 2) (Vec3 (3 - 1) (2 - 2) (0 - 0)) in
  (v0 pos == -2 /\ v1 pos == 0 /\ v2 pos == 0)%Q.
Proof. vm_compute. repeat split. Qed.

(** A quarter turn to the left about the vertical axis: what lies one
    metre ahead in the global frame lies one metre to the right of the
    turned vehicle. *)
Example quarter_turn_in_ego_frame :
  let pos := EgoFrame.position (Quaternion.mk 1 0 0 1) (Vec3 1 0 0) in
  (v0 pos == 0 /\ v1 pos == -1 /\ v2 pos == 0)%Q.
Proof. vm_compute. repeat split. Qed.

Lemma get_found {R : Type} (table : gmap string R) token r :
  table !! token = Some r -> get table token = Ok r.
Proof. unfold get. intros ->. reflexivity. Qed.

Lemma collect_total {A B : Type} (f : A -> result B) (l : list A) :
  (forall a, a ∈ l -> exists b, f a = Ok b) ->
  exists bs, collect f l = Ok bs /\ length bs = length l.
Proof.
  induction l as [| a l IH]; intros H; simpl.
  - exists []. split; reflexivity.
  - destruct (H a ltac:(left)) as [b ->].
    destruct IH as (bs & -> & Hlen); [intros a' Ha'; apply H; right; exact Ha' |].
    exists (b :: bs). split; [reflexivity | simpl; rewrite Hlen; reflexivity].
Qed.

Lemma annotation_box_found self ego ann_token ann inst cat :
  sample_annotation (ts self) !! ann_token = Some ann ->
  instance (ts self) !! Rec.instance_token ann = Some inst ->
  category (ts self) !! Rec.category_token inst = Some cat ->
  (0 < Quaternion.sum_of_squares (Rec.ego_rotation ego))%Q ->
  exists box, annotation_box self ego ann_token = Ok box.
Proof.
  intros Ha Hi Hc Hss. unfold annotation_box.
  rewrite (get_found _ _ _ Ha), (get_found _ _ _ Hi), (get_found _ _ _ Hc).
  unfold Quaternion.inverse. apply Qltb_true in Hss. rewrite Hss.
  eexists. reflexivity.
Qed.

(** C5 -- every message [_send_annotations] publishes goes to the
    annotation channel and holds, at [entities[0].cubes], one cube per
    entry of [sample['anns']], in order.  With [ego] the ego pose of the
    sample's lidar record, whose rotation [q] is not zero, the cube's
    [pose.position] is the inverse rotation of [q] (its transposed
    rotation matrix) applied to the annotation's translation minus the
    ego translation, and its [pose.orientation] is the inverse of [q]
    times the annotation's rotation, coordinate by coordinate in exact
    arithmetic.  And such a message is published: when the lidar record,
    its ego pose and the records of every annotation are in the tables,
    the ego rotation is not zero, there is an annotation and the send
    does not raise, the routine sends exactly one message. *)
Theorem annotations_in_ego_frame W self (sample : Rec.sample) timestamp st :
  (forall chan log_time msg,
     Send chan log_time msg
       ∈ emitted st (snd (send_annotations W self sample timestamp st)) ->
     exists tok sd ego cubes,
       py_or (assoc_get "LIDAR_LEFT" (Rec.data sample))
             (assoc_get "LIDAR_TOP_FRONT" (Rec.data sample)) = Some tok /\
       sample_data (ts self) !! tok = Some sd /\
       ego_pose (ts self) !! Rec.ego_pose_token sd = Some ego /\
       chan = annotations_channel self /\
       log_time = timestamp * 1000 /\
       json_get [Key "entities"; Index 0%nat; Key "cubes"] msg = Some (JArr cubes) /\
       cubes <> [] /\
       Forall2
         (fun ann_token cube =>
            exists ann px py pz ox oy oz ow,
              sample_annotation (ts self) !! ann_token = Some ann /\
              json_get [Key "pose"; Key "position"] cube
              = Some (JObj [("x", JFloat px); ("y", JFloat py); ("z", JFloat pz)]) /\
              json_get [Key "pose"; Key "orientation"] cube
              = Some (JObj [("x", JFloat ox); ("y", JFloat oy);
                            ("z", JFloat oz); ("w", JFloat ow)]) /\
              let q := Rec.ego_rotation ego in
              let d := Vec3 (v0 (Rec.translation ann) - v0 (Rec.ego_translation ego))
                            (v1 (Rec.translation ann) - v1 (Rec.ego_translation ego))
                            (v2 (Rec.translation ann) - v2 (Rec.ego_translation ego)) in
              let pos := EgoFrame.position q d in
              let rot := EgoFrame.orientation q (Rec.rotation ann) in
              (0 < Quaternion.w q * Quaternion.w q + Quaternion.x q * Quaternion.x q
                   + Quaternion.y q * Quaternion.y q + Quaternion.z q * Quaternion.z q /\
               px == v0 pos /\ py == v1 pos /\ pz == v2 pos /\
               ox == Quaternion.x rot /\ oy == Quaternion.y rot /\
               oz == Quaternion.z rot /\ ow == Quaternion.w rot)%Q)
         (Rec.anns sample) cubes) /\
  (forall tok sd ego,
     py_or (assoc_get "LIDAR_LEFT" (Rec.data sample))
           (assoc_get "LIDAR_TOP_FRONT" (Rec.data sample)) = Some tok ->
     truthy tok = true ->
     sample_data (ts self) !! tok = Some sd ->
     ego_pose (ts self) !! Rec.ego_pose_token sd = Some ego ->
     (0 < Quaternion.sum_of_squares (Rec.ego_rotation ego))%Q ->
     Rec.anns sample <> [] ->
     (forall ann_token,
        ann_token ∈ Rec.anns sample ->
        exists ann inst cat,
          sample_annotation (ts self) !! ann_token = Some ann /\
          instance (ts self) !! Rec.instance_token ann = Some inst /\
          category (ts self) !! Rec.category_token inst = Some cat) ->
     send_fault W (clock st) = None ->
     exists msg,
       emitted st (snd (send_annotations W self sample timestamp st))
       = [Send (annotations_channel self) (timestamp * 1000) msg]).
Proof.
  rewrite send_annotations_total.
  unfold caught, send_annotations_body, bind, lift.
  split.
  - intros chan log_time msg.
    destruct (py_or _ _) as [tok |] eqn:Htok.
    2:{ unfold ret. simpl. rewrite emitted_same. intros Hin.
        apply elem_of_nil in Hin. destruct Hin. }
    destruct (truthy tok).
    2:{ unfold ret. simpl. rewrite emitted_same. intros Hin.
        apply elem_of_nil in Hin. destruct Hin. }
    destruct (get (sample_data (ts self)) tok) as [sd | e] eqn:Hsd.
    2:{ rewrite (emitted_app st _ [Print _]) by reflexivity.
        intros Hin. apply list_elem_of_singleton in Hin. discriminate. }
    destruct (get (ego_pose (ts self)) (Rec.ego_pose_token sd)) as [ego | e] eqn:Hego.
    2:{ rewrite (emitted_app st _ [Print _]) by reflexivity.
        intros Hin. apply list_elem_of_singleton in Hin. discriminate. }
    destruct (collect (annotation_box self ego) (Rec.anns sample)) as [boxes | e] eqn:Hboxes.
    2:{ rewrite (emitted_app st _ [Print _]) by reflexivity.
        intros Hin. apply list_elem_of_singleton in Hin. discriminate. }
    destruct (map fst boxes) as [| c cubes] eqn:Hcubes.
    { unfold ret. simpl. rewrite emitted_same. intros Hin.
      apply elem_of_nil in Hin. destruct Hin. }
    unfold send_message.
    destruct (send_fault W (clock st)) as [e |].
    { rewrite (emitted_app st _ [Print _]) by reflexivity.
      intros Hin. apply list_elem_of_singleton in Hin. discriminate. }
    rewrite (emitted_app st _ [Send _ _ _]) by reflexivity.
    intros Hin. apply list_elem_of_singleton in Hin. injection Hin as -> -> ->.
    apply get_inv in Hsd, Hego.
    exists tok, sd, ego, (c :: cubes).
    split; [reflexivity |]. split; [exact Hsd |]. split; [exact Hego |].
    split; [reflexivity |]. split; [reflexivity |]. split; [reflexivity |].
    split; [discriminate |].
    rewrite <- Hcubes. clear Hcubes.
    apply collect_Forall2 in Hboxes.
    induction Hboxes as [| ann_token box anns boxes Hbox _ IH]; [constructor |].
    simpl. constructor; [| exact IH].
    destruct (annotation_box_inv self ego ann_token box Hbox)
      as (ann & inst & cat & inv & Ha & _ & _ & Hq & ->).
    destruct (rotate_by_inverse (Rec.ego_rotation ego) inv
                (vec3_sub (Rec.translation ann) (Rec.ego_translation ego)) Hq)
      as (Hx & Hy & Hz).
    destruct (mul_by_inverse (Rec.ego_rotation ego) inv (Rec.rotation ann) Hq)
      as (Hrw & Hrx & Hry & Hrz).
    destruct (sum_of_squares_inverse (Rec.ego_rotation ego) inv Hq) as [Hpos _].
    exists ann. do 7 eexists.
    split; [exact Ha |]. split; [reflexivity |]. split; [reflexivity |].
    cbv zeta.
    split; [exact Hpos |].
    split; [exact Hx |]. split; [exact Hy |]. split; [exact Hz |].
    split; [exact Hrx |]. split; [exact Hry |]. split; [exact Hrz | exact Hrw].
  - intros tok sd ego -> -> Hsd Hego Hss Hanns Hall Hsend.
    rewrite (get_found _ _ _ Hsd), (get_found _ _ _ Hego).
    destruct (collect_total (annotation_box self ego) (Rec.anns sample))
      as (boxes & -> & Hlen).
    { intros ann_token Hin.
      destruct (Hall ann_token Hin) as (ann & inst & cat & Ha & Hi & Hc).
      eapply annotation_box_found; eassumption. }
    destruct boxes as [| box boxes].
    { destruct (Rec.anns sample); [congruence | discriminate]. }
    simpl. unfold send_message. rewrite Hsend.
    eexists. apply emitted_app. reflexivity.
Qed.

Lemma annotations_in_ego_frame_witness :
  exists msg cubes,
    emitted Demo.start
      (snd (send_annotations Demo.world0 Demo.streamer Demo.sample1
              1700000000000000 Demo.start))
    = [Send 5 1700000000000000000 msg] /\
    json_get [Key "entities"; Index 0%nat; Key "cubes"] msg = Some (JArr cubes) /\
    length cubes = 1%nat.
Proof.
  destruct (annotations_in_ego_frame Demo.world0 Demo.streamer Demo.sample1
              1700000000000000 Demo.start) as [Hevery Hone].
  assert (Hsd : exists sd, sample_data (ts Demo.streamer) !! "lid1" = Some sd).
  { vm_compute. eexists. reflexivity. }
  destruct Hsd as [sd Hsd].
  assert (Hego : exists ego,
            ego_pose (ts Demo.streamer) !! Rec.ego_pose_token sd = Some ego /\
            (0 < Quaternion.sum_of_squares (Rec.ego_rotation ego))%Q).
  { vm_compute in Hsd. injection Hsd as <-. vm_compute. eexists. split; reflexivity. }
  destruct Hego as (ego & Hego & Hss).
  destruct (Hone "lid1" sd ego) as [msg Hmsg].
  - reflexivity.
  - reflexivity.
  - exact Hsd.
  - exact Hego.
  - exact Hss.
  - discriminate.
  - intros ann_token Hin. apply list_elem_of_singleton in Hin. subst ann_token.
    vm_compute. do 3 eexists. split; [reflexivity |]. split; reflexivity.
  - reflexivity.
  - destruct (Hevery 5%nat 1700000000000000000 msg)
      as (tok & sd' & ego' & cubes & _ & _ & _ & _ & _ & Hcubes & _ & Hall).
    { rewrite Hmsg. left. }
    exists msg, cubes. split; [exact Hmsg |]. split; [exact Hcubes |].
    apply Forall2_length in Hall. simpl in Hall. congruence.
Defined.

(** ** Base64 loses nothing *)

Lemma index_char_table :
  forallb
    (fun k =>
       let n := N.of_nat k in
       match Base64.index (Base64.char n) with
       | Some m => N.eqb m n
       | None => false
       end && negb (Base64.is_pad (Base64.char n)))
    (seq 0 64) = true.
Proof. vm_compute. reflexivity. Qed.

Lemma index_char (n : N) :
  (n < 64)%N ->
  Base64.index (Base64.char n) = Some n /\ Base64.is_pad (Base64.char n) = false.
Proof.
  intros Hn.
  pose proof (proj1 (forallb_forall _ _) index_char_table (N.to_nat n)) as H.
  assert (Hin : In (N.to_nat n) (seq 0 64)) by (apply in_seq; lia).
  specialize (H Hin). cbv beta zeta in H. rewrite N2Nat.id in H.
  apply andb_true_iff in H as [H1 H2].
  destruct (Base64.index (Base64.char n)) as [m |]; [| discriminate].
  apply N.eqb_eq in H1. apply negb_true_iff in H2. subst. split; [reflexivity | exact H2].
Qed.

Lemma index_sextet (n k : N) :
  Base64.index (Base64.sextet n k) = Some ((n / 2 ^ k) mod 64)%N /\
  Base64.is_pad (Base64.sextet n k) = false.
Proof. apply index_char. apply N.mod_lt. discriminate. Qed.

Ltac div_mod_lia := zify; Z.to_euclidean_division_equations; lia.

Lemma bytes_of_group (b0 b1 b2 : byte) (count : nat) :
  Base64.bytes_of (Byte.to_N b0 * 65536 + Byte.to_N b1 * 256 + Byte.to_N b2) count
  = Some (firstn count [b0; b1; b2]).
Proof.
  pose proof (Byte.to_N_bounded b0) as H0.
  pose proof (Byte.to_N_bounded b1) as H1.
  pose proof (Byte.to_N_bounded b2) as H2.
  unfold Base64.bytes_of.
  set (n := (Byte.to_N b0 * 65536 + Byte.to_N b1 * 256 + Byte.to_N b2)%N).
  assert (E0 : (n / 65536 = Byte.to_N b0)%N) by (unfold n; div_mod_lia).
  assert (E1 : ((n / 256) mod 256 = Byte.to_N b1)%N).
  { assert (Hq : (n / 256 = Byte.to_N b0 * 256 + Byte.to_N b1)%N)
      by (unfold n; div_mod_lia).
    rewrite Hq. div_mod_lia. }
  assert (E2 : (n mod 256 = Byte.to_N b2)%N) by (unfold n; div_mod_lia).
  rewrite E0, E1, E2, !Byte.of_to_N. reflexivity.
Qed.

Lemma sextets_sum (n : N) :
  (n < 16777216)%N ->
  ((n / 2 ^ 18) mod 64 * 262144 + (n / 2 ^ 12) mod 64 * 4096
   + (n / 2 ^ 6) mod 64 * 64 + (n / 2 ^ 0) mod 64 = n)%N.
Proof.
  intros Hn.
  change (2 ^ 18)%N with 262144%N. change (2 ^ 12)%N with 4096%N.
  change (2 ^ 6)%N with 64%N. change (2 ^ 0)%N with 1%N.
  div_mod_lia.
Qed.

Lemma list_ind3 {A : Type} (P : list A -> Prop) :
  P [] ->
  (forall a, P [a]) ->
  (forall a b, P [a; b]) ->
  (forall a b c l, P l -> P (a :: b :: c :: l)) ->
  forall l, P l.
Proof.
  intros H0 H1 H2 H3 l.
  assert (H : P l /\ (forall a, P (a :: l)) /\ (forall a b, P (a :: b :: l))).
  { induction l as [| x l (IH0 & IH1 & IH2)].
    - repeat split; assumption.
    - repeat split.
      + apply IH1.
      + intros a. apply IH2.
      + intros a b. apply H3. exact IH0. }
  apply H.
Qed.

Lemma b64decode_b64encode (bs : list byte) :
  Base64.b64decode (Base64.b64encode bs) = Some bs.
Proof.
  induction bs as [| b0 | b0 b1 | b0 b1 b2 rest IH] using list_ind3.
  - reflexivity.
  - pose proof (Byte.to_N_bounded b0) as H0.
    change (Base64.b64encode [b0]) with
      (let n := (Byte.to_N b0 * 65536)%N in
       String (Base64.sextet n 18) (String (Base64.sextet n 12) "==")).
    cbv zeta. set (n := (Byte.to_N b0 * 65536)%N).
    cbn [Base64.b64decode].
    destruct (index_sextet n 18) as [-> _], (index_sextet n 12) as [-> _].
    change (Base64.is_pad "=") with true. cbv iota.
    replace ((n / 2 ^ 18) mod 64 * 262144 + (n / 2 ^ 12) mod 64 * 4096)%N
      with (Byte.to_N b0 * 65536 + Byte.to_N x00 * 256 + Byte.to_N x00)%N.
    + apply bytes_of_group.
    + change (2 ^ 18)%N with 262144%N. change (2 ^ 12)%N with 4096%N.
      change (Byte.to_N x00) with 0%N. unfold n. div_mod_lia.
  - pose proof (Byte.to_N_bounded b0) as H0.
    pose proof (Byte.to_N_bounded b1) as H1.
    change (Base64.b64encode [b0; b1]) with
      (let n := (Byte.to_N b0 * 65536 + Byte.to_N b1 * 256)%N in
       String (Base64.sextet n 18) (String (Base64.sextet n 12)
         (String (Base64.sextet n 6) "="))).
    cbv zeta. set (n := (Byte.to_N b0 * 65536 + Byte.to_N b1 * 256)%N).
    cbn [Base64.b64decode].
    destruct (index_sextet n 18) as [-> _], (index_sextet n 12) as [-> _],
      (index_sextet n 6) as [-> ->].
    change (Base64.is_pad "=") with true. cbv iota.
    replace ((n / 2 ^ 18) mod 64 * 262144 + (n / 2 ^ 12) mod 64 * 4096
             + (n / 2 ^ 6) mod 64 * 64)%N
      with (Byte.to_N b0 * 65536 + Byte.to_N b1 * 256 + Byte.to_N x00)%N.
    + apply bytes_of_group.
    + change (2 ^ 18)%N with 262144%N. change (2 ^ 12)%N with 4096%N.
      change (2 ^ 6)%N with 64%N.
      change (Byte.to_N x00) with 0%N. unfold n. div_mod_lia.
  - pose proof (Byte.to_N_bounded b0) as H0.
    pose proof (Byte.to_N_bounded b1) as H1.
    pose proof (Byte.to_N_bounded b2) as H2.
    change (Base64.b64encode (b0 :: b1 :: b2 :: rest)) with
      (let n := (Byte.to_N b0 * 65536 + Byte.to_N b1 * 256 + Byte.to_N b2)%N in
       String (Base64.sextet n 18) (String (Base64.sextet n 12)
         (String (Base64.sextet n 6) (String (Base64.sextet n 0)
            (Base64.b64encode rest))))).
    cbv zeta.
    set (n := (Byte.to_N b0 * 65536 + Byte.to_N b1 * 256 + Byte.to_N b2)%N).
    cbn [Base64.b64decode]. rewrite IH.
    destruct (index_sextet n 18) as [-> _], (index_sextet n 12) as [-> _],
      (index_sextet n 6) as [-> _], (index_sextet n 0) as [-> ->].
    rewrite sextets_sum by (unfold n; lia).
    unfold n. rewrite bytes_of_group. reflexivity.
Qed.

Lemma b64encode_injective (a b : list byte) :
  Base64.b64encode a = Base64.b64encode b -> a = b.
Proof.
  intros H.
  pose proof (b64decode_b64encode a) as Ha.
  rewrite H, b64decode_b64encode in Ha. congruence.
Qed.

(** ** Camera frames *)

Ltac image_case Hin path bytes Hread :=
  injection Hin as -> -> ->; right; exists path, bytes;
  repeat split; [exact Hread | apply b64decode_b64encode].

(** C6 -- every message [_send_camera] publishes is either the fixed
    calibration or the image message: the latter goes to the camera's
    channel, has format [jpeg], and its [data] field is the base64 text
    of exactly the bytes read from the file at
    [get_sample_data_path(sd_token)], so decoding it gives those bytes
    back; and when path, file, channel and send are all fine the image
    message is the first thing published. *)
Theorem camera_passthrough W self channel sd_token timestamp st :
  (forall chan log_time msg,
     Send chan log_time msg
       ∈ emitted st (snd (send_camera W self channel sd_token timestamp st)) ->
     msg = camera_info timestamp \/
     exists path bytes,
       get_sample_data_path (ts self) sd_token = Ok path /\
       read_file W path = Ok bytes /\
       channels self !! channel = Some chan /\
       log_time = timestamp * 1000 /\
       json_field "format" msg = Some (JStr "jpeg") /\
       json_field "data" msg = Some (JStr (Base64.b64encode bytes)) /\
       Base64.b64decode (Base64.b64encode bytes) = Some bytes) /\
  (forall path bytes chan,
     get_sample_data_path (ts self) sd_token = Ok path ->
     read_file W path = Ok bytes ->
     channels self !! channel = Some chan ->
     send_fault W (clock st) = None ->
     exists rest,
       emitted st (snd (send_camera W self channel sd_token timestamp st))
       = Send chan (timestamp * 1000)
           (image_message timestamp (Base64.b64encode bytes)) :: rest).
Proof.
  rewrite send_camera_total.
  unfold caught, send_camera_body, bind, lift, channel_id.
  split.
  - intros chan log_time msg.
    destruct (get_sample_data_path (ts self) sd_token) as [path | e].
    2:{ rewrite (emitted_app st _ [Print _]) by reflexivity.
        intros Hin. apply list_elem_of_singleton in Hin. discriminate. }
    destruct (read_file W path) as [bytes | e] eqn:Hread.
    2:{ rewrite (emitted_app st _ [Print _]) by reflexivity.
        intros Hin. apply list_elem_of_singleton in Hin. discriminate. }
    destruct (channels self !! channel) as [c |] eqn:Hc.
    2:{ rewrite (emitted_app st _ [Print _]) by reflexivity.
        intros Hin. apply list_elem_of_singleton in Hin. discriminate. }
    unfold send_message at 1.
    destruct (send_fault W (clock st)) as [e |].
    { rewrite (emitted_app st _ [Print _]) by reflexivity.
      intros Hin. apply list_elem_of_singleton in Hin. discriminate. }
    destruct (channels self !! fstr [channel; "_info"]) as [info_chan |].
    + unfold send_message. simpl.
      destruct (send_fault W (S (clock st))) as [e |].
      * rewrite (emitted_app st _ [Send _ _ _; Print _])
          by (simpl; rewrite <- app_assoc; reflexivity).
        intros Hin. apply elem_of_cons in Hin as [Hin | Hin].
        { image_case Hin path bytes Hread. }
        apply list_elem_of_singleton in Hin. discriminate.
      * rewrite (emitted_app st _ [Send _ _ _; Send _ _ _])
          by (simpl; rewrite <- app_assoc; reflexivity).
        intros Hin. apply elem_of_cons in Hin as [Hin | Hin].
        { image_case Hin path bytes Hread. }
        apply list_elem_of_singleton in Hin. injection Hin as -> -> ->.
        left. reflexivity.
    + unfold ret. simpl.
      rewrite (emitted_app st _ [Send _ _ _]) by reflexivity.
      intros Hin. apply list_elem_of_singleton in Hin.
      image_case Hin path bytes Hread.
  - intros path bytes chan -> -> -> Hsend.
    unfold send_message at 1. rewrite Hsend.
    destruct (channels self !! fstr [channel; "_info"]) as [info_chan |].
    + unfold send_message. simpl.
      destruct (send_fault W (S (clock st))) as [e |]; eexists;
        apply emitted_app; simpl; rewrite <- app_assoc; reflexivity.
    + eexists. apply emitted_app. reflexivity.
Qed.

Lemma camera_passthrough_witness :
  exists rest,
    emitted Demo.start
      (snd (send_camera Demo.world0 Demo.streamer "CAMERA_LEFT_FRONT" "cam1"
              1700000000000000 Demo.start))
    = Send 0 1700000000000000000
        (image_message 1700000000000000 (Base64.b64encode [x4d; x61; x6e])) :: rest.
Proof.
  destruct (camera_passthrough Demo.world0 Demo.streamer "CAMERA_LEFT_FRONT" "cam1"
              1700000000000000 Demo.start) as [_ H].
  apply (H "/data/cam1" [x4d; x61; x6e] 0%nat).
  - reflexivity.
  - reflexivity.
  - vm_compute. reflexivity.
  - reflexivity.
Defined.

Example demo_image_data :
  json_field "data" (image_message 1700000000000000 (Base64.b64encode [x4d; x61; x6e]))
  = Some (JStr "TWFu").
Proof. reflexivity. Qed.

(** ** The demo run *)

(** On the demo dataset the second camera file is missing: the error is
    printed, the frame is finished, and the next scene is streamed. *)
Example demo_camera_error_is_logged :
  match stream_data Demo.world0 Demo.streamer 3 Demo.start with
  | Some (Ok _, st) =>
      Demo.printed "Camera error CAMERA_LEFT_FRONT: /data/cam2" st = true /\
      Demo.printed "Streaming scene 2/2" st = true /\
      last (trace st) = Some (Print "Streaming complete.") /\
      clock st = 11%nat
  | _ => False
  end.
Proof. vm_compute. repeat split. Qed.

(** A send that raises inside the camera routine is printed as well, and
    the lidar, the radar and the annotations of the same frame still go
    out. *)
Example demo_send_fault_in_sensor_is_logged :
  match stream_data (Demo.world_fault 1) Demo.streamer 3 Demo.start with
  | Some (Ok _, st) =>
      Demo.printed "Camera error CAMERA_LEFT_FRONT: connection closed" st = true /\
      Demo.sent_on 0 st = false /\
      Demo.sent_on 2 st = true /\
      Demo.sent_on 3 st = true /\
      Demo.sent_on 5 st = true /\
      last (trace st) = Some (Print "Streaming complete.")
  | _ => False
  end.
Proof. vm_compute. repeat split. Qed.

(** [_send_transforms] has no handler of its own: a send that raises
    there ends [_stream_data] with that exception. *)
Example demo_send_fault_in_transforms_propagates :
  stream_data (Demo.world_fault 0) Demo.streamer 3 Demo.start
  = Some (Raise (Exception "ConnectionClosed" "connection closed"),
          {| clock := 1; trace := [Print "Streaming scene 1/2"] |}).
Proof. vm_compute. reflexivity. Qed.

(** * Further properties of the relay *)

(** ** What the relay appends to the trace *)

Lemma grows_weaken {A : Type} (P Q : event -> Prop) (m : M A) :
  (forall e, P e -> Q e) -> grows P m -> grows Q m.
Proof.
  intros HPQ Hm st. destruct (Hm st) as (new & Ht & Hall).
  exists new. split; [exact Ht |]. eapply Forall_impl; eauto.
Qed.

Lemma grows_ret {A : Type} (P : event -> Prop) (a : A) : grows P (ret a).
Proof. intros st. exists []. simpl. rewrite app_nil_r. split; [reflexivity | constructor]. Qed.

Lemma grows_lift {A : Type} (P : event -> Prop) (r : result A) : grows P (lift r).
Proof. intros st. exists []. simpl. rewrite app_nil_r. split; [reflexivity | constructor]. Qed.

Lemma grows_print (P : event -> Prop) (line : string) :
  P (Print line) -> grows P (print line).
Proof. intros HP st. exists [Print line]. split; [reflexivity | repeat constructor; exact HP]. Qed.

Lemma grows_sleep (P : event -> Prop) (seconds : Q) :
  P (Sleep seconds) -> grows P (sleep seconds).
Proof. intros HP st. exists [Sleep seconds]. split; [reflexivity | repeat constructor; exact HP]. Qed.

Lemma grows_send_message (P : event -> Prop) W chan log_time msg :
  P (Send chan log_time msg) -> grows P (send_message W chan log_time msg).
Proof.
  intros HP st. unfold send_message.
  destruct (send_fault W (clock st)).
  - exists []. simpl. rewrite app_nil_r. split; [reflexivity | constructor].
  - exists [Send chan log_time msg]. split; [reflexivity | repeat constructor; exact HP].
Qed.

Lemma grows_bind {A B : Type} (P : event -> Prop) (m : M A) (k : A -> M B) :
  grows P m -> (forall a, grows P (k a)) -> grows P (bind m k).
Proof.
  intros Hm Hk st. unfold bind.
  destruct (Hm st) as (new1 & Ht1 & Hall1).
  destruct (m st) as [[a | e] st1]; simpl in Ht1.
  - destruct (Hk a st1) as (new2 & Ht2 & Hall2).
    exists (new1 ++ new2)%list. rewrite Ht2, Ht1, app_assoc.
    split; [reflexivity | apply Forall_app; split; assumption].
  - exists new1. split; assumption.
Qed.

Lemma grows_bind_lift {A B : Type} (P : event -> Prop) (r : result A) (k : A -> M B) :
  (forall a, r = Ok a -> grows P (k a)) -> grows P (bind (lift r) k).
Proof.
  intros Hk st. unfold bind, lift. destruct r as [a | e].
  - apply Hk. reflexivity.
  - exists []. simpl. rewrite app_nil_r. split; [reflexivity | constructor].
Qed.

Lemma grows_try_except (P : event -> Prop) (body : M unit) (handler : exn -> M unit) :
  grows P body -> (forall e, grows P (handler e)) -> grows P (try_except body handler).
Proof.
  intros Hb Hh st. unfold try_except.
  destruct (Hb st) as (new1 & Ht1 & Hall1).
  destruct (body st) as [[a | e] st1]; simpl in Ht1.
  - exists new1. split; assumption.
  - destruct (Hh e st1) as (new2 & Ht2 & Hall2).
    exists (new1 ++ new2)%list. rewrite Ht2, Ht1, app_assoc.
    split; [reflexivity | apply Forall_app; split; assumption].
Qed.

Lemma grows_for_each {A : Type} (P : event -> Prop) (l : list A) (f : A -> M unit) :
  (forall a, grows P (f a)) -> grows P (for_each l f).
Proof.
  intros Hf. induction l as [| a l IH]; simpl.
  - apply grows_ret.
  - apply grows_bind; [apply Hf | intros _; exact IH].
Qed.

Lemma channel_id_registered self key chan :
  channel_id self key = Ok chan -> registered self chan.
Proof.
  unfold channel_id. destruct (channels self !! key) as [c |] eqn:Hc; [| discriminate].
  intros H. injection H as <-. right. right. exists key. exact Hc.
Qed.

Lemma send_transforms_grows W self timestamp :
  grows (frame_event self timestamp) (send_transforms W self timestamp).
Proof.
  apply grows_send_message. split; [left; reflexivity | reflexivity].
Qed.

Lemma send_camera_grows W self channel sd_token timestamp :
  grows (frame_event self timestamp) (send_camera W self channel sd_token timestamp).
Proof.
  apply grows_try_except; [| intros e; apply grows_print; exact I].
  unfold send_camera_body.
  apply grows_bind_lift. intros path _.
  apply grows_bind_lift. intros bytes _.
  apply grows_bind_lift. intros chan Hchan.
  apply grows_bind.
  - apply grows_send_message. split; [| reflexivity].
    eapply channel_id_registered; exact Hchan.
  - intros _. destruct (channels self !! fstr [channel; "_info"]) as [info_chan |] eqn:Hinfo.
    + apply grows_send_message. split; [| reflexivity].
      right. right. eexists; exact Hinfo.
    + apply grows_ret.
Qed.

Lemma send_pointcloud_grows W self channel sd_token timestamp is_lidar :
  grows (frame_event self timestamp)
    (send_pointcloud W self channel sd_token timestamp is_lidar).
Proof.
  apply grows_try_except; [| intros e; apply grows_print; exact I].
  unfold send_pointcloud_body.
  apply grows_bind_lift. intros path _.
  apply grows_bind_lift. intros spheres _.
  destruct spheres as [| s spheres]; [apply grows_ret |].
  apply grows_bind_lift. intros chan Hchan.
  apply grows_send_message. split; [| reflexivity].
  eapply channel_id_registered; exact Hchan.
Qed.

Lemma send_annotations_grows W self sample timestamp :
  grows (frame_event self timestamp) (send_annotations W self sample timestamp).
Proof.
  apply grows_try_except; [| intros e; apply grows_print; exact I].
  unfold send_annotations_body.
  destruct (py_or _ _) as [tok |]; [| apply grows_ret].
  destruct (truthy tok); [| apply grows_ret].
  apply grows_bind_lift. intros sd _.
  apply grows_bind_lift. intros ego _.
  apply grows_bind_lift. intros boxes _.
  destruct (map fst boxes); [apply grows_ret |].
  apply grows_send_message. split; [right; left; reflexivity | reflexivity].
Qed.

Lemma send_sensor_grows W self timestamp entry :
  grows (frame_event self timestamp) (send_sensor W self timestamp entry).
Proof.
  destruct entry as [channel sd_token]. unfold send_sensor.
  destruct (channels self !! channel); [| apply grows_ret].
  destruct (str_contains "CAMERA" channel); [apply send_camera_grows |].
  destruct (str_contains "LIDAR" channel); [apply send_pointcloud_grows |].
  destruct (str_contains "RADAR" channel); [apply send_pointcloud_grows |].
  apply grows_ret.
Qed.

Lemma send_frame_grows W self sample :
  grows (frame_event self (Rec.timestamp sample)) (send_frame W self sample).
Proof.
  unfold send_frame.
  apply grows_bind; [apply send_transforms_grows |]. intros _.
  apply grows_bind; [apply grows_for_each; intros entry; apply send_sensor_grows |].
  intros _. apply send_annotations_grows.
Qed.

Lemma grows_emitted {A : Type} (P : event -> Prop) (m : M A) st e :
  grows P m -> e ∈ emitted st (snd (m st)) -> P e.
Proof.
  intros Hm Hin. destruct (Hm st) as (new & Ht & Hall).
  rewrite (emitted_app _ _ _ Ht) in Hin.
  rewrite Forall_forall in Hall. apply Hall. exact Hin.
Qed.

(** The three places a routine puts [self._ts(timestamp)] at. *)
Lemma stamp_at_top timestamp fields :
  carries_stamp (timestamp / 1000000) ((timestamp mod 1000000) * 1000)
    (JObj (("timestamp", stamp timestamp) :: fields)).
Proof. exists [Key "timestamp"]. split; [left | reflexivity]. Qed.

Lemma stamp_in_transform timestamp fields more others :
  carries_stamp (timestamp / 1000000) ((timestamp mod 1000000) * 1000)
    (JObj (("transforms", JArr (JObj (("timestamp", stamp timestamp) :: fields) :: more))
           :: others)).
Proof.
  exists [Key "transforms"; Index 0%nat; Key "timestamp"].
  split; [right; left | reflexivity].
Qed.

Lemma stamp_in_scene_update timestamp id cubes spheres texts :
  carries_stamp (timestamp / 1000000) ((timestamp mod 1000000) * 1000)
    (scene_update (stamp timestamp) id cubes spheres texts).
Proof.
  exists [Key "entities"; Index 0%nat; Key "timestamp"].
  split; [right; right; left | reflexivity].
Qed.

Lemma send_transforms_stamped W self timestamp :
  grows (stamped_event self timestamp) (send_transforms W self timestamp).
Proof.
  apply grows_send_message.
  split; [left; reflexivity | split; [reflexivity | apply stamp_in_transform]].
Qed.

Lemma send_camera_stamped W self channel sd_token timestamp :
  grows (stamped_event self timestamp) (send_camera W self channel sd_token timestamp).
Proof.
  apply grows_try_except; [| intros e; apply grows_print; exact I].
  unfold send_camera_body.
  apply grows_bind_lift. intros path _.
  apply grows_bind_lift. intros bytes _.
  apply grows_bind_lift. intros chan Hchan.
  apply grows_bind.
  - apply grows_send_message. split; [| split; [reflexivity | apply stamp_at_top]].
    eapply channel_id_registered; exact Hchan.
  - intros _. destruct (channels self !! fstr [channel; "_info"]) as [info_chan |] eqn:Hinfo.
    + apply grows_send_message. split; [| split; [reflexivity | apply stamp_at_top]].
      right. right. eexists; exact Hinfo.
    + apply grows_ret.
Qed.

Lemma send_pointcloud_stamped W self channel sd_token timestamp is_lidar :
  grows (stamped_event self timestamp)
    (send_pointcloud W self channel sd_token timestamp is_lidar).
Proof.
  apply grows_try_except; [| intros e; apply grows_print; exact I].
  unfold send_pointcloud_body.
  apply grows_bind_lift. intros path _.
  apply grows_bind_lift. intros spheres _.
  destruct spheres as [| s spheres]; [apply grows_ret |].
  apply grows_bind_lift. intros chan Hchan.
  apply grows_send_message.
  split; [| split; [reflexivity | apply stamp_in_scene_update]].
  eapply channel_id_registered; exact Hchan.
Qed.

Lemma send_annotations_stamped W self sample timestamp :
  grows (stamped_event self timestamp) (send_annotations W self sample timestamp).
Proof.
  apply grows_try_except; [| intros e; apply grows_print; exact I].
  unfold send_annotations_body.
  destruct (py_or _ _) as [tok |]; [| apply grows_ret].
  destruct (truthy tok); [| apply grows_ret].
  apply grows_bind_lift. intros sd _.
  apply grows_bind_lift. intros ego _.
  apply grows_bind_lift. intros boxes _.
  destruct (map fst boxes); [apply grows_ret |].
  apply grows_send_message.
  split; [right; left; reflexivity | split; [reflexivity | apply stamp_in_scene_update]].
Qed.

Lemma send_sensor_stamped W self timestamp entry :
  grows (stamped_event self timestamp) (send_sensor W self timestamp entry).
Proof.
  destruct entry as [channel sd_token]. unfold send_sensor.
  destruct (channels self !! channel); [| apply grows_ret].
  destruct (str_contains "CAMERA" channel); [apply send_camera_stamped |].
  destruct (str_contains "LIDAR" channel); [apply send_pointcloud_stamped |].
  destruct (str_contains "RADAR" channel); [apply send_pointcloud_stamped |].
  apply grows_ret.
Qed.

Lemma send_frame_stamped W self sample :
  grows (stamped_event self (Rec.timestamp sample)) (send_frame W self sample).
Proof.
  unfold send_frame.
  apply grows_bind; [apply send_transforms_stamped |]. intros _.
  apply grows_bind; [apply grows_for_each; intros entry; apply send_sensor_stamped |].
  intros _. apply send_annotations_stamped.
Qed.

(** X1 -- every message sent for one sample, on whatever topic, goes to
    a channel of the streamer, carries as log time the sample's
    timestamp in nanoseconds, and holds inside (at [timestamp], at
    [transforms[0].timestamp] or at [entities[0].timestamp]) a stamp
    [{sec, nsec}] with [0 <= nsec < 10^9] that is that same time:
    [log_time = sec * 10^9 + nsec]; no frame sleeps before it is
    complete. *)
Theorem frame_messages_share_log_time W self (sample : Rec.sample) st e :
  e ∈ emitted st (snd (send_frame W self sample st)) ->
  match e with
  | Print _ => True
  | Send chan log_time msg =>
      registered self chan /\
      log_time = Rec.timestamp sample * 1000 /\
      exists sec nsec,
        carries_stamp sec nsec msg /\
        0 <= nsec < 1000000000 /\
        log_time = sec * 1000000000 + nsec
  | Sleep _ => False
  end.
Proof.
  intros Hin.
  pose proof (grows_emitted _ _ st e (send_frame_stamped W self sample) Hin) as H.
  destruct e as [line | chan log_time msg | seconds]; simpl in H; [exact I | | exact H].
  destruct H as (Hreg & -> & Hstamp).
  split; [exact Hreg |]. split; [reflexivity |].
  exists (Rec.timestamp sample / 1000000), ((Rec.timestamp sample mod 1000000) * 1000).
  split; [exact Hstamp |].
  pose proof (Z.div_mod (Rec.timestamp sample) 1000000 ltac:(lia)).
  pose proof (Z.mod_pos_bound (Rec.timestamp sample) 1000000 ltac:(lia)).
  lia.
Qed.

Lemma frame_messages_share_log_time_witness :
  exists msg,
    Send 4 1700000000000000000 msg
      ∈ emitted Demo.start (snd (send_frame Demo.world0 Demo.streamer Demo.sample1 Demo.start)) /\
    registered Demo.streamer 4 /\
    exists sec nsec,
      carries_stamp sec nsec msg /\
      1700000000000000000 = sec * 1000000000 + nsec.
Proof.
  eexists.
  assert (Hin : Send 4 1700000000000000000
                  (JObj [("transforms",
                          JArr [JObj [("timestamp", stamp 1700000000000000);
                                      ("parent_frame_id", JStr "world");
                                      ("child_frame_id", JStr "base_link");
                                      ("translation",
                                       JObj [("x", JInt 0); ("y", JInt 0); ("z", JInt 0)]);
                                      ("rotation", identity_orientation)]])])
                ∈ emitted Demo.start
                    (snd (send_frame Demo.world0 Demo.streamer Demo.sample1 Demo.start))).
  { vm_compute. left. }
  split; [exact Hin |].
  destruct (frame_messages_share_log_time _ _ _ _ _ Hin)
    as (Hreg & _ & sec & nsec & Hstamp & _ & Ht).
  split; [exact Hreg |]. exists sec, nsec. split; [exact Hstamp | exact Ht].
Defined.

(** ** The stream as a whole *)

Lemma appended_refl P st : appended P st st.
Proof. exists []. rewrite app_nil_r. split; [reflexivity | constructor]. Qed.

Lemma appended_trans P st1 st2 st3 :
  appended P st1 st2 -> appended P st2 st3 -> appended P st1 st3.
Proof.
  intros (n1 & H1 & F1) (n2 & H2 & F2).
  exists (n1 ++ n2)%list. rewrite H2, H1, app_assoc.
  split; [reflexivity | apply Forall_app; split; assumption].
Qed.

Lemma appended_emit (P : event -> Prop) e st : P e -> appended P st (emit e st).
Proof. intros HP. exists [e]. split; [reflexivity | repeat constructor; exact HP]. Qed.

Lemma grows_appended {A : Type} (P : event -> Prop) (m : M A) st :
  grows P m -> appended P st (snd (m st)).
Proof. intros Hm. apply Hm. Qed.

Lemma frame_event_stream_event self timestamp e :
  frame_event self timestamp e -> stream_event self e.
Proof.
  destruct e as [line | chan log_time msg | seconds]; simpl; [tauto | tauto | tauto].
Qed.

Lemma frame_step_grows W self tok frame_count :
  grows (stream_event self) (frame_step W self tok frame_count).
Proof.
  unfold frame_step.
  apply grows_bind_lift. intros smp _.
  apply grows_bind.
  { eapply grows_weaken; [| apply send_frame_grows].
    apply frame_event_stream_event. }
  intros _. apply grows_bind.
  { destruct (Z.eqb _ _); [apply grows_print; exact I | apply grows_ret]. }
  intros _. apply grows_bind; [apply grows_sleep; reflexivity |].
  intros _. apply grows_ret.
Qed.

Lemma sample_loop_appended W self fuel :
  forall tok frame_count st r st',
    sample_loop W self fuel tok frame_count st = Some (r, st') ->
    appended (stream_event self) st st'.
Proof.
  induction fuel as [| fuel IH]; intros tok frame_count st r st' H; simpl in H.
  - discriminate.
  - destruct (truthy tok && running_at W (clock st)).
    + pose proof (grows_appended _ _ st (frame_step_grows W self tok frame_count)) as Hstep.
      destruct (frame_step W self tok frame_count st) as [[[next fc] | e] st1];
        simpl in Hstep.
      * eapply appended_trans; [exact Hstep | eapply IH; exact H].
      * injection H as <- <-. exact Hstep.
    + injection H as <- <-. apply appended_refl.
Qed.

Lemma scene_loop_appended W self fuel scenes :
  forall scene_idx st r st',
    scene_loop W self fuel scene_idx scenes st = Some (r, st') ->
    appended (stream_event self) st st'.
Proof.
  induction scenes as [| sc rest IH]; intros scene_idx st r st' H; simpl in H.
  - injection H as <- <-. apply appended_refl.
  - match type of H with
    | context [sample_loop W self fuel ?tok 0 ?st1] =>
        destruct (sample_loop W self fuel tok 0 st1) as [[[[] | e] st2] |] eqn:Hloop;
        [| | discriminate];
        pose proof (sample_loop_appended W self fuel _ _ _ _ _ Hloop) as Hin;
        assert (Hhead : appended (stream_event self) st st2)
          by (eapply appended_trans; [| exact Hin]; apply appended_emit; exact I)
    end.
    + destruct (negb (running_at W (clock st2))).
      * injection H as <- <-. exact Hhead.
      * eapply appended_trans; [exact Hhead | eapply IH; exact H].
    + injection H as <- <-. exact Hhead.
Qed.

Lemma stream_data_appended W self fuel st r st' :
  stream_data W self fuel st = Some (r, st') ->
  appended (stream_event self) st st'.
Proof.
  unfold stream_data. intros H.
  destruct (scene_loop W self fuel 0 (scene (ts self)) st) as [[[[] | e] st1] |] eqn:Hloop;
    [| | discriminate];
    pose proof (scene_loop_appended W self fuel _ _ _ _ _ Hloop) as Hin.
  - injection H as <- <-.
    eapply appended_trans; [exact Hin | apply appended_emit; exact I].
  - injection H as <- <-. exact Hin.
Qed.

(** X2 -- however [_stream_data] ends (normally, by the flag, or with an
    exception), it has only appended to the trace, every message it sent
    went to the transform channel, the annotation channel or a channel of
    [self.channels], and every sleep it took lasted a tenth of a second. *)
Theorem stream_sends_on_registered_channels W self fuel st r st' :
  stream_data W self fuel st = Some (r, st') ->
  trace st' = (trace st ++ emitted st st')%list /\
  forall e, e ∈ emitted st st' ->
    match e with
    | Print _ => True
    | Send chan _ _ =>
        chan = tf_channel self \/ chan = annotations_channel self \/
        exists key, channels self !! key = Some chan
    | Sleep seconds => seconds = (1 # 10)%Q
    end.
Proof.
  intros H. destruct (stream_data_appended W self fuel st r st' H) as (new & Ht & Hall).
  rewrite (emitted_app _ _ _ Ht). split; [exact Ht |].
  intros e Hin. rewrite Forall_forall in Hall. specialize (Hall e Hin).
  destruct e; exact Hall.
Qed.

Lemma stream_sends_on_registered_channels_witness :
  exists st',
    stream_data Demo.world0 Demo.streamer 3 Demo.start = Some (Ok tt, st') /\
    trace st' = (trace Demo.start ++ emitted Demo.start st')%list.
Proof.
  assert (H : exists st',
    stream_data Demo.world0 Demo.streamer 3 Demo.start = Some (Ok tt, st')).
  { vm_compute. eexists. reflexivity. }
  destruct H as [st' H]. exists st'. split; [exact H |].
  destruct (stream_sends_on_registered_channels _ _ _ _ _ _ H) as [Ht _].
  exact Ht.
Defined.

(** ** Channel registration *)

Lemma ids_fresh_add (chans : gmap string nat) srv key spec :
  ids_fresh chans srv ->
  ids_fresh (<[key := fst (Server.add_channel spec srv)]> chans)
            (snd (Server.add_channel spec srv)).
Proof.
  intros [Hlt Hinj]. split; simpl.
  - intros k c Hk. apply lookup_insert_Some in Hk as [[_ <-] | [_ Hk]]; [lia |].
    specialize (Hlt k c Hk). lia.
  - intros k1 k2 c H1 H2.
    apply lookup_insert_Some in H1 as [[<- <-] | [Hne1 H1]];
      apply lookup_insert_Some in H2 as [[<- E2] | [Hne2 H2]].
    + reflexivity.
    + specialize (Hlt k2 _ H2). lia.
    + specialize (Hlt k1 _ H1). lia.
    + eapply Hinj; eassumption.
Qed.


Lemma register_sensor_fresh acc s :
  ids_fresh (fst acc) (snd acc) ->
  ids_fresh (fst (register_sensor acc s)) (snd (register_sensor acc s)).
Proof.
  intros H. unfold register_sensor.
  destruct (str_contains "CAMERA" (Rec.channel s)).
  { cbv zeta. cbn [fst snd]. apply ids_fresh_add. apply ids_fresh_add. exact H. }
  destruct (str_contains "LIDAR" (Rec.channel s)).
  { cbv zeta. cbn [fst snd]. apply ids_fresh_add. exact H. }
  destruct (str_contains "RADAR" (Rec.channel s)).
  { cbv zeta. cbn [fst snd]. apply ids_fresh_add. exact H. }
  exact H.
Qed.


Lemma register_fold_fresh sensors acc :
  ids_fresh (fst acc) (snd acc) ->
  ids_fresh (fst (fold_left register_sensor sensors acc))
            (snd (fold_left register_sensor sensors acc)).
Proof.
  revert acc. induction sensors as [| s l IH]; intros acc H; simpl; [exact H |].
  apply IH. apply register_sensor_fresh. exact H.
Qed.


Lemma ids_fresh_empty srv : ids_fresh ∅ srv.
Proof. split; intros *; rewrite lookup_empty; discriminate. Qed.

(** X3 -- after [_register_channels] no two keys of [self.channels]
    share a channel id, the transform and the annotation channel differ
    from each other and from every sensor channel, and every id the
    streamer holds was handed out by the server. *)
Theorem registered_ids_are_distinct (dataset : TruckScenes) (port : Z) (srv : Server.t) :
  let self := fst (fst (register_channels dataset port srv)) in
  let srv' := snd (fst (register_channels dataset port srv)) in
  (forall k1 k2 c,
     channels self !! k1 = Some c -> channels self !! k2 = Some c -> k1 = k2) /\
  tf_channel self <> annotations_channel self /\
  (forall key c, channels self !! key = Some c ->
     c <> tf_channel self /\ c <> annotations_channel self) /\
  (forall chan, registered self chan -> (chan < Server.next_channel_id srv')%nat).
Proof.
  unfold register_channels. cbv zeta. cbn [fst snd ts channels tf_channel annotations_channel].
  pose proof (register_fold_fresh (sensor dataset) (∅, srv) (ids_fresh_empty srv))
    as [Hlt Hinj].
  set (sensors := fold_left register_sensor (sensor dataset) (∅, srv)) in *.
  simpl. repeat split.
  - exact Hinj.
  - lia.
  - specialize (Hlt key c H). lia.
  - specialize (Hlt key c H). lia.
  - unfold registered. simpl. intros chan [-> | [-> | [key Hkey]]]; [lia | lia |].
    specialize (Hlt key chan Hkey). lia.
Qed.

Lemma register_sensor_keeps acc s key :
  is_Some (fst acc !! key) -> is_Some (fst (register_sensor acc s) !! key).
Proof.
  intros H. unfold register_sensor.
  destruct (str_contains "CAMERA" (Rec.channel s)).
  { cbv zeta. cbn [fst snd]. rewrite !lookup_insert_is_Some'. auto. }
  destruct (str_contains "LIDAR" (Rec.channel s)).
  { cbv zeta. cbn [fst snd]. rewrite lookup_insert_is_Some'. auto. }
  destruct (str_contains "RADAR" (Rec.channel s)).
  { cbv zeta. cbn [fst snd]. rewrite lookup_insert_is_Some'. auto. }
  exact H.
Qed.

Lemma register_sensor_adds acc s :
  (is_sensor_channel (Rec.channel s) = true ->
   is_Some (fst (register_sensor acc s) !! Rec.channel s)) /\
  (str_contains "CAMERA" (Rec.channel s) = true ->
   is_Some (fst (register_sensor acc s) !! fstr [Rec.channel s; "_info"])).
Proof.
  unfold register_sensor, is_sensor_channel.
  destruct (str_contains "CAMERA" (Rec.channel s)).
  { cbv zeta. cbn [fst snd]. split; intros _; rewrite !lookup_insert_is_Some'; auto. }
  destruct (str_contains "LIDAR" (Rec.channel s)).
  { cbv zeta. cbn [fst snd]. split; [| discriminate].
    intros _. rewrite lookup_insert_is_Some'. auto. }
  destruct (str_contains "RADAR" (Rec.channel s)).
  { cbv zeta. cbn [fst snd]. split; [| discriminate].
    intros _. rewrite lookup_insert_is_Some'. auto. }
  split; discriminate.
Qed.

Lemma register_sensor_only acc s key :
  is_Some (fst (register_sensor acc s) !! key) ->
  is_Some (fst acc !! key) \/ key_of s key.
Proof.
  unfold register_sensor, key_of, is_sensor_channel.
  destruct (str_contains "CAMERA" (Rec.channel s)).
  { cbv zeta. cbn [fst snd]. rewrite !lookup_insert_is_Some'.
    intros [<- | [<- | H]]; auto. }
  destruct (str_contains "LIDAR" (Rec.channel s)).
  { cbv zeta. cbn [fst snd]. rewrite lookup_insert_is_Some'.
    intros [<- | H]; auto. }
  destruct (str_contains "RADAR" (Rec.channel s)).
  { cbv zeta. cbn [fst snd]. rewrite lookup_insert_is_Some'.
    intros [<- | H]; auto. }
  auto.
Qed.

Lemma register_fold_keeps sensors acc key :
  is_Some (fst acc !! key) ->
  is_Some (fst (fold_left register_sensor sensors acc) !! key).
Proof.
  revert acc. induction sensors as [| s l IH]; intros acc H; simpl; [exact H |].
  apply IH. apply register_sensor_keeps. exact H.
Qed.

Lemma register_fold_adds sensors acc s :
  s ∈ sensors ->
  (is_sensor_channel (Rec.channel s) = true ->
   is_Some (fst (fold_left register_sensor sensors acc) !! Rec.channel s)) /\
  (str_contains "CAMERA" (Rec.channel s) = true ->
   is_Some (fst (fold_left register_sensor sensors acc) !! fstr [Rec.channel s; "_info"])).
Proof.
  revert acc. induction sensors as [| s' l IH]; intros acc Hin; simpl.
  - apply elem_of_nil in Hin. destruct Hin.
  - apply elem_of_cons in Hin as [-> | Hin]; [| apply IH; exact Hin].
    destruct (register_sensor_adds acc s') as [H1 H2].
    split; intros H; apply register_fold_keeps; auto.
Qed.

Lemma register_fold_only sensors acc key :
  is_Some (fst (fold_left register_sensor sensors acc) !! key) ->
  is_Some (fst acc !! key) \/ exists s, s ∈ sensors /\ key_of s key.
Proof.
  revert acc. induction sensors as [| s l IH]; intros acc H; simpl in H; [auto |].
  destruct (IH _ H) as [Hacc | (s' & Hin & Hk)].
  - destruct (register_sensor_only acc s key Hacc) as [Hold | Hk]; [auto |].
    right. exists s. split; [left | exact Hk].
  - right. exists s'. split; [right; exact Hin | exact Hk].
Qed.

(** X4 -- [_register_channels] gives a channel to every sensor of the
    table whose name contains [CAMERA], [LIDAR] or [RADAR], a second one
    (under [<name>_info]) to every camera, and to nothing else: every key
    of [self.channels] is such a name.  So an entry of [sample['data']]
    whose key is neither the name of a sensor of the table nor a
    camera's [_info] key is passed over by the relay. *)
Theorem channels_follow_the_sensor_table (dataset : TruckScenes) (port : Z)
    (srv : Server.t) :
  let self := fst (fst (register_channels dataset port srv)) in
  (forall s, s ∈ sensor dataset ->
     is_sensor_channel (Rec.channel s) = true ->
     is_Some (channels self !! Rec.channel s)) /\
  (forall s, s ∈ sensor dataset ->
     str_contains "CAMERA" (Rec.channel s) = true ->
     is_Some (channels self !! fstr [Rec.channel s; "_info"])) /\
  (forall key, is_Some (channels self !! key) ->
     exists s, s ∈ sensor dataset /\ key_of s key) /\
  (forall W key sd_token timestamp st,
     (forall s, s ∈ sensor dataset ->
        Rec.channel s <> key /\ fstr [Rec.channel s; "_info"] <> key) ->
     send_sensor W self timestamp (key, sd_token) st = (Ok tt, st)).
Proof.
  unfold register_channels. cbv zeta. cbn [fst snd channels].
  assert (Honly : forall key,
    is_Some (fst (fold_left register_sensor (sensor dataset) (∅, srv)) !! key) ->
    exists s, s ∈ sensor dataset /\ key_of s key).
  { intros key H. destruct (register_fold_only _ _ _ H) as [Hempty | Hs]; [| exact Hs].
    simpl in Hempty. rewrite lookup_empty in Hempty. destruct Hempty; discriminate. }
  repeat split.
  - intros s Hin. apply (register_fold_adds _ (∅, srv) s Hin).
  - intros s Hin. apply (register_fold_adds _ (∅, srv) s Hin).
  - exact Honly.
  - intros W key sd_token timestamp st Hnot.
    unfold send_sensor. cbn [channels].
    destruct (fst (fold_left register_sensor (sensor dataset) (∅, srv)) !! key)
      as [c |] eqn:Hkey; [| reflexivity].
    exfalso. destruct (Honly key (ex_intro _ c Hkey)) as (s & Hin & Hk).
    destruct (Hnot s Hin) as [Hn1 Hn2].
    destruct Hk as [[-> _] | [-> _]]; congruence.
Qed.

Lemma channels_follow_the_sensor_table_witness :
  send_sensor Demo.world0 (fst (fst (register_channels Demo.dataset 8765 Server.fresh)))
    1700000000000000 ("CAMERA_RIGHT_BACK", "cam7") Demo.start
  = (Ok tt, Demo.start).
Proof.
  destruct (channels_follow_the_sensor_table Demo.dataset 8765 Server.fresh)
    as (_ & _ & _ & H).
  apply H. intros s Hin.
  repeat (apply elem_of_cons in Hin as [-> | Hin]; [split; discriminate |]).
  apply elem_of_nil in Hin. destruct Hin.
Defined.

(** ** The server task *)

Lemma send_transforms_ok W self timestamp st :
  send_fault W (clock st) = None ->
  exists msg,
    send_transforms W self timestamp st
    = (Ok tt, tick (emit (Send (tf_channel self) (timestamp * 1000) msg) st)) /\
    json_at ["transforms"] msg <> None.
Proof.
  intros H. unfold send_transforms, send_message. rewrite H.
  eexists. split; [reflexivity | discriminate].
Qed.

Lemma bind_after {A B : Type} (m : M A) (k : A -> M B) st a st1 :
  m st = (Ok a, st1) -> bind m k st = k a st1.
Proof. intros H. unfold bind. rewrite H. reflexivity. Qed.

Lemma trace_member_appended (P : event -> Prop) st st' e :
  appended P st st' -> e ∈ trace st -> e ∈ trace st'.
Proof.
  intros (new & Ht & _) Hin. rewrite Ht. apply elem_of_app. left. exact Hin.
Qed.





Lemma send_transforms_sent W self timestamp st :
  send_fault W (clock st) = None ->
  exists msg,
    send_transforms W self timestamp st
    = (Ok tt, tick (emit (Send (tf_channel self) (timestamp * 1000) msg) st)) /\
    world_to_base_link msg.
Proof.
  intros H. unfold send_transforms, send_message. rewrite H.
  eexists. split; [reflexivity | split; reflexivity].
Qed.

Lemma frame_step_first_message W self tok frame_count smp st :
  sample (ts self) !! tok = Some smp ->
  send_fault W (clock st) = None ->
  exists msg new,
    world_to_base_link msg /\
    trace (snd (frame_step W self tok frame_count st))
    = (trace st ++ Send (tf_channel self) (Rec.timestamp smp * 1000) msg :: new)%list.
Proof.
  intros Hs Hf.
  destruct (send_transforms_sent W self (Rec.timestamp smp) st Hf) as (msg & Hsend & Hmsg).
  assert (Hframe : exists new1,
            trace (snd (send_frame W self smp st))
            = (trace st ++ Send (tf_channel self) (Rec.timestamp smp * 1000) msg
                           :: new1)%list).
  { unfold send_frame. rewrite (bind_after _ _ _ _ _ Hsend).
    match goal with
    | |- context [bind ?m ?k (tick ?s)] =>
        assert (Hrest : grows (frame_event self (Rec.timestamp smp)) (bind m k))
    end.
    { apply grows_bind; [apply grows_for_each; intros entry; apply send_sensor_grows |].
      intros _. apply send_annotations_grows. }
    match goal with
    | |- context [bind ?m ?k (tick ?s)] => destruct (Hrest (tick s)) as (new & Ht & _)
    end.
    exists new. rewrite Ht. simpl. rewrite <- app_assoc. reflexivity. }
  destruct Hframe as [new1 Ht1].
  unfold frame_step. unfold bind at 1. unfold lift, get. rewrite Hs.
  match goal with
  | |- context [bind (send_frame W self smp) ?k st] =>
      assert (Hk : forall u, grows (stream_event self) (k u))
  end.
  { intros u. apply grows_bind.
    { destruct (Z.eqb _ _); [apply grows_print; exact I | apply grows_ret]. }
    intros _. apply grows_bind; [apply grows_sleep; reflexivity |].
    intros _. apply grows_ret. }
  unfold bind at 1.
  destruct (send_frame W self smp st) as [[u | e] st1]; simpl in Ht1.
  - destruct (Hk u st1) as (new2 & Ht2 & _).
    exists msg, (new1 ++ new2)%list. split; [exact Hmsg |].
    rewrite Ht2, Ht1, <- app_assoc. reflexivity.
  - exists msg, new1. split; [exact Hmsg | exact Ht1].
Qed.

(** A run that ends is cut off at its end. *)
Lemma sample_loop_reached_end W self fuel :
  forall tok frame_count st r st',
    sample_loop W self fuel tok frame_count st = Some (r, st') ->
    sample_loop_reached W self fuel tok frame_count st = st'.
Proof.
  induction fuel as [| fuel IH]; intros tok frame_count st r st' H; simpl in *.
  - discriminate.
  - destruct (truthy tok && running_at W (clock st)).
    + destruct (frame_step W self tok frame_count st) as [[[next fc] | e] st1].
      * eapply IH. exact H.
      * injection H as _ <-. reflexivity.
    + injection H as _ <-. reflexivity.
Qed.

Lemma scene_loop_reached_end W self fuel scenes :
  forall scene_idx st r st',
    scene_loop W self fuel scene_idx scenes st = Some (r, st') ->
    scene_loop_reached W self fuel scene_idx scenes st = st'.
Proof.
  induction scenes as [| sc rest IH]; intros scene_idx st r st' H;
    cbn [scene_loop scene_loop_reached] in *.
  - injection H as _ <-. reflexivity.
  - match type of H with
    | context [sample_loop W self fuel ?tok 0 ?st1] =>
        destruct (sample_loop W self fuel tok 0 st1) as [[[[] | e] st2] |];
        [| | discriminate]
    end.
    + destruct (negb (running_at W (clock st2))).
      * injection H as _ <-. reflexivity.
      * eapply IH. exact H.
    + injection H as _ <-. reflexivity.
Qed.

(** A run that is cut off has only appended to the trace. *)
Lemma sample_loop_reached_appended W self fuel :
  forall tok frame_count st,
    appended (stream_event self) st (sample_loop_reached W self fuel tok frame_count st).
Proof.
  induction fuel as [| fuel IH]; intros tok frame_count st; simpl.
  - apply appended_refl.
  - destruct (truthy tok && running_at W (clock st)); [| apply appended_refl].
    pose proof (grows_appended _ _ st (frame_step_grows W self tok frame_count)) as Hstep.
    destruct (frame_step W self tok frame_count st) as [[[next fc] | e] st1];
      simpl in Hstep.
    + eapply appended_trans; [exact Hstep | apply IH].
    + exact Hstep.
Qed.

Lemma scene_loop_reached_appended W self fuel scenes :
  forall scene_idx st,
    appended (stream_event self) st (scene_loop_reached W self fuel scene_idx scenes st).
Proof.
  induction scenes as [| sc rest IH]; intros scene_idx st; cbn [scene_loop_reached].
  - apply appended_refl.
  - match goal with
    | |- context [sample_loop W self fuel ?tok 0 ?st1] =>
        assert (Hhead : appended (stream_event self) st st1)
          by (apply appended_emit; exact I);
        destruct (sample_loop W self fuel tok 0 st1) as [[[[] | e] st2] |] eqn:Hloop
    end.
    + pose proof (sample_loop_appended W self fuel _ _ _ _ _ Hloop) as Hin.
      destruct (negb (running_at W (clock st2))).
      * eapply appended_trans; [exact Hhead | exact Hin].
      * eapply appended_trans; [exact Hhead |].
        eapply appended_trans; [exact Hin | apply IH].
    + pose proof (sample_loop_appended W self fuel _ _ _ _ _ Hloop) as Hin.
      eapply appended_trans; [exact Hhead | exact Hin].
    + eapply appended_trans; [exact Hhead | apply sample_loop_reached_appended].
Qed.

Lemma sample_loop_reached_first W self fuel tok frame_count smp st :
  truthy tok = true ->
  running_at W (clock st) = true ->
  sample (ts self) !! tok = Some smp ->
  send_fault W (clock st) = None ->
  exists msg,
    world_to_base_link msg /\
    Send (tf_channel self) (Rec.timestamp smp * 1000) msg
      ∈ trace (sample_loop_reached W self (S fuel) tok frame_count st).
Proof.
  intros Ht Hrun Hs Hf. simpl. rewrite Ht, Hrun. simpl.
  destruct (frame_step_first_message W self tok frame_count smp st Hs Hf)
    as (msg & new & Hmsg & Htr).
  exists msg. split; [exact Hmsg |].
  assert (Hin : Send (tf_channel self) (Rec.timestamp smp * 1000) msg
                  ∈ trace (snd (frame_step W self tok frame_count st))).
  { rewrite Htr. apply elem_of_app. right. left. }
  destruct (frame_step W self tok frame_count st) as [[[next fc] | e] st1];
    simpl in Hin; [| exact Hin].
  eapply trace_member_appended; [apply sample_loop_reached_appended | exact Hin].
Qed.

Lemma scene_loop_reached_first W self fuel sc rest smp st :
  truthy (Rec.first_sample_token sc) = true ->
  running_at W (clock st) = true ->
  sample (ts self) !! Rec.first_sample_token sc = Some smp ->
  send_fault W (clock st) = None ->
  exists msg,
    world_to_base_link msg /\
    Send (tf_channel self) (Rec.timestamp smp * 1000) msg
      ∈ trace (scene_loop_reached W self (S fuel) 0 (sc :: rest) st).
Proof.
  intros Ht Hrun Hs Hf. cbn [scene_loop_reached].
  match goal with
  | |- context [sample_loop W self (S fuel) ?tok 0 ?st1] =>
      destruct (sample_loop_reached_first W self fuel tok 0 smp st1 Ht Hrun Hs Hf)
        as (msg & Hmsg & Hin);
      destruct (sample_loop W self (S fuel) tok 0 st1) as [[res st2] |] eqn:Hloop
  end.
  - apply sample_loop_reached_end in Hloop. rewrite Hloop in Hin.
    exists msg. split; [exact Hmsg |].
    destruct res as [[] | e]; [| exact Hin].
    destruct (negb (running_at W (clock st2))); [exact Hin |].
    eapply trace_member_appended; [apply scene_loop_reached_appended | exact Hin].
  - exists msg. split; [exact Hmsg | exact Hin].
Qed.

Lemma stream_data_reached_first W self fuel sc rest smp st :
  scene (ts self) = sc :: rest ->
  truthy (Rec.first_sample_token sc) = true ->
  running_at W (clock st) = true ->
  sample (ts self) !! Rec.first_sample_token sc = Some smp ->
  send_fault W (clock st) = None ->
  exists msg,
    world_to_base_link msg /\
    Send (tf_channel self) (Rec.timestamp smp * 1000) msg
      ∈ trace (stream_data_reached W self (S fuel) st).
Proof.
  intros Hsc Ht Hrun Hs Hf.
  destruct (scene_loop_reached_first W self fuel sc rest smp st Ht Hrun Hs Hf)
    as (msg & Hmsg & Hin).
  exists msg. split; [exact Hmsg |].
  unfold stream_data_reached, stream_data. rewrite Hsc.
  destruct (scene_loop W self (S fuel) 0 (sc :: rest) st) as [[res st2] |] eqn:Hloop;
    [| exact Hin].
  apply scene_loop_reached_end in Hloop. rewrite Hloop in Hin.
  destruct res as [[] | e]; [| exact Hin].
  unfold print. simpl. apply elem_of_app. left. exact Hin.
Qed.

(** X6 -- [_run_server] raises [self.running] right before it starts to
    stream, with no await in between: whatever the flag was before, when
    the first scene has a first sample and the transform send does not
    raise, the first frame is started and its transform from [world] to
    [base_link] is sent.  That holds of every run, whether it ends or
    not: the message is in the trace of the run cut off after any
    positive number of frames, and a run that ends is cut off at its
    end. *)
Theorem first_frame_is_always_started W (dataset : TruckScenes) (port : Z) fuel
    sc rest smp :
  scene dataset = sc :: rest ->
  truthy (Rec.first_sample_token sc) = true ->
  sample dataset !! Rec.first_sample_token sc = Some smp ->
  send_fault W (Server.next_channel_id
                  (snd (fst (register_channels dataset port Server.fresh)))) = None ->
  (0 < fuel)%nat ->
  (exists msg,
     world_to_base_link msg /\
     Send (tf_channel (fst (fst (register_channels dataset port Server.fresh))))
          (Rec.timestamp smp * 1000) msg
       ∈ trace (run_server_reached W dataset port fuel)) /\
  (forall r st',
     run_server W dataset port fuel = Some (r, st') ->
     run_server_reached W dataset port fuel = st').
Proof.
  intros Hsc Ht Hs Hf Hfuel. split.
  - destruct fuel as [| fuel]; [lia |].
    unfold run_server_reached. cbv zeta.
    eapply stream_data_reached_first; [| exact Ht | | |].
    + exact Hsc.
    + unfold raise_flag, set_running. cbn [running_at clock].
      rewrite Nat.eqb_refl. reflexivity.
    + exact Hs.
    + exact Hf.
  - intros r st'. unfold run_server, run_server_reached, stream_data_reached. cbv zeta.
    intros ->. reflexivity.
Qed.

Lemma first_frame_is_always_started_witness :
  run_server Demo.world0 Demo4.dataset_loop 8765 5 = None /\
  exists msg,
    world_to_base_link msg /\
    Send 4 1700000000000000000 msg
      ∈ trace (run_server_reached Demo.world0
                 Demo4.dataset_loop 8765 5).
Proof.
  split; [vm_compute; reflexivity |].
  destruct (first_frame_is_always_started
              Demo.world0 Demo4.dataset_loop 8765 5
              _ _ Demo4.looping_sample eq_refl eq_refl ltac:(vm_compute; reflexivity)
              eq_refl ltac:(lia)) as [Hsent _].
  exact Hsent.
Defined.

(** ** The colour ramp, once more *)

(** X7 -- whatever the RCS value, the colour of a radar point is a valid
    one: red, green and blue lie between 0 and 1 and alpha is 1. *)
Theorem rcs_color_in_unit_range (rcs : Q) :
  (0 <= Radar.red (Radar.rcs_color rcs) <= 1 /\
   0 <= Radar.green (Radar.rcs_color rcs) <= 1 /\
   0 <= Radar.blue (Radar.rcs_color rcs) <= 1 /\
   Radar.alpha (Radar.rcs_color rcs) == 1)%Q.
Proof.
  pose proof (rcs_norm_range rcs) as [Hl Hu].
  unfold Radar.rcs_color.
  case_Qltb; simpl; repeat split; lra.
Qed.






(** ** Point clouds that cannot be drawn *)

Lemma getitem_row_out pc r i :
  (shape0 pc <= r)%nat ->
  getitem pc r i = Raise (Exception "IndexError" "index out of bounds").
Proof.
  intros H. unfold getitem.
  destruct (r <? shape0 pc)%nat eqn:E; [apply Nat.ltb_lt in E; lia | reflexivity].
Qed.

Lemma lidar_sphere_short pc i :
  (shape0 pc < 3)%nat ->
  lidar_sphere pc i = Raise (Exception "IndexError" "index out of bounds").
Proof.
  intros H. unfold lidar_sphere.
  destruct (getitem pc 0 i) as [px | e] eqn:H0.
  2:{ unfold getitem in H0. destruct (_ && _); [discriminate | congruence]. }
  destruct (getitem pc 1 i) as [py | e] eqn:H1.
  2:{ unfold getitem in H1. destruct (_ && _); [discriminate | congruence]. }
  rewrite getitem_row_out by lia. reflexivity.
Qed.

Lemma radar_sphere_short pc i :
  (shape0 pc < 7)%nat ->
  radar_sphere pc i = Raise (Exception "IndexError" "index out of bounds").
Proof.
  intros H. unfold radar_sphere. rewrite getitem_row_out by lia. reflexivity.
Qed.

(** X9 -- a decoded array that has points but lacks a row the routine
    reads (fewer than three rows for lidar, fewer than seven for radar,
    whose RCS is row 6) is not published at all: the index error is
    caught and printed, and nothing is sent for that sensor. *)
Theorem pointcloud_with_missing_rows W self channel sd_token timestamp is_lidar st
    path pc :
  get_sample_data_path (ts self) sd_token = Ok path ->
  from_file W is_lidar path = Ok pc ->
  (shape0 pc < (if is_lidar then 3 else 7))%nat ->
  (0 < shape1 pc)%nat ->
  exists e,
    exn_class e = "IndexError" /\
    send_pointcloud W self channel sd_token timestamp is_lidar st
    = (Ok tt, emit (Print (fstr ["Pointcloud error "; channel; ": "; exn_str e])) st).
Proof.
  intros Hpath Hpc Hrows Hcols.
  exists (Exception "IndexError" "index out of bounds"). split; [reflexivity |].
  rewrite send_pointcloud_total.
  unfold caught, send_pointcloud_body, bind, lift. rewrite Hpath.
  assert (Hsp : pointcloud_spheres W path is_lidar
                = Raise (Exception "IndexError" "index out of bounds")).
  { unfold pointcloud_spheres, from_file in *.
    destruct is_lidar; rewrite Hpc; cbv zeta.
    - destruct (Nat.min (shape1 pc) 3000) as [| n] eqn:En; [lia |].
      rewrite <- cons_seq. simpl. rewrite lidar_sphere_short by exact Hrows. reflexivity.
    - destruct (Nat.min (shape1 pc) 800) as [| n] eqn:En; [lia |].
      rewrite <- cons_seq. simpl. rewrite radar_sphere_short by exact Hrows. reflexivity. }
  rewrite Hsp. reflexivity.
Qed.

Lemma pointcloud_with_missing_rows_witness :
  exists e,
    exn_class e = "IndexError" /\
    send_pointcloud Demo2.world_short_radar Demo.streamer "RADAR_LEFT_FRONT" "rad1"
      1700000000000000 false Demo.start
    = (Ok tt,
       emit (Print (fstr ["Pointcloud error "; "RADAR_LEFT_FRONT"; ": "; exn_str e]))
         Demo.start).
Proof.
  apply (pointcloud_with_missing_rows Demo2.world_short_radar Demo.streamer
           "RADAR_LEFT_FRONT" "rad1" 1700000000000000 false Demo.start
           "/data/rad1" Demo2.short_radar).
  - reflexivity.
  - reflexivity.
  - simpl. lia.
  - simpl. lia.
Defined.

(** ** What a camera frame looks like *)

(** X10 -- [_send_camera] publishes at most two messages and the image
    comes first: its output is an error line alone, or the image alone
    (no [_info] channel), or the image followed by the calibration on the
    [_info] channel, or the image followed by an error line. *)
Theorem camera_publishes_image_first W self channel sd_token timestamp st :
  let new := emitted st (snd (send_camera W self channel sd_token timestamp st)) in
  (exists line, new = [Print line]) \/
  exists chan bytes,
    channels self !! channel = Some chan /\
    let image := Send chan (timestamp * 1000)
                   (image_message timestamp (Base64.b64encode bytes)) in
    (channels self !! fstr [channel; "_info"] = None /\ new = [image]) \/
    (exists info_chan,
       channels self !! fstr [channel; "_info"] = Some info_chan /\
       new = [image; Send info_chan (timestamp * 1000) (camera_info timestamp)]) \/
    (exists line, new = [image; Print line]).
Proof.
  cbv zeta. rewrite send_camera_total.
  unfold caught, send_camera_body, bind, lift, channel_id.
  destruct (get_sample_data_path (ts self) sd_token) as [path | e].
  2:{ left. eexists. apply emitted_app. reflexivity. }
  destruct (read_file W path) as [bytes | e].
  2:{ left. eexists. apply emitted_app. reflexivity. }
  destruct (channels self !! channel) as [c |] eqn:Hc.
  2:{ left. eexists. apply emitted_app. reflexivity. }
  unfold send_message.
  destruct (send_fault W (clock st)) as [e |].
  { left. eexists. apply emitted_app. reflexivity. }
  right. exists c, bytes. split; [reflexivity |].
  destruct (channels self !! fstr [channel; "_info"]) as [info_chan |].
  - simpl.
    destruct (send_fault W (S (clock st))) as [e |].
    + right. right. eexists. apply emitted_app. simpl. rewrite <- app_assoc. reflexivity.
    + right. left. exists info_chan. split; [reflexivity |].
      apply emitted_app. simpl. rewrite <- app_assoc. reflexivity.
  - left. split; [reflexivity |]. apply emitted_app. reflexivity.
Qed.

(** ** Annotations that cannot be drawn *)

Lemma collect_raises {A B : Type} (f : A -> result B) (l : list A) (a : A) (e0 : exn) :
  a ∈ l -> f a = Raise e0 -> exists e, collect f l = Raise e.
Proof.
  induction l as [| x l IH]; intros Hin Hfa.
  - apply elem_of_nil in Hin. destruct Hin.
  - simpl. destruct (f x) as [b | e] eqn:Hfx; [| eexists; reflexivity].
    apply elem_of_cons in Hin as [-> | Hin]; [congruence |].
    destruct (IH Hin Hfa) as [e ->]. eexists; reflexivity.
Qed.

(** X11 -- the boxes of a frame are published all together or not at
    all: when one token of [sample['anns']] is missing from the
    annotation table, no message is sent for the frame, not even for the
    annotations that are fine. *)
Theorem annotations_are_all_or_nothing W self (sample : Rec.sample) timestamp st
    ann_token e :
  ann_token ∈ Rec.anns sample ->
  sample_annotation (ts self) !! ann_token = None ->
  e ∈ emitted st (snd (send_annotations W self sample timestamp st)) ->
  is_send e = false.
Proof.
  intros Hin Hlost.
  rewrite send_annotations_total.
  unfold caught, send_annotations_body, bind, lift.
  destruct (py_or _ _) as [tok |].
  2:{ unfold ret. simpl. rewrite emitted_same. intros H. apply elem_of_nil in H. destruct H. }
  destruct (truthy tok).
  2:{ unfold ret. simpl. rewrite emitted_same. intros H. apply elem_of_nil in H. destruct H. }
  destruct (get (sample_data (ts self)) tok) as [sd | e1].
  2:{ rewrite (emitted_app st _ [Print _]) by reflexivity.
      intros H. apply list_elem_of_singleton in H. subst. reflexivity. }
  destruct (get (ego_pose (ts self)) (Rec.ego_pose_token sd)) as [ego | e1].
  2:{ rewrite (emitted_app st _ [Print _]) by reflexivity.
      intros H. apply list_elem_of_singleton in H. subst. reflexivity. }
  assert (Hbox : annotation_box self ego ann_token
                 = Raise (Exception "KeyError" (fstr ["'"; ann_token; "'"]))).
  { unfold annotation_box, get. rewrite Hlost. reflexivity. }
  destruct (collect_raises _ _ _ _ Hin Hbox) as [e1 ->].
  rewrite (emitted_app st _ [Print _]) by reflexivity.
  intros H. apply list_elem_of_singleton in H. subst. reflexivity.
Qed.

Lemma annotations_are_all_or_nothing_witness :
  emitted Demo.start
    (snd (send_annotations Demo.world0 Demo.streamer Demo3.sample_bad_annotation
            1700000000000000 Demo.start))
  = [Print "Annotations error: 'a-lost'"] /\
  is_send (Print "Annotations error: 'a-lost'") = false.
Proof.
  assert (Hnew : emitted Demo.start
            (snd (send_annotations Demo.world0 Demo.streamer Demo3.sample_bad_annotation
                    1700000000000000 Demo.start))
          = [Print "Annotations error: 'a-lost'"]) by (vm_compute; reflexivity).
  split; [exact Hnew |].
  apply (annotations_are_all_or_nothing Demo.world0 Demo.streamer
           Demo3.sample_bad_annotation 1700000000000000 Demo.start "a-lost").
  - right. left.
  - vm_compute. reflexivity.
  - rewrite Hnew. left.
Defined.

(** X12 -- an ego pose whose rotation is the zero quaternion cannot be
    inverted: with at least one annotation the frame's annotations are
    replaced by an error line, with none the routine stays silent; in
    neither case is anything sent. *)
Theorem zero_ego_rotation_publishes_nothing W self (sample : Rec.sample) timestamp st
    tok sd ego :
  py_or (assoc_get "LIDAR_LEFT" (Rec.data sample))
        (assoc_get "LIDAR_TOP_FRONT" (Rec.data sample)) = Some tok ->
  truthy tok = true ->
  sample_data (ts self) !! tok = Some sd ->
  ego_pose (ts self) !! Rec.ego_pose_token sd = Some ego ->
  (Quaternion.sum_of_squares (Rec.ego_rotation ego) == 0)%Q ->
  (Rec.anns sample = [] ->
   send_annotations W self sample timestamp st = (Ok tt, st)) /\
  (Rec.anns sample <> [] ->
   exists e,
     send_annotations W self sample timestamp st
     = (Ok tt, emit (Print (fstr ["Annotations error: "; exn_str e])) st)).
Proof.
  intros Htok Htruthy Hsd Hego Hzero.
  rewrite send_annotations_total.
  unfold caught, send_annotations_body, bind, lift.
  rewrite Htok, Htruthy. unfold get. rewrite Hsd, Hego.
  split.
  - intros ->. reflexivity.
  - intros Hne. destruct (Rec.anns sample) as [| a l]; [congruence |].
    assert (Hbox : exists e, annotation_box self ego a = Raise e).
    { unfold annotation_box.
      destruct (get (sample_annotation (ts self)) a) as [ann | e1]; [| eexists; reflexivity].
      destruct (get (instance (ts self)) _) as [inst | e1]; [| eexists; reflexivity].
      destruct (get (category (ts self)) _) as [cat | e1]; [| eexists; reflexivity].
      unfold Quaternion.inverse.
      destruct (Qltb 0 (Quaternion.sum_of_squares (Rec.ego_rotation ego))) eqn:Hlt.
      - apply Qltb_true in Hlt. lra.
      - eexists; reflexivity. }
    destruct Hbox as [e Hbox]. exists e. simpl. rewrite Hbox. reflexivity.
Qed.

Lemma zero_ego_rotation_publishes_nothing_witness :
  exists e,
    send_annotations Demo.world0 Demo3.streamer_zero_rotation Demo.sample1
      1700000000000000 Demo.start
    = (Ok tt, emit (Print (fstr ["Annotations error: "; exn_str e])) Demo.start).
Proof.
  destruct (zero_ego_rotation_publishes_nothing Demo.world0 Demo3.streamer_zero_rotation
              Demo.sample1 1700000000000000 Demo.start "lid1"
              {| Rec.ego_pose_token := "e1" |}
              {| Rec.ego_translation := Vec3 1 2 0;
                 Rec.ego_rotation := Quaternion.mk 0 0 0 0 |})
    as [_ H].
  - reflexivity.
  - reflexivity.
  - vm_compute. reflexivity.
  - vm_compute. reflexivity.
  - reflexivity.
  - apply H. discriminate.
Defined.

(** X13 -- the published position can be taken back to the global frame:
    rotating it by the ego rotation and adding the ego translation gives
    the annotation's own translation, coordinate by coordinate. *)
Theorem ego_frame_round_trip self ego ann_token box :
  annotation_box self ego ann_token = Ok box ->
  exists ann pos,
    sample_annotation (ts self) !! ann_token = Some ann /\
    json_at ["pose"; "position"] (fst box)
    = Some (xyz_float (v0 pos) (v1 pos) (v2 pos)) /\
    let back := Quaternion.rotate (Rec.ego_rotation ego) pos in
    (v0 back + v0 (Rec.ego_translation ego) == v0 (Rec.translation ann) /\
     v1 back + v1 (Rec.ego_translation ego) == v1 (Rec.translation ann) /\
     v2 back + v2 (Rec.ego_translation ego) == v2 (Rec.translation ann))%Q.
Proof.
  intros Hbox.
  destruct (annotation_box_inv self ego ann_token box Hbox)
    as (ann & inst & cat & inv & Ha & _ & _ & Hq & ->).
  exists ann, (Quaternion.rotate inv
                 (vec3_sub (Rec.translation ann) (Rec.ego_translation ego))).
  split; [exact Ha |]. split; [reflexivity |].
  destruct (rotate_inverse (Rec.ego_rotation ego) inv
              (vec3_sub (Rec.translation ann) (Rec.ego_translation ego)) Hq)
    as (H0 & H1 & H2).
  cbv zeta. rewrite H0, H1, H2. unfold vec3_sub. simpl.
  repeat split; ring.
Qed.

Lemma ego_frame_round_trip_witness :
  exists box ann pos,
    annotation_box Demo.streamer Demo3.ego1 "a1" = Ok box /\
    sample_annotation Demo.dataset !! "a1" = Some ann /\
    (v0 (Quaternion.rotate (Rec.ego_rotation Demo3.ego1) pos)
     + v0 (Rec.ego_translation Demo3.ego1) == v0 (Rec.translation ann))%Q.
Proof.
  assert (H : exists box, annotation_box Demo.streamer Demo3.ego1 "a1" = Ok box).
  { vm_compute. eexists. reflexivity. }
  destruct H as [box H].
  destruct (ego_frame_round_trip Demo.streamer Demo3.ego1 "a1" box H)
    as (ann & pos & Ha & _ & H0 & _).
  exists box, ann, pos. split; [exact H |]. split; [exact Ha | exact H0].
Defined.

(** ** Broken and endless chains *)

(** X14 -- a token that is in no sample record ends the stream: at the
    head of the [while] loop the lookup raises [KeyError], nothing
    handles it, and when it is the first token of the first scene
    [_stream_data] ends with that exception right after the scene header,
    without its closing line. *)
Theorem dangling_token_ends_the_stream W self tok :
  truthy tok = true ->
  sample (ts self) !! tok = None ->
  (forall fuel frame_count st,
     running_at W (clock st) = true ->
     sample_loop W self (S fuel) tok frame_count st
     = Some (Raise (Exception "KeyError" (fstr ["'"; tok; "'"])), st)) /\
  (forall fuel sc rest st,
     scene (ts self) = sc :: rest ->
     Rec.first_sample_token sc = tok ->
     running_at W (clock st) = true ->
     stream_data W self (S fuel) st
     = Some (Raise (Exception "KeyError" (fstr ["'"; tok; "'"])),
             emit (Print (fstr ["Streaming scene "; str_int 1; "/";
                                str_int (Z.of_nat (length (scene (ts self))))])) st)).
Proof.
  intros Ht Hs.
  assert (Hloop : forall fuel frame_count st,
    running_at W (clock st) = true ->
    sample_loop W self (S fuel) tok frame_count st
    = Some (Raise (Exception "KeyError" (fstr ["'"; tok; "'"])), st)).
  { intros fuel frame_count st Hrun. simpl. rewrite Ht, Hrun. simpl.
    unfold frame_step, bind, lift, get. rewrite Hs. reflexivity. }
  split; [exact Hloop |].
  intros fuel sc rest st Hsc Hfirst Hrun.
  unfold stream_data.
  assert (Hgen : forall scenes, scenes = sc :: rest ->
    scene_loop W self (S fuel) 0 scenes st
    = Some (Raise (Exception "KeyError" (fstr ["'"; tok; "'"])),
            emit (Print (fstr ["Streaming scene "; str_int 1; "/";
                               str_int (Z.of_nat (length (scene (ts self))))])) st)).
  { intros scenes ->. cbn [scene_loop]. rewrite Hfirst.
    rewrite Hloop by exact Hrun. reflexivity. }
  rewrite (Hgen _ Hsc). reflexivity.
Qed.

Lemma dangling_token_ends_the_stream_witness :
  sample_loop Demo.world0 Demo.streamer 1 "s9" 0 Demo.start
  = Some (Raise (Exception "KeyError" "'s9'"), Demo.start).
Proof.
  destruct (dangling_token_ends_the_stream Demo.world0 Demo.streamer "s9")
    as [H _].
  - reflexivity.
  - vm_compute. reflexivity.
  - apply (H 0%nat 0 Demo.start). reflexivity.
Defined.

(** X15 -- the loop has no guard against cycles: from a token of a set
    of tokens that [next] never leaves (each one non-empty and in the
    sample table), with the flag up and no send raising, the [while] loop
    does not return, however many turns it is given. *)
Theorem closed_chain_never_ends W self (inside : string -> Prop) :
  (forall c, running_at W c = true) ->
  (forall c, send_fault W c = None) ->
  (forall t, inside t ->
     truthy t = true /\
     exists smp, sample (ts self) !! t = Some smp /\ inside (Rec.next smp)) ->
  forall fuel tok frame_count st,
    inside tok ->
    sample_loop W self fuel tok frame_count st = None.
Proof.
  intros Hrun Hsend Hclosed. induction fuel as [| fuel IH];
    intros tok frame_count st Hin; [reflexivity |].
  destruct (Hclosed tok Hin) as (Ht & smp & Hs & Hnext).
  simpl. rewrite Ht, Hrun. simpl.
  pose proof (frame_step_result W self tok frame_count st) as Hr.
  unfold get in Hr. rewrite Hs in Hr.
  destruct (send_transforms_ok W self (Rec.timestamp smp) st (Hsend _))
    as (msg & Hok & _).
  rewrite Hok in Hr. simpl in Hr.
  destruct (frame_step W self tok frame_count st) as [[[next fc] | e] st1];
    simpl in Hr; [| discriminate].
  injection Hr as -> ->. apply IH. exact Hnext.
Qed.

Lemma closed_chain_never_ends_witness :
  sample_loop Demo.world0 Demo4.streamer_loop 1000 "s1" 0 Demo.start = None.
Proof.
  apply (closed_chain_never_ends Demo.world0 Demo4.streamer_loop (fun t => t = "s1")).
  - intros c. reflexivity.
  - intros c. reflexivity.
  - intros t ->. split; [reflexivity |].
    exists Demo4.looping_sample. split; [vm_compute; reflexivity | reflexivity].
  - reflexivity.
Defined.

(** ** Pacing *)









(** ** The command line, once more *)



(** A streamer that raises while it runs: the exception leaves [main]
    after the stream was started. *)
Example cli_streamer_exception_is_uncaught :
  CLI.main DemoCLI2.machine_failing_streamer (DemoCLI.streaming_with_scene 0) =
  ([CLI.Print "Loading TruckScenes v1.1-mini from /data/man-truckscenes...";
    CLI.Print "Starting Foxglove WebSocket server on port 8765...";
    CLI.Print "Connect Foxglove Studio to ws://localhost:8765";
    CLI.RunStreamer 8765],
   CLI.Uncaught (Exception "KeyError" "'s9'")).
Proof. reflexivity. Qed.

(** X18 -- options that are not looked at: in streaming mode [main] does
    the same whatever scene index and sample token are given, and in
    visualization mode a non-empty sample token is rendered whatever
    scene index comes with it. *)
Theorem selection_is_ignored (o : CLI.os) (a : CLI.args) :
  (CLI.foxglove a = true ->
   forall scene sample, CLI.main o (with_selection scene sample a) = CLI.main o a) /\
  (forall ds tok,
     truthy tok = true ->
     forall scene,
       CLI.run_visualization ds (with_selection scene (Some tok) a)
       = ([CLI.Print (fstr ["Rendering sample: "; tok]); CLI.RenderSample tok],
          CLI.Returned)).
Proof.
  split.
  - intros Hfox scene sample. unfold CLI.main, with_selection. simpl.
    rewrite Hfox. reflexivity.
  - intros ds tok Htok scene. unfold CLI.run_visualization, with_selection. simpl.
    rewrite Htok. reflexivity.
Qed.

Lemma selection_is_ignored_witness :
  CLI.main DemoCLI.machine (with_selection (Some 7) (Some "x") (DemoCLI.streaming_with_scene 99))
  = CLI.main DemoCLI.machine (DemoCLI.streaming_with_scene 99).
Proof.
  destruct (selection_is_ignored DemoCLI.machine (DemoCLI.streaming_with_scene 99))
    as [H _].
  apply H. reflexivity.
Defined.

Lemma list_index_in_range {A : Type} (l : list A) (i : Z) :
  0 <= i < Z.of_nat (length l) ->
  exists x, l !! Z.to_nat i = Some x /\ CLI.list_index l i = Ok x.
Proof.
  intros H. unfold CLI.list_index.
  assert (Hlt : (Z.to_nat i < length l)%nat) by lia.
  destruct (lookup_lt_is_Some_2 l _ Hlt) as [x Hx].
  exists x. split; [exact Hx |].
  destruct (Z.ltb i 0) eqn:E0; [apply Z.ltb_lt in E0; lia |].
  destruct (Z.leb 0 i) eqn:E1; [| apply Z.leb_gt in E1; lia].
  destruct (Z.ltb i (Z.of_nat (length l))) eqn:E2; [| apply Z.ltb_ge in E2; lia].
  simpl. rewrite Hx. reflexivity.
Qed.

Lemma list_index_negative {A : Type} (l : list A) (i : Z) :
  - Z.of_nat (length l) <= i < 0 ->
  exists x, l !! Z.to_nat (i + Z.of_nat (length l)) = Some x /\
            CLI.list_index l i = Ok x.
Proof.
  intros H. unfold CLI.list_index.
  assert (Hlt : (Z.to_nat (i + Z.of_nat (length l)) < length l)%nat) by lia.
  destruct (lookup_lt_is_Some_2 l _ Hlt) as [x Hx].
  exists x. split; [exact Hx |].
  destruct (Z.ltb i 0) eqn:E0; [| apply Z.ltb_ge in E0; lia].
  destruct (Z.leb 0 (i + Z.of_nat (length l))) eqn:E1; [| apply Z.leb_gt in E1; lia].
  destruct (Z.ltb (i + Z.of_nat (length l)) (Z.of_nat (length l))) eqn:E2;
    [| apply Z.ltb_ge in E2; lia].
  simpl. rewrite Hx. reflexivity.
Qed.

Lemma list_index_below {A : Type} (l : list A) (i : Z) :
  i < - Z.of_nat (length l) ->
  CLI.list_index l i = Raise (Exception "IndexError" "list index out of range").
Proof.
  intros H. unfold CLI.list_index.
  destruct (Z.ltb i 0) eqn:E0; [| apply Z.ltb_ge in E0; lia].
  destruct (Z.leb 0 (i + Z.of_nat (length l))) eqn:E1; [apply Z.leb_le in E1; lia |].
  reflexivity.
Qed.

(** X19 -- which scene [--scene idx] renders, without a sample token: for
    [0 <= idx < n] the scene at position [idx]; for [-n <= idx < 0] the
    guard [idx < n] lets the index through and Python counts from the
    end, so the scene at position [n + idx] is rendered; for [idx < -n]
    the indexing raises [IndexError], which nothing handles. *)
Theorem scene_index_selection (ds : TruckScenes) (a : CLI.args) (idx : Z) :
  truthy_opt (CLI.sample a) = false ->
  CLI.scene a = Some idx ->
  let n := Z.of_nat (length (scene ds)) in
  (0 <= idx < n ->
   exists sc,
     scene ds !! Z.to_nat idx = Some sc /\
     CLI.run_visualization ds a
     = ([CLI.Print (fstr ["Rendering scene "; str_int idx; ": "; Rec.scene_token sc]);
         CLI.RenderScene (Rec.scene_token sc)], CLI.Returned)) /\
  (- n <= idx < 0 ->
   exists sc,
     scene ds !! Z.to_nat (idx + n) = Some sc /\
     CLI.run_visualization ds a
     = ([CLI.Print (fstr ["Rendering scene "; str_int idx; ": "; Rec.scene_token sc]);
         CLI.RenderScene (Rec.scene_token sc)], CLI.Returned)) /\
  (idx < - n ->
   CLI.run_visualization ds a
   = ([], CLI.Uncaught (Exception "IndexError" "list index out of range"))).
Proof.
  intros Hs Hscene n.
  unfold CLI.run_visualization. rewrite Hs, Hscene. unfold scene_table. fold n.
  split; [| split]; intros Hidx.
  - destruct (list_index_in_range (scene ds) idx Hidx) as (sc & Hsc & Hix).
    exists sc. split; [exact Hsc |].
    destruct (Z.ltb idx n) eqn:E; [| apply Z.ltb_ge in E; lia].
    rewrite Hix. reflexivity.
  - destruct (list_index_negative (scene ds) idx Hidx) as (sc & Hsc & Hix).
    exists sc. split; [exact Hsc |].
    destruct (Z.ltb idx n) eqn:E; [| apply Z.ltb_ge in E; lia].
    rewrite Hix. reflexivity.
  - destruct (Z.ltb idx n) eqn:E; [| apply Z.ltb_ge in E; lia].
    rewrite (list_index_below (scene ds) idx Hidx). reflexivity.
Qed.

Lemma scene_index_selection_witness :
  CLI.run_visualization Demo.dataset (DemoCLI.with_scene (-3))
  = ([], CLI.Uncaught (Exception "IndexError" "list index out of range")) /\
  exists sc,
    scene Demo.dataset !! Z.to_nat (-2 + 2) = Some sc /\
    CLI.run_visualization Demo.dataset (DemoCLI.with_scene (-2))
    = ([CLI.Print (fstr ["Rendering scene "; str_int (-2); ": "; Rec.scene_token sc]);
        CLI.RenderScene (Rec.scene_token sc)], CLI.Returned).
Proof.
  split.
  - destruct (scene_index_selection Demo.dataset (DemoCLI.with_scene (-3)) (-3)
                eq_refl eq_refl) as (_ & _ & H).
    apply H. simpl. lia.
  - destruct (scene_index_selection Demo.dataset (DemoCLI.with_scene (-2)) (-2)
                eq_refl eq_refl) as (_ & H & _).
    apply H. simpl. lia.
Defined.

(** X20 -- on a dataset without scenes the visualization never renders
    unless a sample token is given: without a scene index and with any
    index from 0 up it exits with code 1, with a negative index the
    indexing raises. *)
Theorem no_scenes_nothing_rendered (ds : TruckScenes) (a : CLI.args) :
  scene ds = [] ->
  truthy_opt (CLI.sample a) = false ->
  existsb CLI.shows (fst (CLI.run_visualization ds a)) = false /\
  match CLI.scene a with
  | None => CLI.run_visualization ds a = ([CLI.Print "No scenes available!"], CLI.Exit 1)
  | Some idx =>
      if Z.ltb idx 0
      then snd (CLI.run_visualization ds a)
           = CLI.Uncaught (Exception "IndexError" "list index out of range")
      else snd (CLI.run_visualization ds a) = CLI.Exit 1
  end.
Proof.
  intros Hempty Hs. unfold CLI.run_visualization, scene_table.
  rewrite Hs, Hempty. destruct (CLI.scene a) as [idx |]; [| split; reflexivity].
  cbn [length]. change (Z.of_nat 0) with 0.
  destruct (Z.ltb idx 0) eqn:E.
  - apply Z.ltb_lt in E.
    rewrite (list_index_below (@nil Rec.scene) idx) by (simpl; lia).
    split; reflexivity.
  - split; reflexivity.
Qed.

Lemma no_scenes_nothing_rendered_witness :
  CLI.run_visualization Demo5.dataset_no_scenes (DemoCLI.with_scene 0)
  = ([CLI.Print "Error: Scene index 0 out of range (0--1)"], CLI.Exit 1) /\
  existsb CLI.shows
    (fst (CLI.run_visualization Demo5.dataset_no_scenes (DemoCLI.with_scene 0))) = false.
Proof.
  split; [reflexivity |].
  destruct (no_scenes_nothing_rendered Demo5.dataset_no_scenes (DemoCLI.with_scene 0)
              eq_refl eq_refl) as [H _].
  exact H.
Defined.

(** ** Labels and colours of the boxes *)

Lemma append_assoc (a b c : string) :
  String.append (String.append a b) c = String.append a (String.append b c).
Proof.
  induction a as [| x a IH]; [reflexivity |].
  change (String x (String.append (String.append a b) c)
          = String x (String.append a (String.append b c))).
  rewrite IH. reflexivity.
Qed.

Lemma no_dot_append (a b : string) :
  no_dot (String.append a b) = no_dot a && no_dot b.
Proof.
  induction a as [| x a IH]; [reflexivity |].
  change (negb (Ascii.eqb x "."%char) && no_dot (String.append a b)
          = negb (Ascii.eqb x "."%char) && no_dot a && no_dot b).
  rewrite IH, andb_assoc. reflexivity.
Qed.

Lemma last_segment_from_no_dot (s acc : string) :
  no_dot s = true -> last_segment_from acc s = String.append acc s.
Proof.
  revert acc. induction s as [| c s IH]; intros acc H.
  - induction acc as [| x acc IHa]; [reflexivity |].
    change (String x acc = String x (String.append acc EmptyString)).
    rewrite <- IHa. reflexivity.
  - cbn [no_dot] in H. apply andb_true_iff in H as [Hc Hs]. apply negb_true_iff in Hc.
    cbn [last_segment_from]. rewrite Hc, (IH _ Hs), append_assoc. reflexivity.
Qed.

Lemma last_segment_from_dot (p s acc : string) :
  last_segment_from acc (String.append p (String "."%char s))
  = last_segment_from EmptyString s.
Proof.
  revert acc. induction p as [| c p IH]; intros acc.
  - reflexivity.
  - change (String.append (String c p) (String "."%char s))
      with (String c (String.append p (String "."%char s))).
    cbn [last_segment_from]. destruct (Ascii.eqb c "."%char); apply IH.
Qed.

Lemma last_segment_from_has_no_dot (s acc : string) :
  no_dot acc = true -> no_dot (last_segment_from acc s) = true.
Proof.
  revert acc. induction s as [| c s IH]; intros acc H; [exact H |].
  cbn [last_segment_from]. destruct (Ascii.eqb c "."%char) eqn:Hc.
  - apply IH. reflexivity.
  - apply IH. rewrite no_dot_append, H. cbn [no_dot]. rewrite Hc. reflexivity.
Qed.

(** X21 -- the text above a box is the last dot-separated component of
    the category name: for [prefix.s] with no dot in [s] it is [s], for a
    name without dots it is the name itself, and in every case it holds
    no dot. *)
Theorem label_text_is_last_component (pos size : vec3) :
  (forall prefix s,
     no_dot s = true ->
     json_field "text" (label pos size (String.append prefix (String "."%char s)))
     = Some (JStr s)) /\
  (forall name,
     no_dot name = true ->
     json_field "text" (label pos size name) = Some (JStr name)) /\
  (forall name,
     exists s,
       json_field "text" (label pos size name) = Some (JStr s) /\ no_dot s = true).
Proof.
  split; [| split].
  - intros prefix s Hs. simpl. unfold last_segment.
    rewrite last_segment_from_dot, (last_segment_from_no_dot s EmptyString Hs).
    reflexivity.
  - intros name Hn. simpl. unfold last_segment.
    rewrite (last_segment_from_no_dot name EmptyString Hn). reflexivity.
  - intros name. exists (last_segment name). split; [reflexivity |].
    apply last_segment_from_has_no_dot. reflexivity.
Qed.

Lemma label_text_is_last_component_witness :
  json_field "text" (label (Vec3 0 0 0) (Vec3 1 1 1) "human.pedestrian.adult")
  = Some (JStr "adult").
Proof.
  destruct (label_text_is_last_component (Vec3 0 0 0) (Vec3 1 1 1)) as [H _].
  apply (H "human.pedestrian" "adult"). reflexivity.
Defined.

(** X22 -- whatever the category name, known or not, the colour of its
    box is a valid one and translucent: red, green and blue lie between
    0 and 1 and alpha is 0.7. *)
Theorem category_color_is_translucent (category_name : string) :
  (0 <= Radar.red (category_color category_name) <= 1 /\
   0 <= Radar.green (category_color category_name) <= 1 /\
   0 <= Radar.blue (category_color category_name) <= 1 /\
   Radar.alpha (category_color category_name) == 7 # 10)%Q.
Proof.
  unfold category_color, CATEGORY_COLORS. simpl.
  repeat match goal with
         | |- context [String.eqb category_name ?k] =>
             destruct (String.eqb category_name k)
         end;
    simpl; repeat split; try lra; reflexivity.
Qed.

(** ** Scenes without samples *)

Lemma scene_loop_no_samples W self fuel scenes :
  Forall (fun sc => truthy (Rec.first_sample_token sc) = false) scenes ->
  forall scene_idx st,
    exists st',
      scene_loop W self (S fuel) scene_idx scenes st = Some (Ok tt, st') /\
      clock st' = clock st /\
      exists new, trace st' = (trace st ++ new)%list /\ forallb is_print new = true.
Proof.
  induction 1 as [| sc rest Hsc _ IH]; intros scene_idx st.
  - exists st. split; [reflexivity |]. split; [reflexivity |].
    exists []. rewrite app_nil_r. split; reflexivity.
  - cbn [scene_loop sample_loop]. rewrite Hsc. cbn [andb].
    match goal with
    | |- context [negb (running_at W (clock ?st1))] =>
        destruct (negb (running_at W (clock st1)))
    end.
    + eexists. split; [reflexivity |]. split; [reflexivity |].
      eexists. split; [reflexivity | reflexivity].
    + match goal with
      | |- context [scene_loop W self (S fuel) ?i rest ?st1] =>
          destruct (IH i st1) as (st' & Hloop & Hclock & new & Ht & Hp)
      end.
      exists st'. split; [exact Hloop |]. split; [exact Hclock |].
      eexists. split.
      * rewrite Ht. simpl. rewrite <- app_assoc. reflexivity.
      * simpl. exact Hp.
Qed.

(** X23 -- scenes whose [first_sample_token] is empty cost nothing: when
    every scene is like that, [_stream_data] returns after one turn of
    the loops, has passed no await point, and has printed only (scene
    headers and its closing line), whatever the running flag says. *)
Theorem scenes_without_samples_only_print W self fuel st :
  Forall (fun sc => truthy (Rec.first_sample_token sc) = false) (scene (ts self)) ->
  exists st',
    stream_data W self (S fuel) st = Some (Ok tt, st') /\
    clock st' = clock st /\
    forallb is_print (emitted st st') = true /\
    last (trace st') = Some (Print "Streaming complete.").
Proof.
  intros Hall. unfold stream_data.
  destruct (scene_loop_no_samples W self fuel _ Hall 0 st)
    as (st1 & Hloop & Hclock & new & Ht & Hp).
  rewrite Hloop. eexists. split; [reflexivity |]. split; [exact Hclock |].
  split.
  - rewrite (emitted_app st _ (new ++ [Print "Streaming complete."])).
    + rewrite forallb_app, Hp. reflexivity.
    + simpl. rewrite Ht, <- app_assoc. reflexivity.
  - simpl. apply last_snoc.
Qed.

Lemma scenes_without_samples_only_print_witness :
  exists st',
    stream_data Demo.world0 Demo6.streamer_bare 1 Demo.start = Some (Ok tt, st') /\
    clock st' = 0%nat /\
    forallb is_print (emitted Demo.start st') = true.
Proof.
  destruct (scenes_without_samples_only_print Demo.world0 Demo6.streamer_bare 0 Demo.start)
    as (st' & H & Hclock & Hp & _).
  - repeat constructor.
  - exists st'. split; [exact H |]. split; [exact Hclock | exact Hp].
Defined.

(** ** The registration summary *)

Lemma has_prefix_append (p s t : string) :
  has_prefix p s = true -> has_prefix p (String.append s t) = true.
Proof.
  revert s. induction p as [| a p IH]; intros s H; [reflexivity |].
  destruct s as [| b s]; [discriminate |].
  change (String.append (String b s) t) with (String b (String.append s t)).
  cbn [has_prefix] in *. destruct (Ascii.eqb a b); [apply IH; exact H | discriminate].
Qed.

Lemma str_contains_append (p s t : string) :
  str_contains p s = true -> str_contains p (String.append s t) = true.
Proof.
  induction s as [| b s IH]; intros H.
  - cbn [str_contains] in H.
    destruct (has_prefix p EmptyString) eqn:Hp; [| discriminate].
    destruct p; [| discriminate]. destruct t; reflexivity.
  - change (String.append (String b s) t) with (String b (String.append s t)).
    cbn [str_contains] in *.
    destruct (has_prefix p (String b s)) eqn:Hp.
    + change (String b (String.append s t)) with (String.append (String b s) t).
      rewrite (has_prefix_append _ _ t Hp). reflexivity.
    + destruct (has_prefix p (String b (String.append s t))); [reflexivity |].
      apply IH. exact H.
Qed.

Lemma string_length_append (a b : string) :
  String.length (String.append a b) = (String.length a + String.length b)%nat.
Proof.
  induction a as [| x a IH]; [reflexivity |].
  change (String.append (String x a) b) with (String x (String.append a b)).
  cbn [String.length]. rewrite IH. reflexivity.
Qed.

Lemma info_key_differs (channel : string) : channel <> fstr [channel; "_info"].
Proof.
  intros H. apply (f_equal String.length) in H.
  unfold fstr in H. cbn [String.concat] in H.
  rewrite !string_length_append in H. cbn [String.length] in H. lia.
Qed.

Lemma two_members_length {A : Type} (l : list A) (x y : A) :
  In x l -> In y l -> x <> y -> (2 <= length l)%nat.
Proof.
  intros Hx Hy Hne.
  destruct l as [| a [| b l]]; simpl in *; [tauto | | lia].
  destruct Hx as [<- | []], Hy as [<- | []]. congruence.
Qed.

Lemma count_keys_two (pat : string) (chans : gmap string nat) (k1 k2 : string) :
  k1 <> k2 ->
  is_Some (chans !! k1) -> is_Some (chans !! k2) ->
  str_contains pat k1 = true -> str_contains pat k2 = true ->
  (2 <= count_keys pat chans)%nat.
Proof.
  intros Hne [v1 H1] [v2 H2] Hp1 Hp2. unfold count_keys.
  apply (two_members_length _ (k1, v1) (k2, v2)).
  - apply List.filter_In. split; [| exact Hp1].
    apply list_elem_of_In, elem_of_map_to_list. exact H1.
  - apply List.filter_In. split; [| exact Hp2].
    apply list_elem_of_In, elem_of_map_to_list. exact H2.
  - congruence.
Qed.

(** X24 -- the summary line counts channels, not cameras: the camera
    count is taken over the keys of [self.channels] that contain
    [CAMERA], and a camera's [_info] key does too, so as soon as the
    sensor table has one camera the line reports at least two. *)
Theorem camera_count_includes_info_channels (dataset : TruckScenes) (port : Z)
    (srv : Server.t) (s : Rec.sensor) :
  s ∈ sensor dataset ->
  str_contains "CAMERA" (Rec.channel s) = true ->
  let self := fst (fst (register_channels dataset port srv)) in
  (2 <= count_keys "CAMERA" (channels self))%nat /\
  snd (register_channels dataset port srv)
  = fstr ["Registered "; str_int (Z.of_nat (count_keys "CAMERA" (channels self)));
          " cameras, "; str_int (Z.of_nat (count_keys "LIDAR" (channels self)));
          " lidars, "; str_int (Z.of_nat (count_keys "RADAR" (channels self)));
          " radars + /annotations + /tf"].
Proof.
  intros Hin Hcam. cbv zeta. split; [| reflexivity].
  unfold register_channels. cbv zeta. cbn [fst snd channels].
  destruct (register_fold_adds (sensor dataset) (∅, srv) s Hin) as [H1 H2].
  apply (count_keys_two "CAMERA" _ (Rec.channel s) (fstr [Rec.channel s; "_info"])).
  - apply info_key_differs.
  - apply H1. unfold is_sensor_channel. rewrite Hcam. reflexivity.
  - apply H2. exact Hcam.
  - exact Hcam.
  - unfold fstr. cbn [String.concat]. apply str_contains_append. exact Hcam.
Qed.

Lemma camera_count_includes_info_channels_witness :
  (2 <= count_keys "CAMERA"
          (channels (fst (fst (register_channels Demo.dataset 8765 Server.fresh)))))%nat /\
  snd (register_channels Demo.dataset 8765 Server.fresh)
  = "Registered 2 cameras, 1 lidars, 1 radars + /annotations + /tf".
Proof.
  destruct (camera_count_includes_info_channels Demo.dataset 8765 Server.fresh
              {| Rec.channel := "CAMERA_LEFT_FRONT" |}) as [H _].
  - left.
  - reflexivity.
  - split; [exact H | vm_compute; reflexivity].
Defined.

(** ** Progress lines *)

Lemma send_frame_quiet W self smp : grows quiet (send_frame W self smp).
Proof.
  unfold send_frame.
  apply grows_bind; [apply grows_send_message; reflexivity |]. intros _.
  apply grows_bind.
  - apply grows_for_each. intros [channel sd_token]. unfold send_sensor.
    destruct (channels self !! channel); [| apply grows_ret].
    assert (Hcloud : forall is_lidar,
      grows quiet (send_pointcloud W self channel sd_token (Rec.timestamp smp) is_lidar)).
    { intros is_lidar.
      apply grows_try_except; [| intros e; apply grows_print; reflexivity].
      unfold send_pointcloud_body.
      apply grows_bind_lift. intros path _.
      apply grows_bind_lift. intros spheres _.
      destruct spheres; [apply grows_ret |].
      apply grows_bind_lift. intros chan _.
      apply grows_send_message. reflexivity. }
    destruct (str_contains "CAMERA" channel).
    { apply grows_try_except; [| intros e; apply grows_print; reflexivity].
      unfold send_camera_body.
      apply grows_bind_lift. intros path _.
      apply grows_bind_lift. intros bytes _.
      apply grows_bind_lift. intros chan _.
      apply grows_bind; [apply grows_send_message; reflexivity |].
      intros _. destruct (channels self !! _);
        [apply grows_send_message; reflexivity | apply grows_ret]. }
    destruct (str_contains "LIDAR" channel); [apply Hcloud |].
    destruct (str_contains "RADAR" channel); [apply Hcloud | apply grows_ret].
  - intros _.
    apply grows_try_except; [| intros e; apply grows_print; reflexivity].
    unfold send_annotations_body.
    destruct (py_or _ _) as [tok |]; [| apply grows_ret].
    destruct (truthy tok); [| apply grows_ret].
    apply grows_bind_lift. intros sd _.
    apply grows_bind_lift. intros ego _.
    apply grows_bind_lift. intros boxes _.
    destruct (map fst boxes); [apply grows_ret |].
    apply grows_send_message. reflexivity.
Qed.

Lemma count_progress_app (l1 l2 : list event) :
  count_progress (l1 ++ l2) = (count_progress l1 + count_progress l2)%nat.
Proof. unfold count_progress. rewrite List.filter_app, length_app. reflexivity. Qed.

Lemma quiet_events_count (new : list event) :
  Forall quiet new -> count_progress new = 0%nat.
Proof.
  induction 1 as [| e l He _ IH]; [reflexivity |].
  change (e :: l) with ([e] ++ l)%list. rewrite count_progress_app, IH.
  unfold count_progress. simpl. rewrite He. reflexivity.
Qed.

Lemma progressed_refl st : progressed st st 0.
Proof. exists []. rewrite app_nil_r. split; reflexivity. Qed.

Lemma progressed_trans st1 st2 st3 n m :
  progressed st1 st2 n -> progressed st2 st3 m -> progressed st1 st3 (n + m).
Proof.
  intros (l1 & H1 & C1) (l2 & H2 & C2).
  exists (l1 ++ l2)%list. rewrite H2, H1, app_assoc, count_progress_app, C1, C2.
  split; reflexivity.
Qed.

Lemma frame_step_progress W self tok frame_count st r st' :
  frame_step W self tok frame_count st = (Ok r, st') ->
  snd r = frame_count + 1 /\
  progressed st st' (if Z.eqb ((frame_count + 1) mod 10) 0 then 1 else 0).
Proof.
  unfold frame_step, bind, lift. intros H.
  destruct (get (sample (ts self)) tok) as [smp | e]; [| discriminate].
  destruct (send_frame_quiet W self smp st) as (n1 & Ht1 & Hall).
  apply quiet_events_count in Hall.
  destruct (send_frame W self smp st) as [[[] | e] st1]; [| discriminate].
  simpl in Ht1.
  destruct (Z.eqb ((frame_count + 1) mod 10) 0);
    unfold print, sleep, ret in H; simpl in H; injection H as <- <-;
    (split; [reflexivity |]).
  - exists (n1 ++ [Print (fstr ["  Frame "; str_int (frame_count + 1)]); Sleep (1 # 10)])%list.
    simpl. rewrite Ht1, <- !app_assoc. split; [reflexivity |].
    rewrite count_progress_app, Hall. reflexivity.
  - exists (n1 ++ [Sleep (1 # 10)])%list.
    simpl. rewrite Ht1, <- !app_assoc. split; [reflexivity |].
    rewrite count_progress_app, Hall. reflexivity.
Qed.

Lemma run_frames_progress W self toks :
  forall frame_count st st',
    0 <= frame_count ->
    run_frames W self toks frame_count st = (Ok tt, st') ->
    progressed st st'
      (Z.to_nat ((frame_count + Z.of_nat (length toks)) / 10 - frame_count / 10)).
Proof.
  induction toks as [| tok toks IH]; intros frame_count st st' Hfc H; simpl in H.
  - unfold ret in H. injection H as <-.
    replace (Z.to_nat _) with 0%nat; [apply progressed_refl |].
    simpl. rewrite Z.add_0_r. lia.
  - unfold bind in H.
    destruct (frame_step W self tok frame_count st) as [[r | e] st1] eqn:Hstep;
      [| discriminate].
    destruct (frame_step_progress W self tok frame_count st r st1 Hstep) as [Hr Hp].
    rewrite Hr in H.
    specialize (IH (frame_count + 1) st1 st' ltac:(lia) H).
    pose proof (progressed_trans _ _ _ _ _ Hp IH) as Hall.
    match type of Hall with
    | progressed _ _ ?n =>
        replace n with
          (Z.to_nat ((frame_count + Z.of_nat (length (tok :: toks))) / 10
                     - frame_count / 10)) in Hall; [exact Hall |]
    end.
    cbn [length]. rewrite Nat2Z.inj_succ.
    replace (frame_count + Z.succ (Z.of_nat (length toks)))
      with (frame_count + 1 + Z.of_nat (length toks)) by lia.
    set (m := frame_count + 1 + Z.of_nat (length toks)).
    assert (Hm : frame_count + 1 <= m) by (unfold m; lia).
    clearbody m.
    destruct (Z.eqb ((frame_count + 1) mod 10) 0) eqn:E.
    + apply Z.eqb_eq in E.
      assert (m / 10 >= (frame_count + 1) / 10)
        by (apply Z.le_ge, Z.div_le_mono; lia).
      assert ((frame_count + 1) / 10 = frame_count / 10 + 1)
        by (zify; Z.to_euclidean_division_equations; lia).
      lia.
    + apply Z.eqb_neq in E.
      assert ((frame_count + 1) / 10 = frame_count / 10)
        by (zify; Z.to_euclidean_division_equations; lia).
      lia.
Qed.

(** X25 -- a progress line is printed after every tenth frame of a
    scene and at no other time: when the loop over a scene's chain of
    [n] samples ends normally, exactly [n // 10] lines starting with
    [  Frame ] have been printed, error lines of the sensors not being
    among them. *)
Theorem progress_line_every_tenth_frame W self tok (toks : list string) fuel st st' :
  chain self tok toks ->
  (forall c, running_at W c = true) ->
  (length toks < fuel)%nat ->
  sample_loop W self fuel tok 0 st = Some (Ok tt, st') ->
  count_progress (emitted st st') = (length toks / 10)%nat.
Proof.
  intros Hc Hrun Hfuel H.
  rewrite (sample_loop_chain W self tok toks Hc Hrun fuel 0 st Hfuel) in H.
  injection H as H.
  destruct (run_frames_progress W self toks 0 st st' ltac:(lia) H) as (new & Ht & Hn).
  rewrite (emitted_app _ _ _ Ht), Hn.
  change (0 / 10) with 0. rewrite Z.sub_0_r, Z.add_0_l.
  change 10 with (Z.of_nat 10). rewrite <- Nat2Z.inj_div, Nat2Z.id. reflexivity.
Qed.

Lemma demo_chain_ten : chain Demo7.streamer_ten "f1" Demo7.tokens.
Proof.
  unfold Demo7.tokens.
  repeat (eapply chain_next; [reflexivity | vm_compute; reflexivity |]).
  apply chain_end. reflexivity.
Defined.

Lemma progress_line_every_tenth_frame_witness :
  exists st',
    sample_loop Demo.world0 Demo7.streamer_ten 11 "f1" 0 Demo.start = Some (Ok tt, st') /\
    count_progress (emitted Demo.start st') = 1%nat.
Proof.
  assert (H : exists st',
    sample_loop Demo.world0 Demo7.streamer_ten 11 "f1" 0 Demo.start = Some (Ok tt, st')).
  { vm_compute. eexists. reflexivity. }
  destruct H as [st' H]. exists st'. split; [exact H |].
  exact (progress_line_every_tenth_frame Demo.world0 Demo7.streamer_ten "f1"
           Demo7.tokens 11 Demo.start st' demo_chain_ten (fun _ => eq_refl)
           ltac:(simpl; lia) H).
Defined.

(** ** Stamps of any sign *)

(** X26 -- [_ts] works on every integer, negative ones included (Python's
    [//] and [%] round towards minus infinity): the nanosecond part
    always lies in [0, 10^9), and stamps sort like the timestamps they
    come from, first by [sec] and then by [nsec], so distinct timestamps
    get distinct stamps. *)
Theorem ts_preserves_order (t1 t2 : Z) :
  0 <= Timestamp.nsec (Timestamp._ts t1) < 1000000000 /\
  (t1 < t2 <->
   Timestamp.sec (Timestamp._ts t1) < Timestamp.sec (Timestamp._ts t2) \/
   (Timestamp.sec (Timestamp._ts t1) = Timestamp.sec (Timestamp._ts t2) /\
    Timestamp.nsec (Timestamp._ts t1) < Timestamp.nsec (Timestamp._ts t2))) /\
  (Timestamp._ts t1 = Timestamp._ts t2 -> t1 = t2).
Proof.
  unfold Timestamp._ts. simpl.
  pose proof (Z.div_mod t1 1000000 ltac:(lia)) as E1.
  pose proof (Z.div_mod t2 1000000 ltac:(lia)) as E2.
  pose proof (Z.mod_pos_bound t1 1000000 ltac:(lia)) as B1.
  pose proof (Z.mod_pos_bound t2 1000000 ltac:(lia)) as B2.
  split; [lia |]. split.
  - split; intros H; lia.
  - intros H. injection H as Hs Hn. lia.
Qed.

Example ts_of_negative_timestamp :
  Timestamp._ts (-1) = Timestamp.mk (-1) 999999000.
Proof. reflexivity. Qed.

(** ** The closing line *)

Section Lines.

(** A property of events that holds of every message, every sleep and
    every line the relay can print before its closing line. *)
Variable P : event -> Prop.
Hypothesis P_send : forall chan log_time msg, P (Send chan log_time msg).
Hypothesis P_sleep : forall seconds, P (Sleep seconds).
Hypothesis P_camera :
  forall channel e, P (Print (fstr ["Camera error "; channel; ": "; exn_str e])).
Hypothesis P_pointcloud :
  forall channel e, P (Print (fstr ["Pointcloud error "; channel; ": "; exn_str e])).
Hypothesis P_annotations :
  forall e, P (Print (fstr ["Annotations error: "; exn_str e])).
Hypothesis P_progress :
  forall n, P (Print (fstr ["  Frame "; str_int n])).
Hypothesis P_header :
  forall i n, P (Print (fstr ["Streaming scene "; str_int i; "/"; str_int n])).

Variable W : world.
Variable self : FoxgloveStreamer.

Lemma send_frame_lines smp : grows P (send_frame W self smp).
Proof.
  unfold send_frame.
  apply grows_bind; [apply grows_send_message; apply P_send |]. intros _.
  apply grows_bind.
  - apply grows_for_each. intros [channel sd_token]. unfold send_sensor.
    destruct (channels self !! channel); [| apply grows_ret].
    assert (Hcloud : forall is_lidar,
      grows P (send_pointcloud W self channel sd_token (Rec.timestamp smp) is_lidar)).
    { intros is_lidar.
      apply grows_try_except; [| intros e; apply grows_print; apply P_pointcloud].
      unfold send_pointcloud_body.
      apply grows_bind_lift. intros path _.
      apply grows_bind_lift. intros spheres _.
      destruct spheres; [apply grows_ret |].
      apply grows_bind_lift. intros chan _.
      apply grows_send_message. apply P_send. }
    destruct (str_contains "CAMERA" channel).
    { apply grows_try_except; [| intros e; apply grows_print; apply P_camera].
      unfold send_camera_body.
      apply grows_bind_lift. intros path _.
      apply grows_bind_lift. intros bytes _.
      apply grows_bind_lift. intros chan _.
      apply grows_bind; [apply grows_send_message; apply P_send |].
      intros _. destruct (channels self !! _);
        [apply grows_send_message; apply P_send | apply grows_ret]. }
    destruct (str_contains "LIDAR" channel); [apply Hcloud |].
    destruct (str_contains "RADAR" channel); [apply Hcloud | apply grows_ret].
  - intros _.
    apply grows_try_except; [| intros e; apply grows_print; apply P_annotations].
    unfold send_annotations_body.
    destruct (py_or _ _) as [tok |]; [| apply grows_ret].
    destruct (truthy tok); [| apply grows_ret].
    apply grows_bind_lift. intros sd _.
    apply grows_bind_lift. intros ego _.
    apply grows_bind_lift. intros boxes _.
    destruct (map fst boxes); [apply grows_ret |].
    apply grows_send_message. apply P_send.
Qed.

Lemma frame_step_lines tok frame_count : grows P (frame_step W self tok frame_count).
Proof.
  unfold frame_step.
  apply grows_bind_lift. intros smp _.
  apply grows_bind; [apply send_frame_lines |].
  intros _. apply grows_bind.
  { destruct (Z.eqb _ _); [apply grows_print; apply P_progress | apply grows_ret]. }
  intros _. apply grows_bind; [apply grows_sleep; apply P_sleep |].
  intros _. apply grows_ret.
Qed.

Lemma sample_loop_lines fuel :
  forall tok frame_count st r st',
    sample_loop W self fuel tok frame_count st = Some (r, st') ->
    appended P st st'.
Proof.
  induction fuel as [| fuel IH]; intros tok frame_count st r st' H; simpl in H.
  - discriminate.
  - destruct (truthy tok && running_at W (clock st)).
    + pose proof (grows_appended _ _ st (frame_step_lines tok frame_count)) as Hstep.
      destruct (frame_step W self tok frame_count st) as [[[next fc] | e] st1];
        simpl in Hstep.
      * eapply appended_trans; [exact Hstep | eapply IH; exact H].
      * injection H as <- <-. exact Hstep.
    + injection H as <- <-. apply appended_refl.
Qed.

Lemma scene_loop_lines fuel scenes :
  forall scene_idx st r st',
    scene_loop W self fuel scene_idx scenes st = Some (r, st') ->
    appended P st st'.
Proof.
  induction scenes as [| sc rest IH]; intros scene_idx st r st' H; simpl in H.
  - injection H as <- <-. apply appended_refl.
  - match type of H with
    | context [sample_loop W self fuel ?tok 0 ?st1] =>
        destruct (sample_loop W self fuel tok 0 st1) as [[[[] | e] st2] |] eqn:Hloop;
        [| | discriminate];
        pose proof (sample_loop_lines fuel _ _ _ _ _ Hloop) as Hin;
        assert (Hhead : appended P st st2)
          by (eapply appended_trans; [| exact Hin]; apply appended_emit; apply P_header)
    end.
    + destruct (negb (running_at W (clock st2))).
      * injection H as <- <-. exact Hhead.
      * eapply appended_trans; [exact Hhead | eapply IH; exact H].
    + injection H as <- <-. exact Hhead.
Qed.

End Lines.

(** Two lines that differ at some character are different events. *)
Ltac other_line := let H := fresh "H" in intros H; discriminate H.

(** X27 -- [Streaming complete.] tells a stream that ended without an
    exception from one that did not, and nothing more: it is the last
    line whenever [_stream_data] returns, be it at the end of the data or
    because the flag went down, and it is never printed when an exception
    ends the stream. *)
Theorem closing_line_means_no_exception W self fuel st st' :
  (stream_data W self fuel st = Some (Ok tt, st') ->
   last (trace st') = Some (Print "Streaming complete.")) /\
  (forall e,
     stream_data W self fuel st = Some (Raise e, st') ->
     Print "Streaming complete." ∉ emitted st st').
Proof.
  unfold stream_data. split.
  - destruct (scene_loop W self fuel 0 (scene (ts self)) st) as [[[[] | e] st1] |];
      [| discriminate | discriminate].
    intros H. injection H as <-. simpl. apply last_snoc.
  - intros e H.
    destruct (scene_loop W self fuel 0 (scene (ts self)) st) as [[[[] | e1] st1] |] eqn:Hloop;
      [discriminate | | discriminate].
    injection H as <- <-.
    assert (Hlines : appended (fun ev => ev <> Print "Streaming complete.") st st1).
    { eapply (scene_loop_lines (fun ev => ev <> Print "Streaming complete."));
        [ discriminate
        | discriminate
        | intros channel e0; other_line
        | intros channel e0; other_line
        | intros e0; other_line
        | intros n; other_line
        | intros i n; other_line
        | exact Hloop ]. }
    destruct Hlines as (new & Ht & Hall).
    rewrite (emitted_app _ _ _ Ht). intros Hin.
    rewrite Forall_forall in Hall. apply (Hall _ Hin). reflexivity.
Qed.

Lemma closing_line_means_no_exception_witness :
  exists e st',
    stream_data (Demo.world_fault 0) Demo.streamer 3 Demo.start = Some (Raise e, st') /\
    Print "Streaming complete." ∉ emitted Demo.start st'.
Proof.
  assert (H : exists e st',
    stream_data (Demo.world_fault 0) Demo.streamer 3 Demo.start = Some (Raise e, st')).
  { vm_compute. eexists. eexists. reflexivity. }
  destruct H as (e & st' & H). exists e, st'. split; [exact H |].
  destruct (closing_line_means_no_exception (Demo.world_fault 0) Demo.streamer 3
              Demo.start st') as [_ Hno].
  exact (Hno e H).
Defined.
